(** * Dashboard and chat front end of the hackathon monitor

    A shallow embedding of the two browser scripts of the repository:
    - [static/js/dashboard.js]: the periodic-refresh pipeline (three
      sub-fetches, the refresh button, the auto-refresh timer and the
      message formatter);
    - the chat page script: the transcript, the busy state of the input
      controls and the quick-reply buttons.

    Conventions of the embedding.
    - A JavaScript string is a [string]: a sequence of code units, here the
      code units below 256.  The regular-expression passes of the source use
      neither the [u] flag nor any class beyond ASCII, so a code unit above
      127 is never a word character, a digit, or a case variant of a keyword
      letter.  [toUpperCase] is embedded on the ASCII letters.
    - A JSON number is an integer ([Z]) printed in decimal; fractional
      numbers and the exponent notation of very large ones are not part of
      the embedding.
    - An [async] function is split at its suspension points: the code before
      the first [await] is one atomic step, the code resumed by the settled
      network call is another.  No statement of the source lies between
      [await fetch(..)] and [await response.json()], so both are one
      suspension whose result is an [outcome]. *)

From Stdlib Require Import Ascii String ZArith Bool Lia.
From stdpp Require Import gmap strings list pretty.

Local Open Scope nat_scope.

(** String concatenation unfolds on a literal prefix. *)
#[global] Arguments String.append !_ _ / : simpl nomatch.

(** ** Code units and strings *)

Module Str.

Definition code (c : ascii) : nat := nat_of_ascii c.

Definition between (lo hi : nat) (c : ascii) : bool :=
  (lo <=? code c) && (code c <=? hi).

Definition is_upper : ascii -> bool := between 65 90.
Definition is_lower : ascii -> bool := between 97 122.
Definition is_digit : ascii -> bool := between 48 57.

(** The class [\w] of a pattern without the [u] flag: [[A-Za-z0-9_]]. *)
Definition is_word (c : ascii) : bool :=
  is_upper c || is_lower c || is_digit c || (code c =? 95).

(** [String.prototype.toUpperCase] on one code unit below 128 (the ASCII
    letters); a code unit from 128 on is kept, where the script maps the
    small letters of Latin-1 as well. *)
Definition upper (c : ascii) : ascii :=
  if is_lower c then ascii_of_nat (code c - 32) else c.

(** [Canonicalize] of a case-insensitive pattern without the [u] flag: two
    code units match when their upper-case forms agree.  The patterns of
    the source hold ASCII letters only, and no code unit above 127
    canonicalizes to an ASCII letter. *)
Definition ci_eqb (a b : ascii) : bool := Ascii.eqb (upper a) (upper b).

(** White space and line terminators removed by [String.prototype.trim]. *)
Definition is_space (c : ascii) : bool :=
  between 9 13 c || (code c =? 32) || (code c =? 160).

(** The double quote, as a code unit and as a one-character string. *)
Definition dquote : ascii := ascii_of_nat 34.
Definition dq : string := String dquote "".
Definition nl : string := String (ascii_of_nat 10) "".

Definition head (s : string) : option ascii :=
  match s with "" => None | String c _ => Some c end.

Fixpoint last (s : string) (d : option ascii) : option ascii :=
  match s with "" => d | String c s' => last s' (Some c) end.

Fixpoint drop (n : nat) (s : string) : string :=
  match n, s with
  | 0, _ => s
  | S n', String _ s' => drop n' s'
  | S _, "" => ""
  end.

(** [s.slice(-4)]: the last four code units, the whole string if shorter. *)
Definition slice_last4 (s : string) : string :=
  drop (String.length s - 4) s.

Fixpoint drop_while (p : ascii -> bool) (s : string) : string :=
  match s with
  | "" => ""
  | String c s' => if p c then drop_while p s' else s
  end.

Fixpoint rev_onto (s acc : string) : string :=
  match s with "" => acc | String c s' => rev_onto s' (String c acc) end.

Definition rev (s : string) : string := rev_onto s "".

(** [s.trim()]. *)
Definition trim (s : string) : string :=
  rev (drop_while is_space (rev (drop_while is_space s))).

(** [s.charAt(0).toUpperCase() + s.slice(1)]. *)
Definition capitalize (s : string) : string :=
  match s with "" => "" | String c s' => String (upper c) s' end.

End Str.

(** ** Global replacement by a regular expression

    [text.replace(/re/g, r)] scans the subject from left to right.  At each
    position the pattern either matches some code units, which are replaced
    and skipped, or the code unit is copied and the scan moves on.  Every
    pattern of the two scripts consumes at least one code unit and looks
    behind at most one, so a pattern is embedded as a [matcher]: from the
    previous code unit and the rest of the subject it returns the number of
    code units matched and the text that replaces them. *)

Module Regex.

Definition matcher : Type := option ascii -> string -> option (nat * string).

(** [skip] counts the code units of the current match still to be passed. *)
Fixpoint replace_go (m : matcher) (skip : nat) (prev : option ascii)
    (s : string) : string :=
  match s with
  | "" => ""
  | String c s' =>
      match skip with
      | S k => replace_go m k (Some c) s'
      | 0 =>
          match m prev s with
          | Some (S n, r) => r +:+ replace_go m n (Some c) s'
          | _ => String c (replace_go m 0 (Some c) s')
          end
      end
  end.

Definition replace_all (m : matcher) (s : string) : string :=
  replace_go m 0 None s.

(** [(s.match(/re/g) || []).length]: the matches found by the same scan. *)
Fixpoint count_go (m : matcher) (skip : nat) (prev : option ascii)
    (s : string) : nat :=
  match s with
  | "" => 0
  | String c s' =>
      match skip with
      | S k => count_go m k (Some c) s'
      | 0 =>
          match m prev s with
          | Some (S n, _) => S (count_go m n (Some c) s')
          | _ => count_go m 0 (Some c) s'
          end
      end
  end.

Definition count_all (m : matcher) (s : string) : nat := count_go m 0 None s.

(** The assertion [\b]: exactly one side is a word character. *)
Definition is_word_opt (o : option ascii) : bool :=
  match o with Some c => Str.is_word c | None => false end.

Definition boundary (before after : option ascii) : bool :=
  xorb (is_word_opt before) (is_word_opt after).

(** A literal matched case-insensitively at the head of the subject: the
    matched text and the rest. *)
Fixpoint match_ci (lit s : string) : option (string * string) :=
  match lit with
  | "" => Some ("", s)
  | String k lit' =>
      match s with
      | String c s' =>
          if Str.ci_eqb k c then
            match match_ci lit' s' with
            | Some (m, rest) => Some (String c m, rest)
            | None => None
            end
          else None
      | "" => None
      end
  end.

(** A literal matched exactly at the head of the subject: the rest. *)
Fixpoint match_lit (lit s : string) : option string :=
  match lit with
  | "" => Some s
  | String k lit' =>
      match s with
      | String c s' => if Ascii.eqb k c then match_lit lit' s' else None
      | "" => None
      end
  end.

(** The longest prefix whose code units satisfy [p], and the rest. *)
Fixpoint span (p : ascii -> bool) (s : string) : string * string :=
  match s with
  | "" => ("", "")
  | String c s' =>
      if p c then let (a, b) := span p s' in (String c a, b) else ("", s)
  end.

(** [new RegExp("\\b(" + keyword + ")\\b", "gi")] with the replacement
    [open + "$1" + close]. *)
Definition word_matcher (keyword : string) (wrap : string -> string)
    : matcher := fun prev s =>
  if boundary prev (Str.head s) then
    match match_ci keyword s with
    | Some (m, rest) =>
        if boundary (Str.last m prev) (Str.head rest)
        then Some (String.length m, wrap m)
        else None
    | None => None
    end
  else None.

(** [/\?/g]. *)
Definition literal_matcher (lit repl : string) : matcher := fun _ s =>
  match match_lit lit s with
  | Some _ => Some (String.length lit, repl)
  | None => None
  end.

(** [/<@([A-Z0-9]+)>/g] with a callback on the captured identifier.  The
    class excludes [>], so the greedy run is the only candidate. *)
Definition mention_class (c : ascii) : bool := Str.is_upper c || Str.is_digit c.

Definition mention_matcher (label : string -> string) : matcher := fun _ s =>
  match match_lit "<@" s with
  | Some rest =>
      let (userId, rest') := span mention_class rest in
      match userId, Str.head rest' with
      | String _ _, Some c =>
          if Ascii.eqb c (ascii_of_nat 62)
          then Some (3 + String.length userId, label userId)
          else None
      | _, _ => None
      end
  | None => None
  end.

(** Line terminators, which [.] does not match. *)
Definition is_line_terminator (c : ascii) : bool :=
  (Str.code c =? 10) || (Str.code c =? 13).

(** The lazy [.*?] followed by a literal: the shortest run of code units
    other than line terminators after which the literal matches; the run and
    the rest after the literal. *)
Fixpoint lazy_until (lit s : string) : option (string * string) :=
  match match_lit lit s with
  | Some rest => Some ("", rest)
  | None =>
      match s with
      | "" => None
      | String c s' =>
          if is_line_terminator c then None
          else match lazy_until lit s' with
               | Some (cap, rest) => Some (String c cap, rest)
               | None => None
               end
      end
  end.

(** [open(.*?)close] with a replacement built from the captured run. *)
Definition enclosed_matcher (open close : string) (repl : string -> string)
    : matcher := fun _ s =>
  match match_lit open s with
  | Some rest =>
      match lazy_until close rest with
      | Some (cap, _) =>
          Some (String.length open + String.length cap + String.length close,
                repl cap)
      | None => None
      end
  | None => None
  end.

(** [/\d+\./g]: the class excludes the dot, so the greedy run is the only
    candidate. *)
Definition enumeration_matcher : matcher := fun _ s =>
  let (digits, rest) := span Str.is_digit s in
  match digits, Str.head rest with
  | String _ _, Some c =>
      if Ascii.eqb c (ascii_of_nat 46)
      then Some (S (String.length digits), "")
      else None
  | _, _ => None
  end.

End Regex.


(** ** The render formatter of [dashboard.js] *)

Module Formatter.

Import Str.

Definition span_open (cls : string) : string :=
  "<span class=" +:+ dq +:+ cls +:+ dq +:+ ">".
Definition span_close : string := "</span>".

Definition span_tag (cls body : string) : string :=
  span_open cls +:+ body +:+ span_close.

Definition danger (body : string) : string := span_tag "text-danger fw-bold" body.
Definition info (body : string) : string := span_tag "text-info fw-bold" body.
Definition badge (userId : string) : string :=
  span_tag "badge bg-primary" ("@User " +:+ slice_last4 userId).
Definition strong (body : string) : string :=
  "<strong>" +:+ body +:+ "</strong>".

Definition problemKeywords : list string :=
  ["problem"; "issue"; "error"; "bug"; "stuck"; "help"; "broken"; "failed";
   "trouble"].

Definition questionKeywords : list string :=
  ["how"; "what"; "where"; "when"; "why"; "can"; "could"; "would"; "should"].

(** [text.replace(/<@([A-Z0-9]+)>/g, (match, userId) => ...)]. *)
Definition maskMentions (text : string) : string :=
  Regex.replace_all (Regex.mention_matcher badge) text.

(** [keywords.forEach(keyword => { text = text.replace(regex, ...) })]. *)
Definition highlightKeywords (keywords : list string)
    (wrap : string -> string) (text : string) : string :=
  fold_left (fun t keyword =>
               Regex.replace_all (Regex.word_matcher keyword wrap) t)
            keywords text.

(** [text.replace(/\?/g, ...)]. *)
Definition highlightQuestionMarks (text : string) : string :=
  Regex.replace_all (Regex.literal_matcher "?" (info "?")) text.

(** The three highlighting passes, lines 103 to 118. *)
Definition highlight (text : string) : string :=
  highlightQuestionMarks
    (highlightKeywords questionKeywords info
       (highlightKeywords problemKeywords danger text)).

(** The whole transformation of a message text, lines 98 to 123. *)
Definition formatText (text : string) : string :=
  capitalize (highlight (maskMentions text)).

(** [text.replace(/\*\*(.*?)\*\*/g, '<strong>$1</strong>')]. *)
Definition emphasize (text : string) : string :=
  Regex.replace_all (Regex.enclosed_matcher "**" "**" strong) text.

(** The three marker counts of [fetchInsights]. *)
Definition countEnumerations (text : string) : nat :=
  Regex.count_all Regex.enumeration_matcher text.
Definition countBullets (text : string) : nat :=
  Regex.count_all (Regex.literal_matcher "&bull;" "") text.
Definition countHeaders (text : string) : nat :=
  Regex.count_all (Regex.enclosed_matcher "<strong>" ":</strong>" id) text.

End Formatter.

(** ** Keyword highlighting as the specification words it

    A second definition, written from the words of the specification and
    not from the source: a case-insensitive whole-word match against the
    fixed keyword lists, each match wrapped in the span of its list, no
    text wrapped twice.  The text is cut once into words (maximal runs of
    word characters) and single other characters, and every token is
    rendered on its own, so nothing can be wrapped twice. *)

Module Tokens.

Import Str Formatter.

Inductive token := Word (w : string) | Sep (c : ascii).

Fixpoint tokenize (s : string) : list token :=
  match s with
  | "" => []
  | String c s' =>
      if is_word c then
        match tokenize s' with
        | Word w :: ts => Word (String c w) :: ts
        | ts => Word (String c "") :: ts
        end
      else Sep c :: tokenize s'
  end.

(** Case-insensitive equality of a keyword and a word. *)
Fixpoint ci_equal (a b : string) : bool :=
  match a, b with
  | "", "" => true
  | String x a', String y b' => ci_eqb x y && ci_equal a' b'
  | _, _ => false
  end.

Definition is_keyword (keywords : list string) (w : string) : bool :=
  existsb (fun k => ci_equal k w) keywords.

(** Each token is wrapped at most once, in the span of its own kind. *)
Definition render_token (t : token) : string :=
  match t with
  | Word w =>
      if is_keyword problemKeywords w then danger w
      else if is_keyword questionKeywords w then info w
      else w
  | Sep c => if Ascii.eqb c "?" then info "?" else String c ""
  end.

Fixpoint concat (l : list string) : string :=
  match l with [] => "" | x :: l' => x +:+ concat l' end.

Definition highlight_tokens (text : string) : string :=
  concat (map render_token (tokenize text)).

End Tokens.

(** ** The passes of the source, read on token lists

    Auxiliary definitions for the comparison of the sequential passes with
    the one-pass rendering. *)

Module TokenPass.

Import Str Formatter Tokens.

Fixpoint all_word (s : string) : bool :=
  match s with "" => true | String c s' => is_word c && all_word s' end.

Definition nonempty (s : string) : bool :=
  match s with "" => false | _ => true end.

Definition text_of (t : token) : string :=
  match t with Word w => w | Sep c => String c "" end.

Fixpoint flat (ts : list token) : string :=
  match ts with [] => "" | t :: ts' => text_of t +:+ flat ts' end.

Definition starts_with_word (ts : list token) : bool :=
  match ts with Word _ :: _ => true | _ => false end.

(** A token list as [tokenize] produces it: words are non-empty runs of word
    characters, separators are other characters, no two words are adjacent. *)
Fixpoint normal (ts : list token) : bool :=
  match ts with
  | [] => true
  | Sep c :: ts' => negb (is_word c) && normal ts'
  | Word w :: ts' =>
      nonempty w && all_word w && negb (starts_with_word ts') && normal ts'
  end.

(** The text that the pass of one keyword puts in the place of a token. *)
Definition pass_text (keyword o c : string) (t : token) : string :=
  match t with
  | Word w => if ci_equal keyword w then o +:+ w +:+ c else w
  | Sep x => String x ""
  end.

(** The tokens of a word wrapped between the markup [o] and [c]. *)
Definition wrap_tokens (o c w : string) : list token :=
  tokenize o ++ Word w :: tokenize c.

(** The pass of one keyword as a map on token lists. *)
Definition pass_token (k o c : string) (t : token) : list token :=
  match t with
  | Word w => if ci_equal k w then wrap_tokens o c w else [t]
  | Sep _ => [t]
  end.

Definition pass_tokens (k o c : string) (ts : list token) : list token :=
  flat_map (pass_token k o c) ts.

Definition fold_tokens (ks : list string) (o c : string) (ts : list token)
    : list token :=
  fold_left (fun ts k => pass_tokens k o c ts) ks ts.

Fixpoint ends_sep (ts : list token) : bool :=
  match ts with
  | [] => false
  | [Sep _] => true
  | [Word _] => false
  | _ :: ts' => ends_sep ts'
  end.

Definition keyword_ok (k : string) : bool := nonempty k && all_word k.

(** The markup is cut off from the text around it and from the word in it. *)
Definition markup_ok (o c : string) : bool :=
  ends_sep (tokenize o) && negb (starts_with_word (tokenize c)).

(** Some word of the token list is one of the keywords. *)
Definition hits (ks : list string) (ts : list token) : bool :=
  existsb (fun t => match t with Word v => is_keyword ks v | Sep _ => false end)
          ts.

(** No two keywords of the list are equal up to case. *)
Fixpoint distinct (ks : list string) : bool :=
  match ks with
  | [] => true
  | k :: ks' => negb (is_keyword ks' k) && distinct ks'
  end.

(** The passes of two keyword lists, one list after the other. *)
Definition both (ks1 ks2 : list string) (o1 c1 o2 c2 : string)
    (ts : list token) : list token :=
  fold_tokens ks2 o2 c2 (fold_tokens ks1 o1 c1 ts).

(** The question-mark pass, character by character. *)
Fixpoint qmark (r s : string) : string :=
  match s with
  | "" => ""
  | String x s' => (if Ascii.eqb x "?" then r else String x "") +:+ qmark r s'
  end.

Definition danger_open : string := span_open "text-danger fw-bold".

Definition info_open : string := span_open "text-info fw-bold".

(** The keyword passes of [dashboard.js] on token lists. *)
Definition passes (ts : list token) : list token :=
  both problemKeywords questionKeywords danger_open span_close
       info_open span_close ts.

End TokenPass.

(** ** JavaScript values, as [JSON.parse] builds them *)

Module Js.

#[warnings="-register-all"]
Inductive value :=
  | VUndefined
  | VNull
  | VBool (b : bool)
  | VNum (n : Z)
  | VStr (s : string)
  | VArr (l : list value)
  | VObj (m : gmap string value).

(** [ToBoolean]. *)
Definition truthy (v : value) : bool :=
  match v with
  | VUndefined | VNull => false
  | VBool b => b
  | VNum n => negb (n =? 0)%Z
  | VStr s => negb (String.eqb s "")
  | VArr _ | VObj _ => true
  end.

(** [a || b]. *)
Definition or_else (a b : value) : value := if truthy a then a else b.

(** [v.k] for a key that no prototype defines: [None] is the [TypeError] of
    a property read on [null] or [undefined]. *)
Definition prop (v : value) (k : string) : option value :=
  match v with
  | VUndefined | VNull => None
  | VObj m => Some (default VUndefined (m !! k))
  | _ => Some VUndefined
  end.

Fixpoint join (sep : string) (l : list string) : string :=
  match l with
  | [] => ""
  | [x] => x
  | x :: l' => x +:+ sep +:+ join sep l'
  end.

(** The integers that a number holds exactly ([Number.isSafeInteger]). *)
Definition safe_integer (n : Z) : bool :=
  (Z.abs n <=? 9007199254740991)%Z.

(** [ToString]; an array prints its elements separated by commas, [null]
    elements as the empty string.  The function gives the text of the
    values that [printable] tells, below. *)
Fixpoint to_string (v : value) : string :=
  match v with
  | VUndefined => "undefined"
  | VNull => "null"
  | VBool true => "true"
  | VBool false => "false"
  | VNum n => pretty n
  | VStr s => s
  | VArr l =>
      join "," (map (fun e => match e with
                              | VUndefined | VNull => ""
                              | _ => to_string e
                              end) l)
  | VObj _ => "[object Object]"
  end.

(** The values whose text [to_string] gives.  A number is printed by its
    digits when it is a safe integer; another number is printed from the
    double that holds it, with an exponent from 1e21 on.  [ToString] of an
    object is "[object Object]" unless the object has a key [toString] of
    its own, which after [JSON.parse] is no function: then it throws a
    [TypeError].  A list is printed from its elements. *)
Fixpoint printable (v : value) : bool :=
  match v with
  | VNum n => safe_integer n
  | VArr l => forallb printable l
  | VObj m => match m !! "toString" with None => true | Some _ => false end
  | _ => true
  end.

(** What a network call settles to: [fetch] rejects, or it resolves to a
    response with its [ok] flag and the result of [response.json()]
    ([None]: the body is not JSON). *)
Inductive outcome :=
  | NetworkError
  | Response (ok : bool) (body : option value).

(** ** Code that writes to the page and may throw

    A computation takes the elements of the page and returns them with
    either a result or nothing, when it threw; what was written before the
    exception stays written. *)

Inductive content :=
  | TextContent (s : string)
  | InnerHTML (s : string).

Definition js (A : Type) : Type :=
  gmap string content -> gmap string content * option A.

Definition ret {A} (a : A) : js A := fun d => (d, Some a).
Definition throw {A} : js A := fun d => (d, None).

Definition bind {A B} (m : js A) (k : A -> js B) : js B := fun d =>
  match m d with
  | (d', Some a) => k a d'
  | (d', None) => (d', None)
  end.

(** [try { body } catch (error) { handler }]. *)
Definition try_catch {A} (body handler : js A) : js A := fun d =>
  match body d with
  | (d', Some a) => (d', Some a)
  | (d', None) => handler d'
  end.

Definition lift {A} (o : option A) : js A :=
  match o with Some a => ret a | None => throw end.

(** [document.getElementById(id).textContent = s]: a [TypeError] when the
    page has no such element. *)
Definition set_text (id s : string) : js unit := fun d =>
  match d !! id with
  | Some _ => (<[id := TextContent s]> d, Some tt)
  | None => (d, None)
  end.

(** [document.getElementById(id).innerHTML = s]: the markup is kept as it
    is written; the elements that the browser builds from it are not
    entered into the map. *)
Definition set_html (id s : string) : js unit := fun d =>
  match d !! id with
  | Some _ => (<[id := InnerHTML s]> d, Some tt)
  | None => (d, None)
  end.

(** [const response = await fetch(url);
     if (!response.ok) throw new Error(..);
     const data = await response.json();] *)
Definition fetch_json (o : outcome) : js value :=
  match o with
  | Response true (Some v) => ret v
  | _ => throw
  end.

(** A computation that creates and removes no element. *)
Definition keeps {A} (m : js A) : Prop := forall d, dom (m d).1 = dom d.

(** The network call itself failed: it was rejected, the status was not a
    success, or the body was not JSON. *)
Definition failed (o : outcome) : bool :=
  match o with
  | Response true (Some _) => false
  | _ => true
  end.

End Js.

Notation "'let!' x := m 'in' k" := (Js.bind m (fun x => k))
  (at level 10, x name, m at level 100, k at level 200).
Notation "m ;; k" := (Js.bind m (fun _ => k))
  (at level 100, k at level 200, right associativity).

(** ** The dashboard script *)

Module Dashboard.

Import Js.

Definition stat_ids : list string :=
  ["totalMessages"; "uniqueUsers"; "questionsCount"; "problemsCount"].
Definition insight_ids : list string :=
  ["problemsInsight"; "questionsInsight"; "trendingInsight"].
Definition message_ids : list string := ["recentMessages"].

(** The elements the sub-fetches report in: the stat cards, the insight
    panels and the message list.  The [catch] blocks write to these and to
    no other element. *)
Definition page_ids : list string := stat_ids ++ insight_ids ++ message_ids.

Definition has_elements (ids : list string) (d : gmap string content) : Prop :=
  Forall (fun id => is_Some (d !! id)) ids.

(** *** [fetchStats], lines 13 to 34 *)

Definition show_stat (id key : string) (stats : value) : js unit :=
  let! v := lift (prop stats key) in
  set_text id (to_string (or_else v (VNum 0))).

(** Lines 21 to 24. *)
Definition show_stats (stats : value) : js unit :=
  show_stat "totalMessages" "total_messages" stats;;
  show_stat "uniqueUsers" "unique_users" stats;;
  show_stat "questionsCount" "questions_count" stats;;
  show_stat "problemsCount" "problems_count" stats.

(** The [catch] block, lines 29 to 32. *)
Definition stats_error : js unit :=
  set_text "totalMessages" "Error";;
  set_text "uniqueUsers" "Error";;
  set_text "questionsCount" "Error";;
  set_text "problemsCount" "Error".

Definition fetchStats (o : outcome) : js unit :=
  try_catch (let! stats := fetch_json o in show_stats stats) stats_error.

(** *** [fetchInsights], lines 36 to 75 *)

(** [text.replace(..)] on a value: only a string has the method. *)
Definition emphasize_value (v : value) : js string :=
  match v with
  | VStr s => ret (Formatter.emphasize s)
  | _ => throw
  end.

(** Lines 44 to 66. *)
Definition show_insights (insights : value) : js unit :=
  let! p := lift (prop insights "problems") in
  let! q := lift (prop insights "questions") in
  let! t := lift (prop insights "trending") in
  let! problemsText :=
    emphasize_value (or_else p (VStr "No problems detected recently.")) in
  let! questionsText :=
    emphasize_value (or_else q (VStr "No questions found recently.")) in
  let! trendingText :=
    emphasize_value (or_else t (VStr "No trending topics identified.")) in
  let problemsCount := Formatter.countEnumerations problemsText in
  let questionsCount := Formatter.countBullets questionsText in
  let trendsCount := Formatter.countHeaders trendingText in
  set_html "problemsInsight" problemsText;;
  set_html "questionsInsight" questionsText;;
  set_html "trendingInsight" trendingText;;
  set_text "problemsCount" (pretty problemsCount);;
  set_text "questionsCount" (pretty questionsCount);;
  set_text "trendsCount" (pretty trendsCount).

(** The [catch] block, lines 71 to 73. *)
Definition insights_error : js unit :=
  set_text "problemsInsight" "Error loading insights.";;
  set_text "questionsInsight" "Error loading insights.";;
  set_text "trendingInsight" "Error loading insights.".

Definition fetchInsights (o : outcome) : js unit :=
  try_catch (let! insights := fetch_json o in show_insights insights)
            insights_error.

(** *** [fetchRecentMessages], lines 77 to 139 *)

Section Messages.

(** [new Date(parseFloat(ts) * 1000).toLocaleTimeString()]: the rendering of
    a time stamp depends on the locale and the time zone of the browser. *)
Variable toLocaleTimeString : value -> string.

Definition no_messages : string :=
  "<p class=" +:+ Str.dq +:+ "text-muted" +:+ Str.dq
  +:+ ">No recent messages available.</p>".

Definition messages_error : string :=
  "<p class=" +:+ Str.dq +:+ "text-danger" +:+ Str.dq
  +:+ ">Error loading messages.</p>".

(** [user.slice(-4)] inside the template: strings and arrays have [slice]. *)
Definition user_suffix (user : value) : js string :=
  match user with
  | VStr s => ret (Str.slice_last4 s)
  | VArr l => ret (to_string (VArr (drop (length l - 4) l)))
  | _ => throw
  end.

(** Lines 96 to 123: only a string has [replace]. *)
Definition format_value (v : value) : js string :=
  match v with
  | VStr s => ret (Formatter.formatText s)
  | _ => throw
  end.

Definition message_html (timestamp user text : string) : string :=
  Str.nl +:+ "          <div class=" +:+ Str.dq +:+ "border-bottom pb-2 mb-2" +:+ Str.dq
  +:+ ">" +:+ Str.nl
  +:+ "            <small class=" +:+ Str.dq +:+ "text-muted" +:+ Str.dq +:+ ">["
  +:+ timestamp +:+ "] <strong>User " +:+ user +:+ ":</strong></small>" +:+ Str.nl
  +:+ "            <p class=" +:+ Str.dq +:+ "mb-1" +:+ Str.dq +:+ ">" +:+ text
  +:+ "</p>" +:+ Str.nl
  +:+ "          </div>" +:+ Str.nl
  +:+ "        ".

(** The callback of [messages.map]. *)
Definition render_message (msg : value) : js string :=
  let! ts := lift (prop msg "ts") in
  let timestamp := toLocaleTimeString ts in
  let! u := lift (prop msg "user") in
  let user := or_else u (VStr "Unknown") in
  let! t := lift (prop msg "text") in
  let! text := format_value (or_else t (VStr "")) in
  let! suffix := user_suffix user in
  ret (message_html timestamp suffix text).

Fixpoint render_messages (l : list value) : js (list string) :=
  match l with
  | [] => ret []
  | msg :: l' =>
      let! h := render_message msg in
      let! hs := render_messages l' in
      ret (h :: hs)
  end.

(** [messages.length === 0]. *)
Definition length_is_zero (messages : value) : bool :=
  match messages with
  | VArr l => Nat.eqb (length l) 0
  | VStr s => Nat.eqb (String.length s) 0
  | VObj m => match m !! "length" with Some (VNum 0) => true | _ => false end
  | _ => false
  end.

(** [messages.map(..)]: only an array has the method. *)
Definition map_messages (messages : value) : js (list string) :=
  match messages with
  | VArr l => render_messages l
  | _ => throw
  end.

(** Lines 83 to 133. *)
Definition show_messages (data : value) : js unit :=
  let! ms := lift (prop data "messages") in
  let messages := or_else ms (VArr []) in
  if length_is_zero messages then set_html "recentMessages" no_messages
  else
    let! htmls := map_messages messages in
    set_html "recentMessages" (String.concat "" htmls).

Definition fetchRecentMessages (o : outcome) : js unit :=
  try_catch (let! data := fetch_json o in show_messages data)
            (set_html "recentMessages" messages_error).

End Messages.

(** *** The refresh cycle and its scheduler, lines 141 to 202 *)

Inductive which := Stats | Insights | Messages.

Definition which_eqb (a b : which) : bool :=
  match a, b with
  | Stats, Stats | Insights, Insights | Messages, Messages => true
  | _, _ => false
  end.

Definition endpoint (w : which) : string :=
  match w with
  | Stats => "/api/stats"
  | Insights => "/api/insights"
  | Messages => "/api/messages?limit=10"
  end.

(** One invocation of [refreshAllData] suspended at [await Promise.all]:
    the sub-fetches that have not settled yet, and whether [Promise.all] has
    settled already (it rejects with the first rejection). *)
Record cycle := { waiting : list which; settled : bool }.

(** What the page does to the outside, in program order. *)
Inductive effect :=
  | ShowLoading
  | Request (url : string).

Record page := {
  elements : gmap string content;  (* elements found by getElementById *)
  lastUpdate : string;             (* lastUpdateElement.textContent *)
  btn_disabled : bool;             (* refreshBtn.disabled *)
  btn_html : string;               (* refreshBtn.innerHTML *)
  cycles : list cycle;             (* suspended refreshAllData calls *)
  timeouts : nat;                  (* pending setTimeout(.., 2000) *)
  hidden : bool;                   (* document.hidden *)
  autoRefreshInterval : option nat;
  intervals : list (nat * Z);      (* armed timers: handle and period *)
  next_handle : nat;               (* the handle setInterval returns next *)
  log : list effect
}.

Definition label_refreshing : string := "🔄 Refreshing...".
Definition label_refreshed : string := "✅ Refreshed!".
Definition label_error : string := "❌ Error".
Definition label_idle : string := "🔄 Refresh Data".

Definition new_cycle : cycle :=
  {| waiting := [Stats; Insights; Messages]; settled := false |}.

(** [refreshAllData] up to [await Promise.all([..])]. *)
Definition refreshAllData (now : string) (p : page) : page :=
  {| elements := elements p;
     lastUpdate := "Last updated: " +:+ now;
     btn_disabled := true;
     btn_html := label_refreshing;
     cycles := cycles p ++ [new_cycle];
     timeouts := timeouts p;
     hidden := hidden p;
     autoRefreshInterval := autoRefreshInterval p;
     intervals := intervals p;
     next_handle := next_handle p;
     log := log p ++ [ShowLoading; Request (endpoint Stats);
                      Request (endpoint Insights); Request (endpoint Messages)]
  |}.

(** The part of [refreshAllData] after the [await]: one of the two branches
    sets the label and schedules the reset of the button. *)
Definition finish (label : string) (cs : list cycle) (p : page) : page :=
  {| elements := elements p;
     lastUpdate := lastUpdate p;
     btn_disabled := btn_disabled p;
     btn_html := label;
     cycles := cs;
     timeouts := S (timeouts p);
     hidden := hidden p;
     autoRefreshInterval := autoRefreshInterval p;
     intervals := intervals p;
     next_handle := next_handle p;
     log := log p |}.

Definition keep_waiting (cs : list cycle) (p : page) : page :=
  {| elements := elements p;
     lastUpdate := lastUpdate p;
     btn_disabled := btn_disabled p;
     btn_html := btn_html p;
     cycles := cs;
     timeouts := timeouts p;
     hidden := hidden p;
     autoRefreshInterval := autoRefreshInterval p;
     intervals := intervals p;
     next_handle := next_handle p;
     log := log p |}.

Definition with_elements (d : gmap string content) (p : page) : page :=
  {| elements := d;
     lastUpdate := lastUpdate p;
     btn_disabled := btn_disabled p;
     btn_html := btn_html p;
     cycles := cycles p;
     timeouts := timeouts p;
     hidden := hidden p;
     autoRefreshInterval := autoRefreshInterval p;
     intervals := intervals p;
     next_handle := next_handle p;
     log := log p |}.

(** The callback of [setTimeout(.., 2000)]. *)
Definition reset_button (p : page) : page :=
  {| elements := elements p;
     lastUpdate := lastUpdate p;
     btn_disabled := false;
     btn_html := label_idle;
     cycles := cycles p;
     timeouts := pred (timeouts p);
     hidden := hidden p;
     autoRefreshInterval := autoRefreshInterval p;
     intervals := intervals p;
     next_handle := next_handle p;
     log := log p |}.

(** [autoRefreshInterval = setInterval(refreshAllData, 30000)]. *)
Definition startAutoRefresh (p : page) : page :=
  {| elements := elements p;
     lastUpdate := lastUpdate p;
     btn_disabled := btn_disabled p;
     btn_html := btn_html p;
     cycles := cycles p;
     timeouts := timeouts p;
     hidden := hidden p;
     autoRefreshInterval := Some (next_handle p);
     intervals := intervals p ++ [(next_handle p, 30000%Z)];
     next_handle := S (next_handle p);
     log := log p |}.

Definition clearInterval (h : nat) (l : list (nat * Z)) : list (nat * Z) :=
  filter (fun t => fst t ≠ h) l.

(** [if (autoRefreshInterval) clearInterval(autoRefreshInterval)]: the
    variable is [undefined] until the first [setInterval], and a handle is
    truthy unless it is zero. *)
Definition stopAutoRefresh (p : page) : page :=
  match autoRefreshInterval p with
  | Some (S _ as h) =>
      {| elements := elements p;
         lastUpdate := lastUpdate p;
         btn_disabled := btn_disabled p;
         btn_html := btn_html p;
         cycles := cycles p;
         timeouts := timeouts p;
         hidden := hidden p;
         autoRefreshInterval := autoRefreshInterval p;
         intervals := clearInterval h (intervals p);
         next_handle := next_handle p;
         log := log p |}
  | _ => p
  end.

Definition set_hidden (b : bool) (p : page) : page :=
  {| elements := elements p;
     lastUpdate := lastUpdate p;
     btn_disabled := btn_disabled p;
     btn_html := btn_html p;
     cycles := cycles p;
     timeouts := timeouts p;
     hidden := b;
     autoRefreshInterval := autoRefreshInterval p;
     intervals := intervals p;
     next_handle := next_handle p;
     log := log p |}.

(** The listener of [visibilitychange], run after [document.hidden] has
    changed. *)
Definition on_visibilitychange (now : string) (p : page) : page :=
  if hidden p then stopAutoRefresh p
  else refreshAllData now (startAutoRefresh p).

(** The page as the browser hands it to the [DOMContentLoaded] listener. *)
Definition fresh (d : gmap string content) (is_hidden : bool)
    (stamp html : string) : page :=
  {| elements := d; lastUpdate := stamp; btn_disabled := false;
     btn_html := html; cycles := []; timeouts := 0; hidden := is_hidden;
     autoRefreshInterval := None; intervals := []; next_handle := 1;
     log := [] |}.

(** Lines 187 to 189: [refreshAllData(); startAutoRefresh();]. *)
Definition load (now : string) (p : page) : page :=
  startAutoRefresh (refreshAllData now p).

Section Steps.

Variable toLocaleTimeString : value -> string.

Definition sub_fetch (w : which) (o : outcome) : js unit :=
  match w with
  | Stats => fetchStats o
  | Insights => fetchInsights o
  | Messages => fetchRecentMessages toLocaleTimeString o
  end.

Definition is_waiting (w : which) (c : cycle) : bool :=
  existsb (which_eqb w) (waiting c).

Definition still_waiting (w : which) (c : cycle) : list which :=
  List.filter (fun x => negb (which_eqb w x)) (waiting c).

(** A cycle whose sub-fetches have all settled is gone. *)
Definition store (i : nat) (c : cycle) (cs : list cycle) : list cycle :=
  match waiting c with
  | [] => delete i cs
  | _ => <[i := c]> cs
  end.

(** Sub-fetch [w] of cycle [i] resumes with the outcome of its network call
    and runs to its end; [Promise.all] settles when this was the last
    fulfilment or the first rejection, and [refreshAllData] resumes. *)
Definition settle (i : nat) (w : which) (o : outcome) (p : page)
    : option page :=
  match cycles p !! i with
  | Some c =>
      if is_waiting w c then
        let (d, r) := sub_fetch w o (elements p) in
        let p' := with_elements d p in
        let rest := still_waiting w c in
        Some
          (if settled c then
             keep_waiting
               (store i {| waiting := rest; settled := true |} (cycles p)) p'
           else
             match r, rest with
             | Some _, [] =>
                 finish label_refreshed
                   (store i {| waiting := []; settled := true |} (cycles p)) p'
             | Some _, _ =>
                 keep_waiting
                   (store i {| waiting := rest; settled := false |} (cycles p))
                   p'
             | None, _ =>
                 finish label_error
                   (store i {| waiting := rest; settled := true |} (cycles p))
                   p'
             end)
      else None
  | None => None
  end.

Inductive event :=
  | Click (now : string)
  | Tick (handle : nat) (now : string)
  | VisibilityChange (now : string)
  | BeforeUnload
  | Settle (i : nat) (w : which) (o : outcome)
  | Timeout.

Definition armed (h : nat) (p : page) : bool :=
  existsb (fun t => Nat.eqb (fst t) h) (intervals p).

(** One turn of the event loop; [None] when the browser cannot deliver the
    event in this state. *)
Definition step (p : page) (ev : event) : option page :=
  match ev with
  | Click now =>
      if btn_disabled p then None else Some (refreshAllData now p)
  | Tick h now =>
      if armed h p then Some (refreshAllData now p) else None
  | VisibilityChange now =>
      Some (on_visibilitychange now (set_hidden (negb (hidden p)) p))
  | BeforeUnload => Some (stopAutoRefresh p)
  | Settle i w o => settle i w o p
  | Timeout =>
      match timeouts p with
      | 0 => None
      | S _ => Some (reset_button p)
      end
  end.

Fixpoint run (p : page) (evs : list event) : option page :=
  match evs with
  | [] => Some p
  | ev :: evs' =>
      match step p ev with
      | Some p' => run p' evs'
      | None => None
      end
  end.

(** The events that the page itself has caused: a settled network call or
    an expired timeout. *)
Definition internal (ev : event) : bool :=
  match ev with
  | Settle _ _ _ | Timeout => true
  | _ => false
  end.

End Steps.

(** The elements a sub-fetch reports its own failure in. *)
Definition region (w : which) : list string :=
  match w with
  | Stats => stat_ids
  | Insights => insight_ids
  | Messages => message_ids
  end.

(** The settlements and timeouts a page still waits for: the sub-fetches in
    flight, the invocations that have not set their label yet, and the
    pending resets of the button. *)
Definition owed_one (c : cycle) : nat := if settled c then 0 else 1.

Definition in_flight (p : page) : nat :=
  sum_list_with (fun c => length (waiting c)) (cycles p).

Definition owed (p : page) : nat :=
  sum_list_with owed_one (cycles p) + timeouts p.

Definition pending_work (p : page) : nat := in_flight p + owed p.

(** What the [catch] block of a sub-fetch leaves on the page. *)
Definition error_state (w : which) (d : gmap string content)
    : gmap string content :=
  match w with
  | Stats =>
      <["problemsCount" := TextContent "Error"]>
        (<["questionsCount" := TextContent "Error"]>
           (<["uniqueUsers" := TextContent "Error"]>
              (<["totalMessages" := TextContent "Error"]> d)))
  | Insights =>
      <["trendingInsight" := TextContent "Error loading insights."]>
        (<["questionsInsight" := TextContent "Error loading insights."]>
           (<["problemsInsight" := TextContent "Error loading insights."]> d))
  | Messages => <["recentMessages" := InnerHTML messages_error]> d
  end.

(** *** Invariants of the pages a run reaches *)

(** Every stored invocation still waits for a sub-fetch, and a disabled
    button is owed a reset. *)
Definition button_inv (p : page) : Prop :=
  Forall (fun c => waiting c ≠ []) (cycles p)
  /\ (btn_disabled p = true -> 0 < owed p).

(** At most the timer named by [autoRefreshInterval] is armed, and none
    while the page is hidden. *)
Definition timer_inv (p : page) : Prop :=
  1 <= next_handle p
  /\ (intervals p = []
      \/ (hidden p = false
          /\ exists h, 1 <= h /\ autoRefreshInterval p = Some h
                       /\ intervals p = [(h, 30000%Z)])).

(** The page has its elements, [Promise.all] has rejected nowhere, and the
    button does not show the error label. *)
Definition cycle_inv (p : page) : Prop :=
  has_elements page_ids (elements p)
  /\ Forall (fun c => settled c = false) (cycles p)
  /\ btn_html p ≠ label_error.

(** A stat field of a well-formed response: a count, that is an integer
    that a number holds exactly, or nothing. *)
Definition stat_field (m : gmap string value) (key : string) : option Z :=
  match m !! key with
  | None | Some VNull => Some 0%Z
  | Some (VNum n) => if safe_integer n then Some n else None
  | Some _ => None
  end.

End Dashboard.

(** ** The chat script *)

Module Chat.

Import Js.

(** A child of the chat window: a message of a sender, or the element with
    the id [loading-indicator]. *)
Inductive node :=
  | Bubble (sender html : string)
  | LoadingIndicator.

Inductive effect :=
  | DisableInput
  | Request (message : string).

Record chat := {
  chatWindow : list node;
  userInput_value : string;
  userInput_disabled : bool;
  sendBtn_disabled : bool;
  pending : list string;   (* the text of each suspended handleSend *)
  log : list effect
}.

Definition predefinedQueries : list string :=
  ["What problems are teams facing right now?";
   "What are the most asked questions?";
   "What topics are trending in the chat?";
   "Summarize the current hackathon activity"].

Definition initial : chat :=
  {| chatWindow := []; userInput_value := ""; userInput_disabled := false;
     sendBtn_disabled := false; pending := []; log := [] |}.

(** The element that [addMessage(text, sender)] creates. *)
Definition bubble (text sender : string) : node :=
  Bubble sender
    ("<p><strong>" +:+ (if String.eqb sender "user" then "You" else "AI")
     +:+ ":</strong> " +:+ text +:+ "</p>").

Definition addMessage (text sender : string) (w : list node) : list node :=
  w ++ [bubble text sender].

Definition showLoading (w : list node) : list node :=
  w ++ [LoadingIndicator].

(** [hideLoading]: [getElementById] finds the first such element.  The
    bubbles are taken to hold no element of that id, which is so as long
    as no markup has entered them. *)
Fixpoint hideLoading (w : list node) : list node :=
  match w with
  | [] => []
  | LoadingIndicator :: w' => w'
  | n :: w' => n :: hideLoading w'
  end.

Definition apology : string :=
  "Sorry, I'm having trouble connecting to the AI service right now. Please try again later.".

(** [getAIResponse]: every failure, the [TypeError] of [data.reply] on a
    [null] body included, is caught and answered by the apology. *)
Definition getAIResponse (o : outcome) : value :=
  match o with
  | Response true (Some data) =>
      match prop data "reply" with
      | Some reply => reply
      | None => VStr apology
      end
  | _ => VStr apology
  end.

(** [handleSend] up to [await getAIResponse(text)]. *)
Definition handleSend (c : chat) : chat :=
  let text := Str.trim (userInput_value c) in
  if String.eqb text "" then c
  else
    {| chatWindow := showLoading (addMessage text "user" (chatWindow c));
       userInput_value := "";
       userInput_disabled := true;
       sendBtn_disabled := true;
       pending := pending c ++ [text];
       log := log c ++ [DisableInput; Request text] |}.

(** [handleSend] from the [await] to its end.  [getAIResponse] never
    rejects, so the [catch] block is not entered; [finally] runs. *)
Definition resume (i : nat) (o : outcome) (c : chat) : option chat :=
  match pending c !! i with
  | Some _ =>
      Some {| chatWindow :=
                addMessage (to_string (getAIResponse o)) "bot"
                  (hideLoading (chatWindow c));
              userInput_value := userInput_value c;
              userInput_disabled := false;
              sendBtn_disabled := false;
              pending := delete i (pending c);
              log := log c |}
  | None => None
  end.

Definition set_value (s : string) (c : chat) : chat :=
  {| chatWindow := chatWindow c; userInput_value := s;
     userInput_disabled := userInput_disabled c;
     sendBtn_disabled := sendBtn_disabled c;
     pending := pending c; log := log c |}.

Inductive event :=
  | Type_ (s : string)        (* the user edits the input field *)
  | ClickSend
  | PressEnter
  | ClickQuery (i : nat)      (* a quick-reply button *)
  | Resolve (i : nat) (o : outcome).

(** One turn of the event loop.  A disabled control receives no input
    events; the quick-reply buttons are never disabled. *)
Definition step (c : chat) (ev : event) : option chat :=
  match ev with
  | Type_ s => if userInput_disabled c then None else Some (set_value s c)
  | ClickSend => if sendBtn_disabled c then None else Some (handleSend c)
  | PressEnter => if userInput_disabled c then None else Some (handleSend c)
  | ClickQuery i =>
      match predefinedQueries !! i with
      | Some query => Some (handleSend (set_value query c))
      | None => None
      end
  | Resolve i o => resume i o c
  end.

Fixpoint run (c : chat) (evs : list event) : option chat :=
  match evs with
  | [] => Some c
  | ev :: evs' =>
      match step c ev with
      | Some c' => run c' evs'
      | None => None
      end
  end.

Definition internal (ev : event) : bool :=
  match ev with Resolve _ _ => true | _ => false end.

(** A disabled control waits for a query to resolve. *)
Definition busy_inv (c : chat) : Prop :=
  userInput_disabled c = true \/ sendBtn_disabled c = true ->
  pending c ≠ [].

End Chat.

(** ** Sample pages and responses *)

Module Sample.

Import Js Dashboard.

(** A dashboard page with every element the script addresses, all empty. *)
Definition elements : gmap string content :=
  list_to_map
    (map (fun id => (id, TextContent "")) (page_ids ++ ["trendsCount"])).

Definition clock (ts : value) : string := "12:00:00".

Definition page : page := fresh elements false "" "Refresh".

Definition stats : gmap string value :=
  <["total_messages" := VNum 12]>
    (<["unique_users" := VNum 3]> {["questions_count" := VNull]}).

Definition no_messages_body : gmap string value := {["messages" := VArr []]}.

Definition messages : list (gmap string value) :=
  [<["text" := VStr "is the build broken"]>
     (<["user" := VStr "U123ABCD"]> {["ts" := VStr "1700000000.5"]});
   {["ts" := VNum 1700000001]}].

Definition messages_body : gmap string value :=
  {["messages" := VArr (VObj <$> messages)]}.

Definition spoiled_messages : list value :=
  [VObj ({["text" := VStr "hello"]} : gmap string value); VNull].

Definition spoiled_body : gmap string value :=
  {["messages" := VArr spoiled_messages]}.

(** A message whose text is a number. *)
Definition odd_messages : list value :=
  [VObj ({["text" := VNum 42]} : gmap string value)].

Definition odd_body : gmap string value :=
  {["messages" := VArr odd_messages]}.

Definition plain_insights : gmap string value :=
  {["trending" := VStr "Docker: 3 * 2 teams"]}.

Definition insights : gmap string value :=
  {["problems" := VStr "1. **build** fails 2. no wifi"]}.

Definition blank_input : Chat.chat := Chat.set_value "   " Chat.initial.

End Sample.

(** ** The earlier dashboard script

    The repository holds a second copy of the dashboard script, older than
    [static/js/dashboard.js].  Its [fetchStats], [refreshAllData] and
    scheduler are the ones embedded above; its [fetchInsights] and
    [fetchRecentMessages] write the fields of the response as plain text,
    without markup, counts or highlighting. *)

Module Legacy.

Import Js Dashboard.

(** One panel: [getElementById(id).textContent = insights.key || fallback]. *)
Definition show_panel (id key fallback : string) (insights : value)
    : js unit :=
  let! v := lift (prop insights key) in
  set_text id (to_string (or_else v (VStr fallback))).

Definition show_insights (insights : value) : js unit :=
  show_panel "problemsInsight" "problems" "No problems detected recently."
    insights;;
  show_panel "questionsInsight" "questions" "No questions found recently."
    insights;;
  show_panel "trendingInsight" "trending" "No trending topics identified."
    insights.

Definition fetchInsights (o : outcome) : js unit :=
  try_catch (let! insights := fetch_json o in show_insights insights)
            insights_error.

Section Messages.

Variable toLocaleTimeString : value -> string.

Definition message_html (timestamp user text : string) : string :=
  Str.nl +:+ "          <div class=" +:+ Str.dq +:+ "border-bottom pb-2 mb-2"
  +:+ Str.dq +:+ ">" +:+ Str.nl
  +:+ "            <small class=" +:+ Str.dq +:+ "text-muted" +:+ Str.dq
  +:+ ">[" +:+ timestamp +:+ "] <strong>" +:+ user +:+ ":</strong></small>"
  +:+ Str.nl
  +:+ "            <p class=" +:+ Str.dq +:+ "mb-1" +:+ Str.dq +:+ ">" +:+ text
  +:+ "</p>" +:+ Str.nl
  +:+ "          </div>" +:+ Str.nl
  +:+ "        ".

(** The callback of [messages.map]: the fields go into the template as
    they are. *)
Definition render_message (msg : value) : js string :=
  let! ts := lift (prop msg "ts") in
  let timestamp := toLocaleTimeString ts in
  let! u := lift (prop msg "user") in
  let user := or_else u (VStr "Unknown") in
  let! t := lift (prop msg "text") in
  let text := or_else t (VStr "") in
  ret (message_html timestamp (to_string user) (to_string text)).

Fixpoint render_messages (l : list value) : js (list string) :=
  match l with
  | [] => ret []
  | msg :: l' =>
      let! h := render_message msg in
      let! hs := render_messages l' in
      ret (h :: hs)
  end.

Definition map_messages (messages : value) : js (list string) :=
  match messages with
  | VArr l => render_messages l
  | _ => throw
  end.

Definition show_messages (data : value) : js unit :=
  let! ms := lift (prop data "messages") in
  let messages := or_else ms (VArr []) in
  if length_is_zero messages then set_html "recentMessages" no_messages
  else
    let! htmls := map_messages messages in
    set_html "recentMessages" (String.concat "" htmls).

Definition fetchRecentMessages (o : outcome) : js unit :=
  try_catch (let! data := fetch_json o in show_messages data)
            (set_html "recentMessages" messages_error).

End Messages.

End Legacy.

(** ** Shapes of texts, responses and transcripts

    Predicates and views in which the further properties are stated. *)

Module Shape.

Import Js.

(** The code unit [x] does not occur in the text. *)
Fixpoint lacks (x : ascii) (s : string) : bool :=
  match s with
  | "" => true
  | String c s' => negb (Ascii.eqb c x) && lacks x s'
  end.

(** No two asterisks stand side by side. *)
Fixpoint no_double_asterisk (s : string) : bool :=
  match s with
  | String a ((String b _) as s') =>
      negb (Ascii.eqb a "*" && Ascii.eqb b "*") && no_double_asterisk s'
  | _ => true
  end.

(** Every code unit of the text satisfies [p]. *)
Fixpoint all_of (p : ascii -> bool) (s : string) : bool :=
  match s with
  | "" => true
  | String c s' => p c && all_of p s'
  end.

(** A field of a response that holds a text: the text, or the fallback
    when the field is absent, [null] or the empty string. *)
Definition text_field (m : gmap string value) (key fallback : string)
    : option string :=
  match m !! key with
  | None | Some VNull => Some fallback
  | Some (VStr s) => Some (if String.eqb s "" then fallback else s)
  | Some _ => None
  end.

(** A field that holds something other than a text: the value is truthy,
    so no fallback replaces it, and it is no string. *)
Definition not_text (o : option value) : bool :=
  match o with
  | Some (VStr _) | None => false
  | Some v => truthy v
  end.

(** The insight panels and the three count badges: what [fetchInsights]
    writes to when it succeeds. *)
Definition insight_targets : list string :=
  Dashboard.insight_ids ++ ["problemsCount"; "questionsCount"; "trendsCount"].

(** A computation that leaves the page as it is. *)
Definition writes_nothing {A} (m : js A) : Prop := forall d, (m d).1 = d.

(** An entry of the message list that [dashboard.js] cannot render: it is
    [null], or its text is something other than a text. *)
Definition bad_entry (v : value) : bool :=
  match v with
  | VNull | VUndefined => true
  | VObj m => not_text (m !! "text")
  | _ => false
  end.

(** The text is empty or starts with a code unit below 128, where
    [Str.capitalize] is [charAt(0).toUpperCase()]. *)
Definition ascii_head (s : string) : bool :=
  match s with
  | "" => true
  | String c _ => Str.code c <? 128
  end.

(** The block of a message whose user and text are texts or missing: the
    user falls back to "Unknown", the text to the empty text.  The time
    stamp is a value that [parseFloat] converts to a text without an
    exception, and the text starts with a code unit below 128. *)
Definition entry_html (clock : value -> string) (m : gmap string value)
    : option string :=
  match text_field m "text" "", text_field m "user" "Unknown" with
  | Some text, Some user =>
      if printable (default VUndefined (m !! "ts")) && ascii_head text
      then
        Some (Dashboard.message_html (clock (default VUndefined (m !! "ts")))
                (Str.slice_last4 user) (Formatter.formatText text))
      else None
  | _, _ => None
  end.

(** A field of an entry, [undefined] when the entry has none. *)
Definition field (v : value) (key : string) : value :=
  default VUndefined (prop v key).

(** The block the earlier script renders for an entry that is not [null]:
    whatever the fields hold is printed. *)
Definition legacy_entry_html (clock : value -> string) (v : value) : string :=
  Legacy.message_html (clock (field v "ts"))
    (to_string (or_else (field v "user") (VStr "Unknown")))
    (to_string (or_else (field v "text") (VStr ""))).

Definition is_nullish (v : value) : bool :=
  match v with VNull | VUndefined => true | _ => false end.

(** An entry the earlier script renders: it is not [null], and its three
    fields are values that convert to a text without an exception. *)
Definition legacy_entry (v : value) : bool :=
  negb (is_nullish v) && printable (field v "ts")
  && printable (field v "user") && printable (field v "text").

(** The dots of a text that stand directly behind a digit; [behind] tells
    whether the code unit before the text is a digit. *)
Fixpoint dots_behind (behind : bool) (s : string) : nat :=
  match s with
  | "" => 0
  | String c s' =>
      (if behind && Ascii.eqb c "." then 1 else 0)
      + dots_behind (Str.is_digit c) s'
  end.

Definition dots_after_digit (s : string) : nat := dots_behind false s.

(** The pending indicators of a chat window. *)
Definition indicators (w : list Chat.node) : nat :=
  length (List.filter (fun n => match n with
                                | Chat.LoadingIndicator => true
                                | _ => false
                                end) w).

(** The turns of a chat window, without the pending indicators. *)
Definition turns (w : list Chat.node) : list Chat.node :=
  List.filter (fun n => match n with
                        | Chat.Bubble _ _ => true
                        | _ => false
                        end) w.

(** The timer with handle 1 is armed, and the variable
    [autoRefreshInterval] names a later one. *)
Definition stray_timer (p : Dashboard.page) : Prop :=
  Dashboard.armed 1 p = true
  /\ 2 <= Dashboard.next_handle p
  /\ exists h, 2 <= h /\ Dashboard.autoRefreshInterval p = Some h.

(** Either no query is pending and the input is enabled, or one query is
    pending and the input is disabled. *)
Definition serial (c : Chat.chat) : Prop :=
  (Chat.pending c = [] /\ Chat.userInput_disabled c = false
   /\ Chat.sendBtn_disabled c = false)
  \/ (length (Chat.pending c) = 1 /\ Chat.userInput_disabled c = true
      /\ Chat.sendBtn_disabled c = true).

(** No quick-reply button is clicked. *)
Definition typed (ev : Chat.event) : bool :=
  match ev with Chat.ClickQuery _ => false | _ => true end.

(** An event that brings no markup into the chat window: a typed text and
    an answer hold no opening angle bracket, so [innerHTML] builds no
    element from them, and the answer converts to a text without an
    exception. *)
Definition inert (ev : Chat.event) : bool :=
  match ev with
  | Chat.Type_ s => lacks "<" s
  | Chat.Resolve _ o =>
      printable (Chat.getAIResponse o)
      && lacks "<" (to_string (Chat.getAIResponse o))
  | _ => true
  end.

End Shape.

(** * Properties of the formatter *)

(** The formatter on the examples of the specification. *)
Module FormatterExamples.

Import Formatter.

Example emphasize_pair : emphasize "**x**" = "<strong>x</strong>".
Proof. reflexivity. Qed.

Example emphasize_unmatched : emphasize "**x" = "**x".
Proof. reflexivity. Qed.

Example mask_mention :
  maskMentions "<@U123ABCD>" = span_tag "badge bg-primary" "@User ABCD".
Proof. reflexivity. Qed.

Example count_three : countEnumerations "1. one 2. two 3. three" = 3.
Proof. reflexivity. Qed.

Example count_none : countEnumerations "nothing listed" = 0.
Proof. reflexivity. Qed.

Example highlight_both_kinds :
  highlight "Help, how?"
  = danger "Help" +:+ ", " +:+ info "how" +:+ info "?".
Proof. reflexivity. Qed.

Example format_plain : formatText "hello there" = "Hello there".
Proof. reflexivity. Qed.

End FormatterExamples.

Module StrFacts.

Import Str.

Lemma sapp_nil_r (s : string) : s +:+ "" = s.
Proof. induction s as [|c s IH]; simpl; [reflexivity | now rewrite IH]. Qed.

Lemma sapp_assoc (a b c : string) : (a +:+ b) +:+ c = a +:+ (b +:+ c).
Proof. induction a as [|x a IH]; simpl; [reflexivity | now rewrite IH]. Qed.

Lemma sapp_length (a b : string) :
  String.length (a +:+ b) = String.length a + String.length b.
Proof. induction a as [|x a IH]; simpl; [reflexivity | now rewrite IH]. Qed.

Lemma is_word_upper (c : ascii) : is_word (upper c) = is_word c.
Proof. destruct c as [[] [] [] [] [] [] [] []]; reflexivity. Qed.

Lemma ci_eqb_eq (a b : ascii) : ci_eqb a b = true <-> upper a = upper b.
Proof. unfold ci_eqb. apply Ascii.eqb_eq. Qed.

Lemma ci_eqb_word (a b : ascii) : ci_eqb a b = true -> is_word a = is_word b.
Proof.
  intros H%ci_eqb_eq.
  rewrite <- (is_word_upper a), <- (is_word_upper b). now rewrite H.
Qed.

Lemma question_mark_not_word (c : ascii) :
  is_word c = true -> Ascii.eqb c "?" = false.
Proof. destruct c as [[] [] [] [] [] [] [] []]; vm_compute; congruence. Qed.

End StrFacts.

(** ** One keyword pass, read on the tokens of the text *)

Module PassFacts.

Import Str Regex Formatter Tokens TokenPass StrFacts.

Lemma flat_app (a b : list token) : flat (a ++ b) = flat a +:+ flat b.
Proof.
  induction a as [|t a IH]; simpl; [reflexivity|].
  now rewrite IH, sapp_assoc.
Qed.

Lemma tokenize_flat (s : string) : flat (tokenize s) = s.
Proof.
  induction s as [|c s IH]; simpl; [reflexivity|].
  destruct (is_word c).
  - destruct (tokenize s) as [|[w|d] ts]; simpl in *; now rewrite <- IH.
  - simpl. now rewrite IH.
Qed.

Lemma tokenize_normal (s : string) : normal (tokenize s) = true.
Proof.
  induction s as [|c s IH]; simpl; [reflexivity|].
  destruct (is_word c) eqn:Hc.
  - destruct (tokenize s) as [|[w|d] ts]; simpl in *.
    + now rewrite Hc.
    + rewrite Hc. simpl.
      apply andb_true_iff in IH as [IH ?].
      apply andb_true_iff in IH as [IH ?].
      apply andb_true_iff in IH as [? IH].
      rewrite IH. simpl. now repeat (apply andb_true_iff; split).
    + now rewrite Hc, IH.
  - simpl. now rewrite Hc, IH.
Qed.

Lemma replace_go_cons (m : matcher) prev c s :
  replace_go m 0 prev (String c s) =
  match m prev (String c s) with
  | Some (S n, r) => r +:+ replace_go m n (Some c) s
  | _ => String c (replace_go m 0 (Some c) s)
  end.
Proof. reflexivity. Qed.

Lemma replace_go_skip (m : matcher) a : forall prev s,
  replace_go m (String.length a) prev (a +:+ s) = replace_go m 0 (last a prev) s.
Proof.
  induction a as [|c a IH]; intros prev s; simpl.
  - now destruct s.
  - apply IH.
Qed.

Lemma last_word a : forall prev,
  all_word a = true -> is_word_opt prev = true -> is_word_opt (last a prev) = true.
Proof.
  induction a as [|c a IH]; intros prev Ha Hp; simpl in *; [assumption|].
  apply andb_true_iff in Ha as [Hc Ha]. now apply IH.
Qed.

Lemma ci_equal_word k : forall w,
  ci_equal k w = true -> all_word k = true -> all_word w = true.
Proof.
  induction k as [|x k IH]; intros [|y w] H Hk; simpl in *; try congruence.
  apply andb_true_iff in H as [Hxy H]. apply andb_true_iff in Hk as [Hx Hk].
  rewrite <- (ci_eqb_word _ _ Hxy), Hx. simpl. now apply IH.
Qed.

Lemma ci_equal_longer k : forall w d x,
  ci_equal k w = true -> ci_equal k (w +:+ String d x) = false.
Proof.
  induction k as [|a k IH]; intros [|y w] d x H; simpl in *; try congruence.
  apply andb_true_iff in H as [-> H]. simpl. now apply IH.
Qed.

Lemma ci_equal_join a : forall b w,
  ci_equal a w = true -> ci_equal b w = true -> ci_equal b a = true.
Proof.
  induction a as [|x a IH]; intros [|y b] [|z w] Ha Hb; simpl in *;
    try congruence.
  apply andb_true_iff in Ha as [Hx Ha]. apply andb_true_iff in Hb as [Hy Hb].
  apply andb_true_iff; split; [|now apply (IH b w)].
  apply ci_eqb_eq in Hx, Hy. apply ci_eqb_eq. congruence.
Qed.

Lemma match_ci_sound k : forall s mt rest,
  match_ci k s = Some (mt, rest) -> s = mt +:+ rest /\ ci_equal k mt = true.
Proof.
  induction k as [|x k IH]; intros s mt rest H; simpl in H.
  - injection H as <- <-. now split.
  - destruct s as [|y s]; [discriminate|].
    destruct (ci_eqb x y) eqn:Hxy; [|discriminate].
    destruct (match_ci k s) as [[mt' rest']|] eqn:E; [|discriminate].
    injection H as <- <-. destruct (IH _ _ _ E) as [-> Hk].
    simpl. now rewrite Hxy, Hk.
Qed.

Lemma match_ci_complete k : forall w rest,
  ci_equal k w = true -> match_ci k (w +:+ rest) = Some (w, rest).
Proof.
  induction k as [|x k IH]; intros [|y w] rest H; simpl in *; try congruence.
  apply andb_true_iff in H as [-> H]. now rewrite (IH _ _ H).
Qed.

(** A run of word characters at the head of [w ++ rest'] lies inside [w]
    when [rest'] does not start with a word character. *)
Lemma word_prefix mt : forall w rest rest',
  all_word mt = true -> is_word_opt (head rest') = false ->
  mt +:+ rest = w +:+ rest' ->
  exists w1, w = mt +:+ w1 /\ rest = w1 +:+ rest'.
Proof.
  induction mt as [|x mt IH]; intros w rest rest' Hm Hr E; simpl in *.
  - exists w. now split.
  - apply andb_true_iff in Hm as [Hx Hm]. destruct w as [|y w]; simpl in E.
    + subst rest'. simpl in Hr. congruence.
    + injection E as <- E. destruct (IH _ _ _ Hm Hr E) as (w1 & -> & ->).
      now exists w1.
Qed.

Section OnePass.

Variables (keyword o c : string).
Hypothesis keyword_word : all_word keyword = true.
Hypothesis keyword_nonempty : nonempty keyword = true.

Let wrap : string -> string := fun w => o +:+ w +:+ c.
Let m : matcher := word_matcher keyword wrap.
Let pass_text : token -> string := TokenPass.pass_text keyword o c.

Lemma matcher_inside prev x s :
  is_word_opt prev = true -> is_word x = true -> m prev (String x s) = None.
Proof.
  intros Hp Hx. unfold m, word_matcher, boundary. simpl. now rewrite Hp, Hx.
Qed.

Lemma matcher_sep prev x s : is_word x = false -> m prev (String x s) = None.
Proof.
  intros Hx. unfold m, word_matcher.
  destruct keyword as [|k kw'] eqn:Ek; [discriminate|].
  simpl in keyword_word. apply andb_true_iff in keyword_word as [Hk _].
  simpl. destruct (ci_eqb k x) eqn:E.
  - apply ci_eqb_word in E. congruence.
  - now destruct (boundary prev (Some x)).
Qed.

Lemma matcher_at_word prev w rest' :
  nonempty w = true -> all_word w = true ->
  is_word_opt prev = false -> is_word_opt (head rest') = false ->
  m prev (w +:+ rest') =
  if ci_equal keyword w then Some (String.length w, wrap w) else None.
Proof.
  intros Hne Hw Hp Hr. unfold m, word_matcher.
  assert (Hb : boundary prev (head (w +:+ rest')) = true).
  { destruct w as [|x w0]; [discriminate|]. simpl in *.
    apply andb_true_iff in Hw as [Hx _]. unfold boundary. simpl.
    now rewrite Hp, Hx. }
  rewrite Hb.
  destruct (match_ci keyword (w +:+ rest')) as [[mt rest]|] eqn:E.
  - apply match_ci_sound in E as [E Hk].
    pose proof (ci_equal_word _ _ Hk keyword_word) as Hmt.
    destruct (word_prefix mt w rest rest' Hmt Hr (eq_sym E)) as (w1 & -> & ->).
    destruct w1 as [|d w1].
    + rewrite sapp_nil_r in *. rewrite Hk. simpl.
      unfold boundary. rewrite Hr.
      destruct mt as [|x mt0]; [discriminate|]. simpl in Hmt |- *.
      apply andb_true_iff in Hmt as [Hx Hmt].
      now rewrite (last_word mt0 (Some x) Hmt Hx).
    + rewrite (ci_equal_longer _ _ d w1 Hk). unfold boundary. simpl.
      assert (Hd : is_word d = true).
      { clear -Hw. induction mt as [|y mt IH]; simpl in Hw.
        - now apply andb_true_iff in Hw as [? _].
        - apply andb_true_iff in Hw as [_ Hw]. now apply IH. }
      rewrite Hd.
      assert (Hl : is_word_opt (last mt prev) = true).
      { destruct mt as [|x mt0].
        - destruct keyword; simpl in Hk; discriminate.
        - simpl in Hmt |- *. apply andb_true_iff in Hmt as [Hx Hmt].
          now apply last_word. }
      now rewrite Hl.
  - destruct (ci_equal keyword w) eqn:Hk; [|reflexivity].
    rewrite (match_ci_complete _ _ rest' Hk) in E. discriminate.
Qed.

Lemma copy_word a : forall prev s,
  all_word a = true -> is_word_opt prev = true ->
  replace_go m 0 prev (a +:+ s) = a +:+ replace_go m 0 (last a prev) s.
Proof.
  induction a as [|x a IH]; intros prev s Ha Hp; simpl in Ha.
  - reflexivity.
  - apply andb_true_iff in Ha as [Hx Ha].
    change (String x a +:+ s) with (String x (a +:+ s)).
    rewrite replace_go_cons, (matcher_inside _ _ _ Hp Hx).
    change (String x a +:+ replace_go m 0 (last (String x a) prev) s)
      with (String x (a +:+ replace_go m 0 (last a (Some x)) s)).
    f_equal. now apply IH.
Qed.

Lemma head_flat ts :
  normal ts = true -> starts_with_word ts = false ->
  is_word_opt (head (flat ts)) = false.
Proof.
  destruct ts as [|[w|x] ts]; simpl; intros Hn Hs; try congruence.
  apply andb_true_iff in Hn as [Hx _]. now apply negb_true_iff in Hx.
Qed.

Lemma replace_tokens ts : forall prev,
  normal ts = true ->
  (starts_with_word ts = true -> is_word_opt prev = false) ->
  replace_go m 0 prev (flat ts) = concat (map pass_text ts).
Proof.
  induction ts as [|[w|x] ts IH]; intros prev Hn Hp; simpl in Hn.
  - reflexivity.
  - apply andb_true_iff in Hn as [Hn Hts].
    apply andb_true_iff in Hn as [Hn Hs].
    apply andb_true_iff in Hn as [Hne Hw].
    apply negb_true_iff in Hs.
    pose proof (head_flat ts Hts Hs) as Hr.
    specialize (Hp eq_refl).
    pose proof (matcher_at_word prev w (flat ts) Hne Hw Hp Hr) as Hm.
    destruct w as [|x w0]; [discriminate|].
    simpl in Hw. apply andb_true_iff in Hw as [Hx Hw0].
    change (flat (Word (String x w0) :: ts))
      with (String x (w0 +:+ flat ts)).
    change (String x w0 +:+ flat ts) with (String x (w0 +:+ flat ts)) in Hm.
    change (concat (map pass_text (Word (String x w0) :: ts)))
      with (pass_text (Word (String x w0)) +:+ concat (map pass_text ts)).
    change (pass_text (Word (String x w0)))
      with (if ci_equal keyword (String x w0)
            then wrap (String x w0) else String x w0).
    rewrite replace_go_cons, Hm.
    destruct (ci_equal keyword (String x w0)).
    + change (String.length (String x w0)) with (S (String.length w0)).
      cbv beta iota. rewrite replace_go_skip. f_equal.
      apply IH; [assumption | congruence].
    + rewrite copy_word by assumption.
      change (String x w0 +:+ concat (map pass_text ts))
        with (String x (w0 +:+ concat (map pass_text ts))).
      f_equal. f_equal.
      apply IH; [assumption | congruence].
  - apply andb_true_iff in Hn as [Hx Hts]. apply negb_true_iff in Hx.
    change (flat (Sep x :: ts)) with (String x (flat ts)).
    change (concat (map pass_text (Sep x :: ts)))
      with (String x (concat (map pass_text ts))).
    rewrite replace_go_cons, matcher_sep by assumption.
    f_equal. apply IH; [assumption | now simpl; rewrite Hx].
Qed.

End OnePass.

(** *** The pass as a map on token lists *)

Lemma starts_app a b :
  starts_with_word a = false -> starts_with_word b = false ->
  starts_with_word (a ++ b) = false.
Proof. destruct a as [|[w|x] a]; simpl; congruence. Qed.

Lemma normal_app_l a : forall b,
  normal a = true -> normal b = true -> starts_with_word b = false ->
  normal (a ++ b) = true.
Proof.
  induction a as [|[w|x] a IH]; intros b Ha Hb Hs; simpl in *.
  - assumption.
  - apply andb_true_iff in Ha as [Ha Hn]. apply andb_true_iff in Ha as [Ha Hw].
    rewrite Ha, (IH b Hn Hb Hs). apply negb_true_iff in Hw.
    now rewrite (starts_app a b Hw Hs).
  - apply andb_true_iff in Ha as [-> Hn]. now rewrite IH.
Qed.

Lemma normal_app_sep a : forall b,
  normal a = true -> ends_sep a = true -> normal b = true ->
  normal (a ++ b) = true.
Proof.
  induction a as [|[w|x] a IH]; intros b Ha He Hb; simpl in Ha, He.
  - discriminate.
  - destruct a as [|t a]; [discriminate|].
    apply andb_true_iff in Ha as [Ha Hn]. apply andb_true_iff in Ha as [Ha Hw].
    change ((Word w :: t :: a) ++ b) with (Word w :: (t :: a) ++ b).
    change (normal (Word w :: (t :: a) ++ b))
      with (nonempty w && all_word w
            && negb (starts_with_word ((t :: a) ++ b)) && normal ((t :: a) ++ b)).
    rewrite Ha, (IH b Hn He Hb). simpl. simpl in Hw. now rewrite Hw.
  - apply andb_true_iff in Ha as [Hx Hn].
    destruct a as [|t a].
    + simpl. now rewrite Hx, Hb.
    + change ((Sep x :: t :: a) ++ b) with (Sep x :: (t :: a) ++ b).
      change (normal (Sep x :: (t :: a) ++ b))
        with (negb (is_word x) && normal ((t :: a) ++ b)).
      now rewrite Hx, (IH b Hn He Hb).
Qed.

Lemma flat_wrap_tokens o c w : flat (wrap_tokens o c w) = o +:+ w +:+ c.
Proof.
  unfold wrap_tokens. rewrite flat_app. simpl. now rewrite !tokenize_flat.
Qed.

Lemma flat_pass_tokens k o c ts :
  flat (pass_tokens k o c ts) = concat (map (pass_text k o c) ts).
Proof.
  induction ts as [|[w|x] ts IH]; simpl; [reflexivity| |].
  - rewrite flat_app, IH. f_equal.
    destruct (ci_equal k w); [apply flat_wrap_tokens|].
    simpl. apply sapp_nil_r.
  - now rewrite IH.
Qed.

Lemma starts_pass_tokens k o c ts :
  starts_with_word ts = false -> starts_with_word (pass_tokens k o c ts) = false.
Proof. destruct ts as [|[w|x] ts]; simpl; congruence. Qed.

Lemma normal_pass_tokens k o c ts :
  markup_ok o c = true -> normal ts = true ->
  normal (pass_tokens k o c ts) = true.
Proof.
  intros Hm. apply andb_true_iff in Hm as [Ho Hc]. apply negb_true_iff in Hc.
  induction ts as [|[w|x] ts IH]; intros Hn; simpl in Hn.
  - reflexivity.
  - apply andb_true_iff in Hn as [Hn Hts]. apply andb_true_iff in Hn as [Hn Hs].
    apply negb_true_iff in Hs. specialize (IH Hts).
    pose proof (starts_pass_tokens k o c ts Hs) as Hs'.
    change (pass_tokens k o c (Word w :: ts))
      with (pass_token k o c (Word w) ++ pass_tokens k o c ts).
    unfold pass_token. destruct (ci_equal k w).
    + unfold wrap_tokens. rewrite <- List.app_assoc.
      apply normal_app_sep; [apply tokenize_normal | assumption |].
      change ((Word w :: tokenize c) ++ pass_tokens k o c ts)
        with (Word w :: (tokenize c ++ pass_tokens k o c ts)).
      change (normal (Word w :: (tokenize c ++ pass_tokens k o c ts)))
        with (nonempty w && all_word w
              && negb (starts_with_word (tokenize c ++ pass_tokens k o c ts))
              && normal (tokenize c ++ pass_tokens k o c ts)).
      rewrite Hn, (starts_app _ _ Hc Hs'). simpl.
      apply normal_app_l; [apply tokenize_normal | assumption | assumption].
    + simpl. now rewrite Hn, Hs', IH.
  - apply andb_true_iff in Hn as [Hx Hts]. simpl. now rewrite Hx, IH.
Qed.

Lemma keyword_pass_tokens k o c ts :
  keyword_ok k = true -> normal ts = true ->
  replace_all (word_matcher k (fun w => o +:+ w +:+ c)) (flat ts)
  = flat (pass_tokens k o c ts).
Proof.
  intros Hk Hn. apply andb_true_iff in Hk as [Hne Hw].
  rewrite flat_pass_tokens. unfold replace_all.
  apply replace_tokens; [assumption | assumption | assumption | reflexivity].
Qed.

Lemma highlightKeywords_tokens ks o c :
  forallb keyword_ok ks = true -> markup_ok o c = true ->
  forall ts, normal ts = true ->
  highlightKeywords ks (fun w => o +:+ w +:+ c) (flat ts)
  = flat (fold_tokens ks o c ts)
  /\ normal (fold_tokens ks o c ts) = true.
Proof.
  intros Hks Hm. induction ks as [|k ks IH]; intros ts Hn; simpl in Hks |- *.
  - now split.
  - apply andb_true_iff in Hks as [Hk Hks].
    rewrite (keyword_pass_tokens k o c ts Hk Hn).
    apply (IH Hks). now apply normal_pass_tokens.
Qed.

(** *** All passes of one keyword list, token by token *)

Lemma hits_app ks a b : hits ks (a ++ b) = hits ks a || hits ks b.
Proof. apply existsb_app. Qed.

Lemma hits_cons k ks ts : hits (k :: ks) ts = hits [k] ts || hits ks ts.
Proof.
  induction ts as [|[v|x] ts IH]; simpl in *; [reflexivity| |assumption].
  rewrite IH.
  now destruct (ci_equal k v), (is_keyword ks v), (hits [k] ts), (hits ks ts).
Qed.

Lemma pass_tokens_app k o c a b :
  pass_tokens k o c (a ++ b) = pass_tokens k o c a ++ pass_tokens k o c b.
Proof. apply flat_map_app. Qed.

Lemma fold_tokens_app ks o c : forall a b,
  fold_tokens ks o c (a ++ b) = fold_tokens ks o c a ++ fold_tokens ks o c b.
Proof.
  induction ks as [|k ks IH]; intros a b; simpl; [reflexivity|].
  now rewrite pass_tokens_app, IH.
Qed.

Lemma pass_inert k o c ts : hits [k] ts = false -> pass_tokens k o c ts = ts.
Proof.
  induction ts as [|[v|x] ts IH]; simpl; intros H; [reflexivity| |].
  - apply orb_false_iff in H as [Hv H]. rewrite orb_false_r in Hv.
    rewrite Hv. simpl. f_equal. now apply IH.
  - f_equal. now apply IH.
Qed.

Lemma fold_inert ks o c : forall ts,
  hits ks ts = false -> fold_tokens ks o c ts = ts.
Proof.
  induction ks as [|k ks IH]; intros ts H; simpl; [reflexivity|].
  rewrite hits_cons in H. apply orb_false_iff in H as [Hk H].
  rewrite (pass_inert _ _ _ _ Hk). now apply IH.
Qed.

Lemma is_keyword_join ks k w :
  ci_equal k w = true -> is_keyword ks w = true -> is_keyword ks k = true.
Proof.
  intros Hk. unfold is_keyword. rewrite !existsb_exists.
  intros (k' & Hin & Hk'). exists k'. split; [assumption|].
  exact (ci_equal_join _ _ _ Hk Hk').
Qed.

Lemma fold_word ks o c w :
  distinct ks = true -> hits ks (tokenize o ++ tokenize c) = false ->
  fold_tokens ks o c [Word w] =
  if is_keyword ks w then wrap_tokens o c w else [Word w].
Proof.
  induction ks as [|k ks IH]; intros Hd Hm; [reflexivity|].
  simpl in Hd. apply andb_true_iff in Hd as [Hk Hd]. apply negb_true_iff in Hk.
  rewrite hits_cons in Hm. apply orb_false_iff in Hm as [_ Hm].
  change (fold_tokens (k :: ks) o c [Word w])
    with (fold_tokens ks o c (pass_token k o c (Word w) ++ [])).
  rewrite List.app_nil_r. simpl is_keyword. unfold pass_token.
  destruct (ci_equal k w) eqn:E; simpl.
  - apply fold_inert. unfold wrap_tokens.
    rewrite hits_app in Hm |- *. apply orb_false_iff in Hm as [Ho Hc].
    rewrite Ho. simpl. rewrite Hc, orb_false_r.
    destruct (is_keyword ks w) eqn:Hw; [|reflexivity].
    rewrite (is_keyword_join ks k w E Hw) in Hk. discriminate.
  - now apply IH.
Qed.

Section TwoLists.

Variables (ks1 ks2 : list string) (o1 c1 o2 c2 : string).
Hypothesis distinct1 : distinct ks1 = true.
Hypothesis distinct2 : distinct ks2 = true.
Hypothesis markup1 : hits ks1 (tokenize o1 ++ tokenize c1) = false.
Hypothesis markup2 : hits ks2 (tokenize o2 ++ tokenize c2) = false.
Hypothesis markup12 : hits ks2 (tokenize o1 ++ tokenize c1) = false.
Hypothesis apart : forallb (fun k => negb (is_keyword ks2 k)) ks1 = true.

Let both : list token -> list token :=
  TokenPass.both ks1 ks2 o1 c1 o2 c2.

Lemma both_cons t ts : both (t :: ts) = both [t] ++ both ts.
Proof.
  unfold both, TokenPass.both. change (t :: ts) with ([t] ++ ts).
  now rewrite !fold_tokens_app.
Qed.

Lemma both_sep x : both [Sep x] = [Sep x].
Proof.
  unfold both, TokenPass.both. rewrite (fold_inert ks1) by reflexivity.
  now rewrite fold_inert by reflexivity.
Qed.

Lemma apart_word w :
  is_keyword ks1 w = true -> is_keyword ks2 w = false.
Proof.
  unfold is_keyword at 1. rewrite existsb_exists. intros (k & Hin & Hk).
  destruct (is_keyword ks2 w) eqn:E; [|reflexivity].
  pose proof (is_keyword_join ks2 k w Hk E) as Hk2.
  rewrite forallb_forall in apart. specialize (apart k Hin).
  rewrite Hk2 in apart. discriminate.
Qed.

Lemma both_word w :
  both [Word w] =
  if is_keyword ks1 w then wrap_tokens o1 c1 w
  else if is_keyword ks2 w then wrap_tokens o2 c2 w
  else [Word w].
Proof.
  unfold both, TokenPass.both. rewrite (fold_word ks1 o1 c1 w distinct1 markup1).
  destruct (is_keyword ks1 w) eqn:E1.
  - apply fold_inert. unfold wrap_tokens.
    rewrite hits_app in markup12 |- *.
    apply orb_false_iff in markup12 as [Ho Hc].
    rewrite Ho. simpl. now rewrite Hc, (apart_word w E1).
  - now apply fold_word.
Qed.

End TwoLists.

(** *** The question-mark pass, character by character *)

Lemma literal_pass_qmark r s : forall prev,
  replace_go (literal_matcher "?" r) 0 prev s = qmark r s.
Proof.
  induction s as [|x s IH]; intros prev; [reflexivity|].
  rewrite replace_go_cons. unfold literal_matcher.
  change (match_lit "?" (String x s))
    with (if Ascii.eqb "?" x then Some s else None).
  rewrite Ascii.eqb_sym. simpl qmark.
  destruct (Ascii.eqb x "?"); cbv beta iota; simpl String.length;
    cbv beta iota; now rewrite IH.
Qed.

Lemma qmark_app r a b : qmark r (a +:+ b) = qmark r a +:+ qmark r b.
Proof.
  induction a as [|x a IH]; simpl; [reflexivity|].
  now rewrite IH, sapp_assoc.
Qed.

Lemma qmark_word r w : all_word w = true -> qmark r w = w.
Proof.
  induction w as [|x w IH]; simpl; intros H; [reflexivity|].
  apply andb_true_iff in H as [Hx H].
  now rewrite (question_mark_not_word x Hx), IH.
Qed.

(** *** The three passes of [dashboard.js] *)

Lemma passes_word w :
  passes [Word w] =
  if is_keyword problemKeywords w then wrap_tokens danger_open span_close w
  else if is_keyword questionKeywords w then wrap_tokens info_open span_close w
  else [Word w].
Proof. apply both_word; reflexivity. Qed.

Lemma qmark_wrap o w :
  all_word w = true -> qmark (info "?") o = o ->
  qmark (info "?") (flat (wrap_tokens o span_close w)) = o +:+ w +:+ span_close.
Proof.
  intros Hw Ho. rewrite flat_wrap_tokens, !qmark_app, Ho.
  now rewrite (qmark_word _ w Hw).
Qed.

Lemma passes_render ts :
  normal ts = true ->
  qmark (info "?") (flat (passes ts)) = concat (map render_token ts).
Proof.
  induction ts as [|t ts IH]; intros Hn; [reflexivity|].
  unfold passes in *. rewrite both_cons, flat_app, qmark_app.
  change (concat (map render_token (t :: ts)))
    with (render_token t +:+ concat (map render_token ts)).
  destruct t as [w|x]; simpl in Hn.
  - apply andb_true_iff in Hn as [Hn Hts]. apply andb_true_iff in Hn as [Hn _].
    apply andb_true_iff in Hn as [_ Hw].
    rewrite (IH Hts). f_equal.
    fold (passes [Word w]). rewrite passes_word. unfold render_token.
    destruct (is_keyword problemKeywords w);
      [now apply qmark_wrap|].
    destruct (is_keyword questionKeywords w);
      [now apply qmark_wrap|].
    simpl. rewrite sapp_nil_r. now apply qmark_word.
  - apply andb_true_iff in Hn as [_ Hts]. rewrite (IH Hts). f_equal.
    rewrite both_sep. simpl. apply sapp_nil_r.
Qed.

End PassFacts.


(** * Properties of the dashboard *)

Module JsFacts.

Import Js.

Lemma keeps_ret {A} (a : A) : keeps (ret a).
Proof. intros d. reflexivity. Qed.

Lemma keeps_throw {A} : keeps (@throw A).
Proof. intros d. reflexivity. Qed.

Lemma keeps_lift {A} (o : option A) : keeps (lift o).
Proof. destruct o; [apply keeps_ret | apply keeps_throw]. Qed.

Lemma keeps_bind {A B} (m : js A) (k : A -> js B) :
  keeps m -> (forall a, keeps (k a)) -> keeps (bind m k).
Proof.
  intros Hm Hk d. unfold bind. specialize (Hm d).
  destruct (m d) as [d' [a|]]; simpl in *; [|assumption].
  now rewrite Hk.
Qed.

Lemma keeps_try_catch {A} (body handler : js A) :
  keeps body -> keeps handler -> keeps (try_catch body handler).
Proof.
  intros Hb Hh d. unfold try_catch. specialize (Hb d).
  destruct (body d) as [d' [a|]]; simpl in *; [assumption|].
  now rewrite Hh.
Qed.

Lemma keeps_set_text id s : keeps (set_text id s).
Proof.
  intros d. unfold set_text. destruct (d !! id) eqn:E; [|reflexivity].
  simpl. apply dom_insert_lookup_L. now rewrite E.
Qed.

Lemma keeps_set_html id s : keeps (set_html id s).
Proof.
  intros d. unfold set_html. destruct (d !! id) eqn:E; [|reflexivity].
  simpl. apply dom_insert_lookup_L. now rewrite E.
Qed.

Lemma keeps_fetch_json o : keeps (fetch_json o).
Proof.
  destruct o as [|[] [v|]]; simpl; auto using keeps_ret, keeps_throw.
Qed.

Lemma keeps_if {A} (b : bool) (m1 m2 : js A) :
  keeps m1 -> keeps m2 -> keeps (if b then m1 else m2).
Proof. now destruct b. Qed.

Lemma set_text_present id s d :
  is_Some (d !! id) -> set_text id s d = (<[id := TextContent s]> d, Some tt).
Proof. intros [x E]. unfold set_text. now rewrite E. Qed.

Lemma set_html_present id s d :
  is_Some (d !! id) -> set_html id s d = (<[id := InnerHTML s]> d, Some tt).
Proof. intros [x E]. unfold set_html. now rewrite E. Qed.

Lemma then_set_text id s (k : js unit) d :
  is_Some (d !! id) ->
  (set_text id s;; k) d = k (<[id := TextContent s]> d).
Proof. intros H. unfold bind. now rewrite set_text_present. Qed.

Lemma then_set_html id s (k : js unit) d :
  is_Some (d !! id) ->
  (set_html id s;; k) d = k (<[id := InnerHTML s]> d).
Proof. intros H. unfold bind. now rewrite set_html_present. Qed.

Lemma present_dom (d d' : gmap string content) id :
  dom d' = dom d -> is_Some (d !! id) -> is_Some (d' !! id).
Proof. intros E H. apply elem_of_dom. rewrite E. now apply elem_of_dom. Qed.

End JsFacts.

Create HintDb keeps.

#[export] Hint Resolve JsFacts.keeps_ret JsFacts.keeps_throw JsFacts.keeps_lift
  JsFacts.keeps_set_text JsFacts.keeps_set_html JsFacts.keeps_fetch_json
  : keeps.

Module DashboardFacts.

Import Js JsFacts Dashboard.

(** Solves [keeps] of a computation built from the combinators. *)
Ltac keeps :=
  repeat first
    [ progress auto with keeps
    | apply keeps_bind; [|intros ?]
    | apply keeps_try_catch
    | apply keeps_if
    | match goal with
      | |- keeps (match ?v with _ => _ end) => destruct v
      | |- keeps (let _ := _ in _) => cbv zeta
      end ].

(** Solves [is_Some (d' !! id)] for [d'] built by insertions into a map in
    which [id] is present. *)
Ltac present :=
  repeat (apply lookup_insert_is_Some'; right); assumption.

Lemma has_elements_dom ids (d d' : gmap string content) :
  dom d' = dom d -> has_elements ids d -> has_elements ids d'.
Proof.
  intros E H. unfold has_elements in *.
  eapply Forall_impl; [exact H|]. intros id. now apply present_dom.
Qed.

Lemma has_elements_app ids1 ids2 d :
  has_elements (ids1 ++ ids2) d <-> has_elements ids1 d /\ has_elements ids2 d.
Proof. apply Forall_app. Qed.

Lemma keeps_show_stats v : keeps (show_stats v).
Proof. unfold show_stats, show_stat. keeps. Qed.

Lemma keeps_stats_error : keeps stats_error.
Proof. unfold stats_error. keeps. Qed.

#[local] Hint Resolve keeps_show_stats keeps_stats_error : keeps.

Lemma keeps_fetchStats o : keeps (fetchStats o).
Proof. unfold fetchStats. keeps. Qed.

Lemma keeps_emphasize_value v : keeps (emphasize_value v).
Proof. unfold emphasize_value. keeps. Qed.

#[local] Hint Resolve keeps_emphasize_value : keeps.

Lemma keeps_show_insights v : keeps (show_insights v).
Proof. unfold show_insights. keeps. Qed.

Lemma keeps_insights_error : keeps insights_error.
Proof. unfold insights_error. keeps. Qed.

#[local] Hint Resolve keeps_show_insights keeps_insights_error : keeps.

Lemma keeps_fetchInsights o : keeps (fetchInsights o).
Proof. unfold fetchInsights. keeps. Qed.

(** Splits [has_elements] of a literal list into its members. *)
Ltac elements :=
  unfold has_elements, page_ids, stat_ids, insight_ids, message_ids in *;
  simpl app in *;
  repeat match goal with
         | H : Forall _ (_ :: _) |- _ => apply Forall_cons in H as [? H]
         end.

Lemma stats_error_present d :
  has_elements stat_ids d -> stats_error d = (error_state Stats d, Some tt).
Proof.
  intros H. elements. unfold stats_error.
  rewrite !then_set_text by present. now rewrite set_text_present by present.
Qed.

Lemma insights_error_present d :
  has_elements insight_ids d ->
  insights_error d = (error_state Insights d, Some tt).
Proof.
  intros H. elements. unfold insights_error.
  rewrite !then_set_text by present. now rewrite set_text_present by present.
Qed.

Lemma messages_error_present d :
  has_elements message_ids d ->
  set_html "recentMessages" messages_error d
  = (error_state Messages d, Some tt).
Proof. intros H. elements. now rewrite set_html_present by present. Qed.

Lemma fetchStats_success d m :
  has_elements stat_ids d ->
  let shown key :=
    to_string (or_else (default VUndefined (m !! key)) (VNum 0)) in
  fetchStats (Response true (Some (VObj m))) d
  = (<["problemsCount" := TextContent (shown "problems_count")]>
       (<["questionsCount" := TextContent (shown "questions_count")]>
          (<["uniqueUsers" := TextContent (shown "unique_users")]>
             (<["totalMessages" := TextContent (shown "total_messages")]> d))),
     Some tt).
Proof.
  intros H shown. elements.
  unfold fetchStats, try_catch, show_stats, show_stat. simpl fetch_json.
  unfold bind at 1. unfold ret at 1.
  unfold bind at 2. simpl prop. unfold lift at 1, ret at 1.
  rewrite then_set_text by present.
  unfold bind at 2. unfold lift at 1, ret at 1.
  rewrite then_set_text by present.
  unfold bind at 2. unfold lift at 1, ret at 1.
  rewrite then_set_text by present.
  unfold bind at 1. unfold lift at 1, ret at 1.
  now rewrite set_text_present by present.
Qed.

Lemma try_catch_failed {A} (k : value -> js A) (handler : js A) o d :
  failed o = true ->
  try_catch (let! v := fetch_json o in k v) handler d = handler d.
Proof. now destruct o as [|[] [v|]]. Qed.

Lemma try_catch_fulfils ids (body handler : js unit) d :
  keeps body ->
  (forall d', has_elements ids d' -> (handler d').2 = Some tt) ->
  has_elements ids d -> (try_catch body handler d).2 = Some tt.
Proof.
  intros Hb Hh Hd. unfold try_catch. specialize (Hb d).
  destruct (body d) as [d' [[]|]]; simpl in *; [reflexivity|].
  apply Hh. now apply (has_elements_dom ids d).
Qed.


Section Clock.

Variable clock : value -> string.

Lemma keeps_render_message msg : keeps (render_message clock msg).
Proof. unfold render_message, format_value, user_suffix. keeps. Qed.

Lemma keeps_render_messages l : keeps (render_messages clock l).
Proof.
  induction l as [|msg l IH]; simpl; [keeps|].
  apply keeps_bind; [apply keeps_render_message|intros h].
  apply keeps_bind; [exact IH|intros hs]. keeps.
Qed.

Lemma keeps_show_messages v : keeps (show_messages clock v).
Proof.
  unfold show_messages, map_messages.
  pose proof keeps_render_messages. keeps.
Qed.

Lemma keeps_fetchRecentMessages o : keeps (fetchRecentMessages clock o).
Proof.
  unfold fetchRecentMessages. pose proof keeps_show_messages. keeps.
Qed.

Lemma keeps_sub_fetch w o : keeps (sub_fetch clock w o).
Proof.
  destruct w; simpl;
    auto using keeps_fetchStats, keeps_fetchInsights, keeps_fetchRecentMessages.
Qed.


Lemma has_region w d : has_elements page_ids d -> has_elements (region w) d.
Proof.
  unfold page_ids. rewrite !has_elements_app. intros (? & ? & ?).
  now destruct w.
Qed.

Lemma sub_fetch_fulfils w o d :
  has_elements page_ids d -> (sub_fetch clock w o d).2 = Some tt.
Proof.
  intros Hd. apply (has_region w) in Hd. destruct w; simpl in *.
  - apply (try_catch_fulfils stat_ids); [keeps | | assumption].
    intros d' H. now rewrite stats_error_present.
  - apply (try_catch_fulfils insight_ids); [keeps | | assumption].
    intros d' H. now rewrite insights_error_present.
  - apply (try_catch_fulfils message_ids);
      [pose proof keeps_show_messages; keeps | | assumption].
    intros d' H. now rewrite messages_error_present.
Qed.

(** *** One settlement *)

Lemma still_waiting_shorter w c :
  is_waiting w c = true -> length (still_waiting w c) < length (waiting c).
Proof.
  unfold is_waiting, still_waiting. induction (waiting c) as [|x l IH]; simpl.
  - discriminate.
  - destruct (which_eqb w x); simpl.
    + intros _. pose proof (List.filter_length_le
        (fun y => negb (which_eqb w y)) l). lia.
    + intros H. specialize (IH H). lia.
Qed.

Lemma sum_store (f : cycle -> nat) i c c' cs :
  cs !! i = Some c ->
  sum_list_with f (store i c' cs) + f c
  = sum_list_with f cs + match waiting c' with [] => 0 | _ => f c' end.
Proof.
  intros Hi. pose proof (take_drop_middle cs i c Hi) as E.
  rewrite <- E at 2. rewrite sum_list_with_app. simpl.
  unfold store. destruct (waiting c').
  - rewrite delete_take_drop, sum_list_with_app. lia.
  - rewrite insert_take_drop by (eapply lookup_lt_Some; eassumption).
    rewrite sum_list_with_app. simpl. lia.
Qed.

Lemma Forall_store (P : cycle -> Prop) i c' cs :
  Forall P cs -> (waiting c' ≠ [] -> P c') -> Forall P (store i c' cs).
Proof.
  intros H Hc. unfold store. destruct (waiting c') eqn:E.
  - now apply Forall_delete.
  - apply Forall_insert; [assumption|]. apply Hc. congruence.
Qed.

(** What a settlement changes, in its four cases: the invocation had been
    rejected before, this was the last fulfilment, a fulfilment with others
    outstanding, or the first rejection. *)
Lemma settle_cases i w o p p' :
  settle clock i w o p = Some p' ->
  exists c c',
    cycles p !! i = Some c /\ is_waiting w c = true
    /\ waiting c' = still_waiting w c
    /\ cycles p' = store i c' (cycles p)
    /\ elements p' = (sub_fetch clock w o (elements p)).1
    /\ btn_disabled p' = btn_disabled p
    /\ hidden p' = hidden p
    /\ intervals p' = intervals p
    /\ autoRefreshInterval p' = autoRefreshInterval p
    /\ next_handle p' = next_handle p
    /\ log p' = log p
    /\ ((settled c = true /\ settled c' = true
         /\ timeouts p' = timeouts p /\ btn_html p' = btn_html p)
        \/ (settled c = false /\ (sub_fetch clock w o (elements p)).2 = Some tt
            /\ waiting c' = []
            /\ timeouts p' = S (timeouts p) /\ btn_html p' = label_refreshed)
        \/ (settled c = false /\ (sub_fetch clock w o (elements p)).2 = Some tt
            /\ waiting c' ≠ [] /\ settled c' = false
            /\ timeouts p' = timeouts p /\ btn_html p' = btn_html p)
        \/ (settled c = false /\ (sub_fetch clock w o (elements p)).2 = None
            /\ settled c' = true
            /\ timeouts p' = S (timeouts p) /\ btn_html p' = label_error)).
Proof.
  unfold settle. destruct (cycles p !! i) as [c|] eqn:Hi; [|discriminate].
  destruct (is_waiting w c) eqn:Hw; [|discriminate].
  destruct (sub_fetch clock w o (elements p)) as [d r] eqn:Hs.
  intros H. injection H as <-. exists c.
  destruct (settled c) eqn:Hc.
  - exists {| waiting := still_waiting w c; settled := true |}.
    simpl. repeat split; auto.
  - destruct r as [[]|].
    + destruct (still_waiting w c) as [|x rest] eqn:Hr.
      * exists {| waiting := []; settled := true |}.
        simpl. repeat split; auto. right. left. repeat split; auto.
      * exists {| waiting := x :: rest; settled := false |}.
        simpl. repeat split; auto. right. right. left. repeat split; auto.
    + exists {| waiting := still_waiting w c; settled := true |}.
      simpl. repeat split; auto. right. right. right.
      destruct (still_waiting w c); repeat split; auto.
Qed.

Lemma settle_enabled i w o p c :
  cycles p !! i = Some c -> is_waiting w c = true ->
  is_Some (settle clock i w o p).
Proof.
  intros Hi Hw. unfold settle. rewrite Hi, Hw.
  destruct (sub_fetch clock w o (elements p)). eauto.
Qed.

(** *** The button is owed a reset while it is disabled *)

Lemma button_inv_same p p' :
  cycles p' = cycles p -> timeouts p' = timeouts p ->
  btn_disabled p' = btn_disabled p -> button_inv p -> button_inv p'.
Proof.
  unfold button_inv, owed. intros -> -> ->. tauto.
Qed.

Lemma button_inv_refresh now p : button_inv p -> button_inv (refreshAllData now p).
Proof.
  intros [Hw _]. split; simpl.
  - apply Forall_app. split; [assumption|]. now repeat constructor.
  - intros _. unfold owed. simpl. rewrite sum_list_with_app. simpl. lia.
Qed.

Lemma button_inv_stop p : button_inv p -> button_inv (stopAutoRefresh p).
Proof.
  unfold stopAutoRefresh. now destruct (autoRefreshInterval p) as [[|h]|].
Qed.

Lemma owed_settle i w o p p' :
  settle clock i w o p = Some p' -> owed p' = owed p.
Proof.
  intros H. apply settle_cases in H
    as (c & c' & Hi & Hw & Hr & Hcs & _ & _ & _ & _ & _ & _ & _ & Hcase).
  pose proof (sum_store owed_one i c c' (cycles p) Hi) as E.
  rewrite <- Hcs in E. unfold owed.
  assert (Hoc : owed_one c = if settled c then 0 else 1) by reflexivity.
  assert (Hoc' : owed_one c' = if settled c' then 0 else 1) by reflexivity.
  destruct Hcase as [(Hc & Hc' & Ht & _)|[(Hc & _ & Hc' & Ht & _)
    |[(Hc & _ & Hne & Hc' & Ht & _)|(Hc & _ & Hc' & Ht & _)]]];
    rewrite Hc in Hoc; rewrite Ht; try rewrite Hc' in Hoc';
    destruct (waiting c'); try congruence; lia.
Qed.

Lemma in_flight_settle i w o p p' :
  settle clock i w o p = Some p' -> in_flight p' < in_flight p.
Proof.
  intros H. apply settle_cases in H
    as (c & c' & Hi & Hw & Hr & Hcs & _).
  pose proof (sum_store (fun c => length (waiting c)) i c c' (cycles p) Hi) as E.
  rewrite <- Hcs in E. unfold in_flight.
  pose proof (still_waiting_shorter w c Hw) as Hlt. rewrite <- Hr in Hlt.
  destruct (waiting c'); simpl in *; lia.
Qed.

Lemma button_inv_settle i w o p p' :
  button_inv p -> settle clock i w o p = Some p' -> button_inv p'.
Proof.
  intros [Hw Hb] H. pose proof (owed_settle _ _ _ _ _ H) as Ho.
  apply settle_cases in H
    as (c & c' & Hi & _ & _ & Hcs & _ & Hd & _).
  split.
  - rewrite Hcs. now apply Forall_store.
  - rewrite Hd, Ho. exact Hb.
Qed.

Lemma step_button_inv p ev p' :
  button_inv p -> step clock p ev = Some p' -> button_inv p'.
Proof.
  intros Hp H. destruct ev as [now|h now|now| |i w o|]; simpl in H.
  - destruct (btn_disabled p); [discriminate|]. injection H as <-.
    now apply button_inv_refresh.
  - destruct (armed h p); [|discriminate]. injection H as <-.
    now apply button_inv_refresh.
  - injection H as <-. unfold on_visibilitychange. simpl.
    destruct (negb (hidden p)).
    + apply button_inv_stop. revert Hp. now apply button_inv_same.
    + apply button_inv_refresh. revert Hp. now apply button_inv_same.
  - injection H as <-. now apply button_inv_stop.
  - eapply button_inv_settle; eassumption.
  - destruct (timeouts p) as [|n] eqn:Ht; [discriminate|]. injection H as <-.
    destruct Hp as [Hw _]. split; [exact Hw|]. simpl. discriminate.
Qed.

Lemma button_inv_load now d h stamp html :
  button_inv (load now (fresh d h stamp html)).
Proof.
  unfold load. apply (button_inv_same (refreshAllData now (fresh d h stamp html)));
    try reflexivity.
  apply button_inv_refresh. split; [constructor|]. simpl. discriminate.
Qed.

Lemma run_invariant (I : page -> Prop) :
  (forall p ev p', I p -> step clock p ev = Some p' -> I p') ->
  forall evs p p', I p -> run clock p evs = Some p' -> I p'.
Proof.
  intros Hstep. induction evs as [|ev evs IH]; intros p p' Hp H; simpl in H.
  - now injection H as <-.
  - destruct (step clock p ev) as [p1|] eqn:E; [|discriminate].
    eapply IH; [|eassumption]. eapply Hstep; eassumption.
Qed.

(** *** Settlements and timeouts use up the pending work *)

Lemma internal_step_decreases p ev p' :
  internal ev = true -> step clock p ev = Some p' ->
  pending_work p' < pending_work p.
Proof.
  intros Hi H. destruct ev as [now|h now|now| |i w o|]; try discriminate;
    simpl in H; unfold pending_work.
  - pose proof (owed_settle _ _ _ _ _ H).
    pose proof (in_flight_settle _ _ _ _ _ H). lia.
  - destruct (timeouts p) as [|n] eqn:Ht; [discriminate|]. injection H as <-.
    unfold owed, in_flight. simpl. rewrite Ht. simpl. lia.
Qed.

Lemma internal_run_bounded evs : forall p p',
  forallb internal evs = true -> run clock p evs = Some p' ->
  length evs + pending_work p' <= pending_work p.
Proof.
  induction evs as [|ev evs IH]; intros p p' Hi H; simpl in *.
  - injection H as <-. lia.
  - apply andb_true_iff in Hi as [Hev Hi].
    destruct (step clock p ev) as [p1|] eqn:E; [|discriminate].
    pose proof (internal_step_decreases _ _ _ Hev E).
    specialize (IH _ _ Hi H). lia.
Qed.

Lemma quiescent_button p :
  button_inv p ->
  (forall ev, internal ev = true -> step clock p ev = None) ->
  btn_disabled p = false.
Proof.
  intros [Hw Hb] Hq.
  assert (Ht : timeouts p = 0).
  { specialize (Hq Timeout eq_refl). simpl in Hq.
    now destruct (timeouts p). }
  assert (Hc : cycles p = []).
  { destruct (cycles p) as [|c cs] eqn:Ec; [reflexivity|]. exfalso.
    apply Forall_cons in Hw as [Hc _].
    destruct (waiting c) as [|w ws] eqn:Ew; [congruence|].
    assert (Hi : cycles p !! 0 = Some c) by now rewrite Ec.
    assert (Hww : is_waiting w c = true).
    { unfold is_waiting. rewrite Ew. simpl. now destruct w. }
    destruct (settle_enabled 0 w NetworkError p c Hi Hww) as [p' E].
    specialize (Hq (Settle 0 w NetworkError) eq_refl). simpl in Hq.
    congruence. }
  destruct (btn_disabled p); [|reflexivity].
  specialize (Hb eq_refl). unfold owed in Hb. rewrite Hc, Ht in Hb.
  simpl in Hb. lia.
Qed.

(** *** The timer *)

Lemma stop_clears p :
  intervals p = []
  \/ (exists h, 1 <= h /\ autoRefreshInterval p = Some h
                /\ intervals p = [(h, 30000%Z)]) ->
  intervals (stopAutoRefresh p) = []
  /\ next_handle (stopAutoRefresh p) = next_handle p.
Proof.
  intros [He|(h & Hh1 & Ha & Hi)]; unfold stopAutoRefresh.
  - destruct (autoRefreshInterval p) as [[|k]|]; simpl; auto.
    rewrite He. auto.
  - rewrite Ha. destruct h as [|k]; [lia|]. simpl. rewrite Hi.
    split; [|reflexivity]. unfold clearInterval.
    rewrite filter_cons. simpl. now destruct (decide (S k ≠ S k)).
Qed.

Lemma timer_shape p :
  timer_inv p ->
  intervals p = []
  \/ (exists h, 1 <= h /\ autoRefreshInterval p = Some h
                /\ intervals p = [(h, 30000%Z)]).
Proof. intros [_ [He|(_ & h & Hh)]]; [now left | right; now exists h]. Qed.

Lemma step_timer_inv p ev p' :
  timer_inv p -> step clock p ev = Some p' -> timer_inv p'.
Proof.
  intros Hp H. destruct ev as [now|h now|now| |i w o|]; simpl in H.
  - destruct (btn_disabled p); [discriminate|]. now injection H as <-.
  - destruct (armed h p); [|discriminate]. now injection H as <-.
  - injection H as <-. unfold on_visibilitychange. simpl.
    destruct (hidden p) eqn:Hh; simpl.
    + destruct Hp as [Hn [He|(Hv & _)]]; [|congruence].
      split; simpl; [lia|]. right. split; [reflexivity|].
      exists (next_handle p). rewrite He. now repeat split.
    + destruct (stop_clears (set_hidden true p) (timer_shape p Hp))
        as [Hi Hn].
      split; [rewrite Hn; apply Hp | now left].
  - injection H as <-.
    destruct (stop_clears p (timer_shape p Hp)) as [Hi Hn].
    split; [rewrite Hn; apply Hp | now left].
  - apply settle_cases in H
      as (c & c' & _ & _ & _ & _ & _ & _ & Hh & Hi & Ha & Hn & _).
    unfold timer_inv. rewrite Hh, Hi, Ha, Hn. exact Hp.
  - destruct (timeouts p); [discriminate|]. now injection H as <-.
Qed.

Lemma timer_inv_load now d stamp html :
  timer_inv (load now (fresh d false stamp html)).
Proof.
  split; simpl; [lia|]. right. split; [reflexivity|]. exists 1. now repeat split.
Qed.

(** *** [Promise.all] does not reject on a page that has its elements *)

Lemma step_cycle_inv p ev p' :
  cycle_inv p -> step clock p ev = Some p' -> cycle_inv p'.
Proof.
  intros Hp H.
  assert (Hr : forall now q, cycle_inv q -> cycle_inv (refreshAllData now q)).
  { intros now q (Hd & Hs & Hl). repeat split; simpl; [exact Hd| |discriminate].
    apply Forall_app. split; [exact Hs|]. now repeat constructor. }
  assert (Hs : forall q, cycle_inv q -> cycle_inv (stopAutoRefresh q)).
  { intros q Hq. unfold stopAutoRefresh.
    now destruct (autoRefreshInterval q) as [[|k]|]. }
  destruct ev as [now|h now|now| |i w o|]; simpl in H.
  - destruct (btn_disabled p); [discriminate|]. injection H as <-. auto.
  - destruct (armed h p); [|discriminate]. injection H as <-. auto.
  - injection H as <-. unfold on_visibilitychange. simpl.
    destruct (negb (hidden p)).
    + now apply Hs.
    + now apply Hr.
  - injection H as <-. auto.
  - destruct Hp as (Hd & Hu & Hl).
    pose proof (sub_fetch_fulfils w o _ Hd) as Hf.
    apply settle_cases in H
      as (c & c' & Hi & _ & _ & Hcs & He & _ & _ & _ & _ & _ & _ & Hcase).
    assert (Hc : settled c = false).
    { eapply (Forall_lookup_1 _ _ _ _ Hu). exact Hi. }
    assert (Hd' : has_elements page_ids (elements p')).
    { rewrite He. eapply has_elements_dom; [apply keeps_sub_fetch | exact Hd]. }
    destruct Hcase as [(? & _)|[(_ & _ & Hw & _ & Hh)
      |[(_ & _ & _ & Hc' & _ & Hh)|(_ & Hn & _)]]]; try congruence.
    + repeat split; [exact Hd' | | rewrite Hh; discriminate].
      rewrite Hcs. apply Forall_store; [exact Hu | congruence].
    + repeat split; [exact Hd' | | rewrite Hh; exact Hl].
      rewrite Hcs. now apply Forall_store.
  - destruct (timeouts p); [discriminate|]. injection H as <-.
    destruct Hp as (Hd & Hu & Hl). repeat split; auto.
Qed.

Lemma cycle_inv_load now d h stamp html :
  has_elements page_ids d -> cycle_inv (load now (fresh d h stamp html)).
Proof.
  intros Hd. repeat split; simpl; [exact Hd | now repeat constructor |].
  discriminate.
Qed.

(** A fulfilled settlement of an invocation that [Promise.all] has not
    settled: the last one sets the success label, any other one leaves the
    button alone and the invocation waiting. *)
Lemma settle_next i w o p c :
  cycles p !! i = Some c -> settled c = false -> is_waiting w c = true ->
  has_elements page_ids (elements p) ->
  exists p',
    settle clock i w o p = Some p'
    /\ has_elements page_ids (elements p')
    /\ elements p' = (sub_fetch clock w o (elements p)).1
    /\ btn_disabled p' = btn_disabled p
    /\ (still_waiting w c = [] ->
        btn_html p' = label_refreshed /\ timeouts p' = S (timeouts p))
    /\ (still_waiting w c ≠ [] ->
        btn_html p' = btn_html p
        /\ cycles p' !! i
           = Some {| waiting := still_waiting w c; settled := false |}).
Proof.
  intros Hi Hc Hw Hd.
  destruct (settle_enabled i w o p c Hi Hw) as [p' E]. exists p'.
  split; [exact E|].
  pose proof (sub_fetch_fulfils w o _ Hd) as Hf.
  apply settle_cases in E
    as (c0 & c' & Hi0 & _ & Hr & Hcs & He & Hb & _ & _ & _ & _ & _ & Hcase).
  rewrite Hi in Hi0. injection Hi0 as <-.
  split; [rewrite He; eapply has_elements_dom;
          [apply keeps_sub_fetch | exact Hd]|].
  split; [exact He|]. split; [exact Hb|].
  destruct Hcase as [(? & _)|[(_ & _ & Hw' & Ht & Hh)
    |[(_ & _ & Hne & Hc' & _ & Hh)|(_ & Hn & _)]]]; try congruence.
  - split; [intros _; now split|]. intros Hne. congruence.
  - split; [intros He'; congruence|]. intros _. split; [exact Hh|].
    rewrite Hcs. unfold store. destruct c' as [ws st]. simpl in *. subst.
    destruct (still_waiting w c) eqn:Es; [congruence|].
    apply list_lookup_insert_eq. eapply lookup_lt_Some; eassumption.
Qed.

End Clock.

End DashboardFacts.

(** * Properties of the chat *)

Module ChatFacts.

Import Js Chat.

Lemma handleSend_blank c :
  Str.trim (userInput_value c) = "" -> handleSend c = c.
Proof. intros H. unfold handleSend. now rewrite H. Qed.

Lemma handleSend_sends c :
  Str.trim (userInput_value c) ≠ "" ->
  pending (handleSend c) = pending c ++ [Str.trim (userInput_value c)]
  /\ log (handleSend c)
     = log c ++ [DisableInput; Request (Str.trim (userInput_value c))].
Proof.
  intros H. unfold handleSend.
  destruct (String.eqb_spec (Str.trim (userInput_value c)) "");
    [contradiction | now split].
Qed.

Lemma busy_inv_handleSend c : busy_inv c -> busy_inv (handleSend c).
Proof.
  intros Hc. unfold handleSend.
  destruct (String.eqb _ ""); [exact Hc|].
  intros _. simpl. now destruct (pending c).
Qed.

Lemma step_busy_inv c ev c' :
  busy_inv c -> step c ev = Some c' -> busy_inv c'.
Proof.
  intros Hc H. destruct ev as [s| | |i|i o]; simpl in H.
  - destruct (userInput_disabled c); [discriminate|]. now injection H as <-.
  - destruct (sendBtn_disabled c); [discriminate|]. injection H as <-.
    now apply busy_inv_handleSend.
  - destruct (userInput_disabled c); [discriminate|]. injection H as <-.
    now apply busy_inv_handleSend.
  - destruct (predefinedQueries !! i); [|discriminate]. injection H as <-.
    now apply busy_inv_handleSend.
  - unfold resume in H. destruct (pending c !! i); [|discriminate].
    injection H as <-. intros [H|H]; discriminate.
Qed.

Lemma chat_run_invariant (I : chat -> Prop) :
  (forall c ev c', I c -> step c ev = Some c' -> I c') ->
  forall evs c c', I c -> run c evs = Some c' -> I c'.
Proof.
  intros Hstep. induction evs as [|ev evs IH]; intros c c' Hc H; simpl in H.
  - now injection H as <-.
  - destruct (step c ev) as [c1|] eqn:E; [|discriminate].
    eapply IH; [|eassumption]. eapply Hstep; eassumption.
Qed.

Lemma chat_internal_step_decreases c ev c' :
  internal ev = true -> step c ev = Some c' ->
  S (length (pending c')) = length (pending c).
Proof.
  intros Hi H. destruct ev as [s| | |i|i o]; try discriminate.
  simpl in H. unfold resume in H.
  destruct (pending c !! i) as [t|] eqn:E; [|discriminate].
  injection H as <-. simpl.
  pose proof (lookup_lt_Some _ _ _ E).
  rewrite length_delete by (now rewrite E). lia.
Qed.

Lemma chat_internal_run_bounded evs : forall c c',
  forallb internal evs = true -> run c evs = Some c' ->
  length evs + length (pending c') = length (pending c).
Proof.
  induction evs as [|ev evs IH]; intros c c' Hi H; simpl in *.
  - now injection H as <-.
  - apply andb_true_iff in Hi as [Hev Hi].
    destruct (step c ev) as [c1|] eqn:E; [|discriminate].
    pose proof (chat_internal_step_decreases _ _ _ Hev E).
    specialize (IH _ _ Hi H). lia.
Qed.

Lemma quiescent_input c :
  busy_inv c ->
  (forall ev, internal ev = true -> step c ev = None) ->
  userInput_disabled c = false /\ sendBtn_disabled c = false.
Proof.
  intros Hc Hq.
  assert (Hp : pending c = []).
  { destruct (pending c) as [|t ts] eqn:E; [reflexivity|]. exfalso.
    specialize (Hq (Resolve 0 NetworkError) eq_refl). simpl in Hq.
    unfold resume in Hq. rewrite E in Hq. discriminate. }
  unfold busy_inv in Hc. rewrite Hp in Hc.
  destruct (userInput_disabled c), (sendBtn_disabled c); auto;
    exfalso; apply Hc; auto.
Qed.

End ChatFacts.

(** * The claims *)

(** C1 (fails on the code).  A quick-reply button is not disabled while a
    query is pending and [handleSend] has no guard of its own: a click on a
    second quick reply while the first query is in flight starts a second
    query and puts a second user turn and a second pending indicator into
    the transcript before the first answer. *)
Theorem quick_reply_overlaps_pending_query :
  let q0 := "What problems are teams facing right now?" in
  let q1 := "What are the most asked questions?" in
  exists c1 c2,
    Chat.step Chat.initial (Chat.ClickQuery 0) = Some c1
    /\ Chat.userInput_disabled c1 = true
    /\ Chat.sendBtn_disabled c1 = true
    /\ Chat.pending c1 = [q0]
    /\ Chat.step c1 (Chat.ClickQuery 1) = Some c2
    /\ Chat.pending c2 = [q0; q1]
    /\ Chat.log c2 = [Chat.DisableInput; Chat.Request q0;
                      Chat.DisableInput; Chat.Request q1]
    /\ Chat.chatWindow c2
       = [Chat.bubble q0 "user"; Chat.LoadingIndicator;
          Chat.bubble q1 "user"; Chat.LoadingIndicator].
Proof. do 2 eexists. repeat split; reflexivity. Qed.

(** C2 (fails on the code).  The message text "help me" starts with a
    problem keyword, so after the highlighting passes it starts with a tag;
    [charAt(0)] is then the opening angle bracket and the first letter
    stays in lower case. *)
Theorem capitalize_misses_text_behind_a_tag :
  Formatter.formatText "help me" = Formatter.danger "help" +:+ " me"
  /\ Str.head (Formatter.formatText "help me") = Some "<"%char
  /\ Formatter.formatText "hello there" = "Hello there".
Proof. repeat split; reflexivity. Qed.



(** C4.  On a page that has the four stat cards: for a response whose four
    fields are counts (integers that a number holds exactly), [null] or
    absent, each card shows its field, or 0 for a missing one; when the
    network call fails (rejection, a status that is not a success, a body
    that is not JSON) each card shows "Error". *)
Theorem stats_cards_show_fields_or_error
    (d : gmap string Js.content) (m : gmap string Js.value)
    (total users questions problems : Z) (o : Js.outcome) :
  Dashboard.has_elements Dashboard.stat_ids d ->
  Dashboard.stat_field m "total_messages" = Some total ->
  Dashboard.stat_field m "unique_users" = Some users ->
  Dashboard.stat_field m "questions_count" = Some questions ->
  Dashboard.stat_field m "problems_count" = Some problems ->
  Js.failed o = true ->
  (let d' := (Dashboard.fetchStats (Js.Response true (Some (Js.VObj m))) d).1 in
   d' !! "totalMessages" = Some (Js.TextContent (pretty total))
   /\ d' !! "uniqueUsers" = Some (Js.TextContent (pretty users))
   /\ d' !! "questionsCount" = Some (Js.TextContent (pretty questions))
   /\ d' !! "problemsCount" = Some (Js.TextContent (pretty problems)))
  /\ (let d' := (Dashboard.fetchStats o d).1 in
      d' !! "totalMessages" = Some (Js.TextContent "Error")
      /\ d' !! "uniqueUsers" = Some (Js.TextContent "Error")
      /\ d' !! "questionsCount" = Some (Js.TextContent "Error")
      /\ d' !! "problemsCount" = Some (Js.TextContent "Error")).
Proof.
  intros Hd Ht Hu Hq Hp Ho.
  assert (Hshow : forall key n, Dashboard.stat_field m key = Some n ->
            Js.to_string (Js.or_else (default Js.VUndefined (m !! key))
                                     (Js.VNum 0)) = pretty n).
  { intros key n. unfold Dashboard.stat_field.
    destruct (m !! key) as [[| |b|z|s|l|g]|]; simpl; intros E;
      try discriminate; try (injection E as <-; reflexivity).
    destruct (Js.safe_integer z); [|discriminate]. injection E as <-.
    unfold Js.or_else. simpl. destruct (Z.eqb_spec z 0); simpl; congruence. }
  split.
  - rewrite (DashboardFacts.fetchStats_success d m Hd). cbv zeta.
    rewrite (Hshow _ _ Ht), (Hshow _ _ Hu), (Hshow _ _ Hq), (Hshow _ _ Hp).
    simpl. now simplify_map_eq.
  - unfold Dashboard.fetchStats.
    rewrite DashboardFacts.try_catch_failed by assumption.
    rewrite DashboardFacts.stats_error_present by assumption.
    simpl. now simplify_map_eq.
Qed.

Lemma stats_cards_show_fields_or_error_witness :
  Dashboard.has_elements Dashboard.stat_ids Sample.elements
  /\ (Dashboard.fetchStats
        (Js.Response true (Some (Js.VObj Sample.stats))) Sample.elements).1
     !! "totalMessages" = Some (Js.TextContent "12")
  /\ (Dashboard.fetchStats
        (Js.Response true (Some (Js.VObj Sample.stats))) Sample.elements).1
     !! "problemsCount" = Some (Js.TextContent "0")
  /\ (Dashboard.fetchStats Js.NetworkError Sample.elements).1
     !! "uniqueUsers" = Some (Js.TextContent "Error").
Proof.
  assert (Hd : Dashboard.has_elements Dashboard.stat_ids Sample.elements).
  { repeat constructor; vm_compute; eexists; reflexivity. }
  split; [exact Hd|].
  destruct (stats_cards_show_fields_or_error Sample.elements Sample.stats
              12 3 0 0 Js.NetworkError Hd eq_refl eq_refl eq_refl eq_refl
              eq_refl)
    as [(Ht & _ & _ & Hp) (_ & Hu & _)].
  split; [exact Ht|]. split; [exact Hp | exact Hu].
Defined.

(** C5, as the claim states it, fails: the script arms the timer when it
    loads, whether or not the page is visible, so a page that loads hidden
    is hidden with an armed timer. *)
Lemma timer_armed_on_hidden_load :
  ~ (forall (is_hidden : bool) (evs : list Dashboard.event) (p : Dashboard.page),
       Dashboard.run Sample.clock
         (Dashboard.load "09:00" (Dashboard.fresh ∅ is_hidden "" "Refresh"))
         evs = Some p ->
       Dashboard.hidden p = true ->
       Dashboard.intervals p = []
       /\ forall h now, Dashboard.step Sample.clock p (Dashboard.Tick h now) = None).
Proof.
  intros H. destruct (H true [] _ eq_refl eq_refl) as [He _]. discriminate.
Qed.

(** C5, amended.  When the page is visible while the script loads: in every
    state the page reaches while it is hidden no timer is armed and no tick
    is delivered; and when the page becomes visible again the listener arms
    one timer of period 30000 and starts one fetch cycle at once. *)
Theorem timer_follows_visibility_after_visible_load
    (clock : Js.value -> string) (d : gmap string Js.content)
    (stamp html now : string) (evs : list Dashboard.event)
    (p : Dashboard.page) :
  Dashboard.run clock
    (Dashboard.load now (Dashboard.fresh d false stamp html)) evs = Some p ->
  Dashboard.hidden p = true ->
  Dashboard.intervals p = []
  /\ (forall h t, Dashboard.step clock p (Dashboard.Tick h t) = None)
  /\ forall t, exists p',
       Dashboard.step clock p (Dashboard.VisibilityChange t) = Some p'
       /\ Dashboard.hidden p' = false
       /\ Dashboard.intervals p' = [(Dashboard.next_handle p, 30000%Z)]
       /\ Dashboard.autoRefreshInterval p' = Some (Dashboard.next_handle p)
       /\ Dashboard.cycles p' = Dashboard.cycles p ++ [Dashboard.new_cycle]
       /\ Dashboard.log p'
          = Dashboard.log p
            ++ [Dashboard.ShowLoading; Dashboard.Request "/api/stats";
                Dashboard.Request "/api/insights";
                Dashboard.Request "/api/messages?limit=10"].
Proof.
  intros Hrun Hh.
  assert (Hinv : Dashboard.timer_inv p).
  { eapply (DashboardFacts.run_invariant clock Dashboard.timer_inv);
      [apply DashboardFacts.step_timer_inv | | exact Hrun].
    apply DashboardFacts.timer_inv_load. }
  destruct Hinv as [_ [He|(Hv & _)]]; [|congruence].
  split; [exact He|]. split.
  - intros h t. simpl. unfold Dashboard.armed. now rewrite He.
  - intros t. eexists. split; [reflexivity|].
    unfold Dashboard.on_visibilitychange. simpl. rewrite Hh. simpl.
    rewrite He. now repeat split.
Qed.

Lemma timer_follows_visibility_after_visible_load_witness :
  let p := Dashboard.stopAutoRefresh
             (Dashboard.set_hidden true
                (Dashboard.load "09:00" Sample.page)) in
  Dashboard.run Sample.clock (Dashboard.load "09:00" Sample.page)
    [Dashboard.VisibilityChange "09:01"] = Some p
  /\ Dashboard.hidden p = true
  /\ Dashboard.intervals p = []
  /\ Dashboard.step Sample.clock p (Dashboard.Tick 1 "09:02") = None.
Proof.
  intros p.
  assert (Hrun : Dashboard.run Sample.clock
                   (Dashboard.load "09:00" Sample.page)
                   [Dashboard.VisibilityChange "09:01"] = Some p)
    by reflexivity.
  assert (Hh : Dashboard.hidden p = true) by reflexivity.
  split; [exact Hrun|]. split; [exact Hh|].
  destruct (timer_follows_visibility_after_visible_load Sample.clock
              Sample.elements "" "Refresh" "09:00"
              [Dashboard.VisibilityChange "09:01"] p Hrun Hh)
    as (He & Ht & _).
  split; [exact He | apply Ht].
Defined.

(** C6.  Both fetch paths show their loading state before they issue a
    request, and neither can stay in it: from any state the dashboard or the
    chat reaches, the settlements and timeouts still to come are finitely
    many, whatever the outcomes of the network calls and whatever the page
    lacks, and once they have all happened the refresh button and the chat
    input are enabled. *)
Theorem no_path_stays_loading
    (clock : Js.value -> string) (d : gmap string Js.content)
    (is_hidden : bool) (stamp html now : string)
    (evs : list Dashboard.event) (p : Dashboard.page)
    (cevs : list Chat.event) (c : Chat.chat) :
  Dashboard.run clock
    (Dashboard.load now (Dashboard.fresh d is_hidden stamp html)) evs
  = Some p ->
  Chat.run Chat.initial cevs = Some c ->
  (forall t,
     Dashboard.log (Dashboard.refreshAllData t p)
     = Dashboard.log p
       ++ [Dashboard.ShowLoading; Dashboard.Request "/api/stats";
           Dashboard.Request "/api/insights";
           Dashboard.Request "/api/messages?limit=10"]
     /\ Dashboard.btn_disabled (Dashboard.refreshAllData t p) = true
     /\ Dashboard.btn_html (Dashboard.refreshAllData t p)
        = Dashboard.label_refreshing)
  /\ (forall ivs p',
        forallb Dashboard.internal ivs = true ->
        Dashboard.run clock p ivs = Some p' ->
        length ivs <= Dashboard.pending_work p
        /\ ((forall ev, Dashboard.internal ev = true ->
                        Dashboard.step clock p' ev = None) ->
            Dashboard.btn_disabled p' = false))
  /\ (Str.trim (Chat.userInput_value c) <> "" ->
      Chat.log (Chat.handleSend c)
      = Chat.log c
        ++ [Chat.DisableInput;
            Chat.Request (Str.trim (Chat.userInput_value c))])
  /\ (forall ivs c',
        forallb Chat.internal ivs = true ->
        Chat.run c ivs = Some c' ->
        length ivs <= length (Chat.pending c)
        /\ ((forall ev, Chat.internal ev = true -> Chat.step c' ev = None) ->
            Chat.userInput_disabled c' = false
            /\ Chat.sendBtn_disabled c' = false)).
Proof.
  intros Hrun Hcrun.
  assert (Hp : Dashboard.button_inv p).
  { eapply (DashboardFacts.run_invariant clock Dashboard.button_inv);
      [apply DashboardFacts.step_button_inv | | exact Hrun].
    apply DashboardFacts.button_inv_load. }
  assert (Hc : Chat.busy_inv c).
  { eapply (ChatFacts.chat_run_invariant Chat.busy_inv);
      [apply ChatFacts.step_busy_inv | | exact Hcrun].
    intros [H|H]; discriminate. }
  split; [intros t; now repeat split|].
  split.
  - intros ivs p' Hi Hr. split.
    + pose proof (DashboardFacts.internal_run_bounded clock ivs p p' Hi Hr).
      lia.
    + apply DashboardFacts.quiescent_button.
      eapply (DashboardFacts.run_invariant clock Dashboard.button_inv);
        [apply DashboardFacts.step_button_inv | exact Hp | exact Hr].
  - split.
    + intros Hne. now apply ChatFacts.handleSend_sends.
    + intros ivs c' Hi Hr. split.
      * pose proof (ChatFacts.chat_internal_run_bounded ivs c c' Hi Hr). lia.
      * apply ChatFacts.quiescent_input.
        eapply (ChatFacts.chat_run_invariant Chat.busy_inv);
          [apply ChatFacts.step_busy_inv | exact Hc | exact Hr].
Qed.

Lemma no_path_stays_loading_witness :
  let p := Dashboard.load "09:00" Sample.page in
  let c := Chat.handleSend
             (Chat.set_value "What are the most asked questions?"
                Chat.initial) in
  Dashboard.run Sample.clock p [] = Some p
  /\ Chat.run Chat.initial [Chat.ClickQuery 1] = Some c
  /\ (forall p',
        Dashboard.run Sample.clock p
          [Dashboard.Settle 0 Dashboard.Stats Js.NetworkError;
           Dashboard.Settle 0 Dashboard.Insights Js.NetworkError;
           Dashboard.Settle 0 Dashboard.Messages Js.NetworkError;
           Dashboard.Timeout] = Some p' ->
        (forall ev, Dashboard.internal ev = true ->
                    Dashboard.step Sample.clock p' ev = None) ->
        Dashboard.btn_disabled p' = false)
  /\ (forall c',
        Chat.run c [Chat.Resolve 0 Js.NetworkError] = Some c' ->
        (forall ev, Chat.internal ev = true -> Chat.step c' ev = None) ->
        Chat.userInput_disabled c' = false).
Proof.
  intros p c.
  destruct (no_path_stays_loading Sample.clock Sample.elements false ""
              "Refresh" "09:00" [] p [Chat.ClickQuery 1] c eq_refl eq_refl)
    as (_ & Hd & _ & Hc).
  split; [reflexivity|]. split; [reflexivity|]. split.
  - intros p' Hr.
    destruct (Hd [Dashboard.Settle 0 Dashboard.Stats Js.NetworkError;
                  Dashboard.Settle 0 Dashboard.Insights Js.NetworkError;
                  Dashboard.Settle 0 Dashboard.Messages Js.NetworkError;
                  Dashboard.Timeout] p' ltac:(reflexivity) Hr) as [_ Hq].
    exact Hq.
  - intros c' Hr Hq. destruct (Hc [Chat.Resolve 0 Js.NetworkError] c'
                                 ltac:(reflexivity) Hr) as [_ He].
    now apply He.
Defined.

(** C7.  For every text, in particular one that holds a problem keyword
    and a question keyword, the passes over the nine problem keywords, the
    nine question keywords and the question mark, each run on the output of
    the one before, give the text in which every word that is a keyword and
    every question mark stands once in the span of its own kind, and
    everything else, the inside of the inserted spans included, is left as
    it was. *)
Theorem highlight_wraps_each_keyword_once (text : string) :
  Formatter.highlight text = Tokens.highlight_tokens text.
Proof.
  unfold Formatter.highlight, Tokens.highlight_tokens.
  rewrite <- (PassFacts.tokenize_flat text) at 1.
  destruct (PassFacts.highlightKeywords_tokens Formatter.problemKeywords TokenPass.danger_open Formatter.span_close
              eq_refl eq_refl (Tokens.tokenize text) (PassFacts.tokenize_normal text))
    as [E1 N1].
  change (Formatter.highlightKeywords Formatter.problemKeywords Formatter.danger (TokenPass.flat (Tokens.tokenize text)))
    with (Formatter.highlightKeywords Formatter.problemKeywords
            (fun w => TokenPass.danger_open +:+ w +:+ Formatter.span_close) (TokenPass.flat (Tokens.tokenize text))).
  rewrite E1.
  destruct (PassFacts.highlightKeywords_tokens Formatter.questionKeywords TokenPass.info_open Formatter.span_close
              eq_refl eq_refl _ N1) as [E2 _].
  change (Formatter.highlightKeywords Formatter.questionKeywords Formatter.info)
    with (Formatter.highlightKeywords Formatter.questionKeywords
            (fun w => TokenPass.info_open +:+ w +:+ Formatter.span_close)).
  rewrite E2.
  unfold Formatter.highlightQuestionMarks, Regex.replace_all. rewrite PassFacts.literal_pass_qmark.
  apply (PassFacts.passes_render (Tokens.tokenize text) (PassFacts.tokenize_normal text)).
Qed.

(** C8.  A submission whose text is empty after trimming changes nothing:
    the transcript, the requests in flight and the log of requests stay as
    they are, and so do the input field and the two disabled flags, through
    the send button and through the Enter key alike. *)
Theorem blank_submission_is_a_no_op (c : Chat.chat) :
  Str.trim (Chat.userInput_value c) = "" ->
  Chat.handleSend c = c
  /\ (Chat.sendBtn_disabled c = false ->
      Chat.step c Chat.ClickSend = Some c)
  /\ (Chat.userInput_disabled c = false ->
      Chat.step c Chat.PressEnter = Some c).
Proof.
  intros H. pose proof (ChatFacts.handleSend_blank c H) as E.
  split; [exact E|]. split; intros Hd; simpl; now rewrite Hd, E.
Qed.

Lemma blank_submission_is_a_no_op_witness :
  Str.trim (Chat.userInput_value Sample.blank_input) = ""
  /\ Chat.step Sample.blank_input Chat.ClickSend = Some Sample.blank_input
  /\ Chat.chatWindow Sample.blank_input = []
  /\ Chat.pending Sample.blank_input = []
  /\ Chat.userInput_disabled Sample.blank_input = false.
Proof.
  split; [reflexivity|].
  destruct (blank_submission_is_a_no_op Sample.blank_input eq_refl)
    as (_ & Hs & _).
  split; [apply Hs; reflexivity|]. now repeat split.
Defined.

(** C9.  On a page that has the elements the sub-fetches report in, no state
    the dashboard reaches shows the error label and no invocation of
    [refreshAllData] has seen [Promise.all] reject; every sub-fetch in
    flight settles, whatever the outcome of its network call, without
    bringing up the error label, and the last one of its invocation brings
    up the success label. *)
Theorem refresh_error_branch_is_unreachable
    (clock : Js.value -> string) (d : gmap string Js.content)
    (is_hidden : bool) (stamp html now : string)
    (evs : list Dashboard.event) (p : Dashboard.page) :
  Dashboard.has_elements Dashboard.page_ids d ->
  Dashboard.run clock
    (Dashboard.load now (Dashboard.fresh d is_hidden stamp html)) evs
  = Some p ->
  Dashboard.btn_html p <> Dashboard.label_error
  /\ Forall (fun c => Dashboard.settled c = false) (Dashboard.cycles p)
  /\ forall i w o c,
       Dashboard.cycles p !! i = Some c ->
       Dashboard.is_waiting w c = true ->
       exists p',
         Dashboard.step clock p (Dashboard.Settle i w o) = Some p'
         /\ Dashboard.btn_html p' <> Dashboard.label_error
         /\ (Dashboard.still_waiting w c = [] ->
             Dashboard.btn_html p' = Dashboard.label_refreshed).
Proof.
  intros Hd Hrun.
  assert (Hinv : Dashboard.cycle_inv p).
  { eapply (DashboardFacts.run_invariant clock Dashboard.cycle_inv);
      [apply DashboardFacts.step_cycle_inv | | exact Hrun].
    now apply DashboardFacts.cycle_inv_load. }
  pose proof Hinv as (He & Hu & Hl).
  split; [exact Hl|]. split; [exact Hu|].
  intros i w o c Hi Hw.
  assert (Hc : Dashboard.settled c = false).
  { eapply (Forall_lookup_1 _ _ _ _ Hu). exact Hi. }
  destruct (DashboardFacts.settle_next clock i w o p c Hi Hc Hw He)
    as (p' & E & _ & _ & _ & Hlast & _).
  exists p'. split; [exact E|]. split.
  - apply (DashboardFacts.step_cycle_inv clock p (Dashboard.Settle i w o) p'
             Hinv E).
  - intros Hr. now apply Hlast.
Qed.

Lemma refresh_error_branch_is_unreachable_witness :
  Dashboard.has_elements Dashboard.page_ids Sample.elements
  /\ forall p,
       Dashboard.run Sample.clock (Dashboard.load "09:00" Sample.page)
         [Dashboard.Settle 0 Dashboard.Stats Js.NetworkError;
          Dashboard.Settle 0 Dashboard.Insights (Js.Response false None);
          Dashboard.Settle 0 Dashboard.Messages (Js.Response true None)]
       = Some p ->
       Dashboard.btn_html p <> Dashboard.label_error.
Proof.
  assert (Hd : Dashboard.has_elements Dashboard.page_ids Sample.elements).
  { repeat constructor; vm_compute; eexists; reflexivity. }
  split; [exact Hd|]. intros p Hrun.
  apply (refresh_error_branch_is_unreachable Sample.clock Sample.elements
           false "" "Refresh" "09:00" _ p Hd Hrun).
Defined.

(** C10.  On a page that has the recent-messages element, a successful
    response whose [messages] field is an empty list, or is absent, or is
    [null], replaces the content of the element by the placeholder
    paragraph and nothing else. *)
Theorem empty_messages_show_placeholder
    (clock : Js.value -> string) (d : gmap string Js.content)
    (m : gmap string Js.value) :
  is_Some (d !! "recentMessages") ->
  m !! "messages" = None \/ m !! "messages" = Some (Js.VArr [])
  \/ m !! "messages" = Some Js.VNull ->
  Dashboard.fetchRecentMessages clock
    (Js.Response true (Some (Js.VObj m))) d
  = (<["recentMessages" := Js.InnerHTML Dashboard.no_messages]> d, Some tt).
Proof.
  intros Hd Hm.
  unfold Dashboard.fetchRecentMessages, Js.try_catch, Dashboard.show_messages.
  simpl Js.fetch_json. unfold Js.bind at 1, Js.ret at 1.
  unfold Js.bind at 1. simpl Js.prop. unfold Js.lift, Js.ret at 1.
  assert (E : Js.or_else (default Js.VUndefined (m !! "messages"))
                (Js.VArr []) = Js.VArr []).
  { destruct Hm as [->|[->| ->]]; reflexivity. }
  rewrite E.
  change (Dashboard.length_is_zero (Js.VArr [])) with true. cbv iota.
  now rewrite JsFacts.set_html_present by assumption.
Qed.

Lemma empty_messages_show_placeholder_witness :
  is_Some (Sample.elements !! "recentMessages")
  /\ (Dashboard.fetchRecentMessages Sample.clock
        (Js.Response true (Some (Js.VObj Sample.no_messages_body)))
        Sample.elements).1 !! "recentMessages"
     = Some (Js.InnerHTML Dashboard.no_messages).
Proof.
  assert (Hd : is_Some (Sample.elements !! "recentMessages")).
  { vm_compute. eexists. reflexivity. }
  split; [exact Hd|].
  rewrite (empty_messages_show_placeholder Sample.clock Sample.elements
             Sample.no_messages_body Hd (or_intror (or_introl eq_refl))).
  simpl. apply lookup_insert_eq.
Defined.

(** * Further properties *)

(** ** The formatter *)

Module FormatterFacts.

Import Str Regex Formatter Tokens TokenPass StrFacts PassFacts.

Lemma emphasize_at_none prev c s :
  Shape.no_double_asterisk (String c s) = true ->
  enclosed_matcher "**" "**" strong prev (String c s) = None.
Proof.
  intros H. unfold enclosed_matcher.
  change (match_lit "**" (String c s))
    with (if Ascii.eqb "*" c then match_lit "*" s else None).
  destruct (Ascii.eqb "*" c) eqn:Ec; [|reflexivity].
  destruct s as [|b s]; [reflexivity|].
  change (match_lit "*" (String b s))
    with (if Ascii.eqb "*" b then Some s else None).
  destruct (Ascii.eqb "*" b) eqn:Eb; [|reflexivity].
  simpl in H. rewrite (Ascii.eqb_sym c), (Ascii.eqb_sym b), Ec, Eb in H.
  discriminate.
Qed.

Lemma emphasize_go_none s : forall prev,
  Shape.no_double_asterisk s = true ->
  replace_go (enclosed_matcher "**" "**" strong) 0 prev s = s.
Proof.
  induction s as [|c s IH]; intros prev H; [reflexivity|].
  rewrite replace_go_cons, emphasize_at_none by assumption.
  f_equal. apply IH. destruct s as [|b s]; [reflexivity|].
  simpl in H. now apply andb_true_iff in H as [_ H].
Qed.

Lemma mention_go_prev s : forall skip prev prev',
  replace_go (mention_matcher badge) skip prev s
  = replace_go (mention_matcher badge) skip prev' s.
Proof.
  induction s as [|c s IH]; intros skip prev prev'; [reflexivity|].
  destruct skip as [|k]; simpl.
  - change (mention_matcher badge prev (String c s))
      with (mention_matcher badge prev' (String c s)).
    destruct (mention_matcher badge prev' (String c s)) as [[[|n] r]|];
      reflexivity.
  - reflexivity.
Qed.

Lemma span_class id : forall rest,
  Shape.all_of mention_class id = true ->
  span mention_class (id +:+ String ">" rest) = (id, String ">" rest).
Proof.
  induction id as [|c id IH]; intros rest H; simpl in *; [reflexivity|].
  apply andb_true_iff in H as [-> H]. now rewrite IH.
Qed.

Lemma mention_go_plain s : forall prev,
  Shape.lacks "<" s = true ->
  replace_go (mention_matcher badge) 0 prev s = s.
Proof.
  induction s as [|c s IH]; intros prev H; [reflexivity|].
  simpl in H. apply andb_true_iff in H as [Hc H].
  apply negb_true_iff in Hc.
  rewrite replace_go_cons. unfold mention_matcher at 1.
  change (match_lit "<@" (String c s))
    with (if Ascii.eqb "<" c then match_lit "@" s else None).
  rewrite Ascii.eqb_sym, Hc. f_equal. now apply IH.
Qed.

Lemma mention_at prev id rest :
  id <> "" -> Shape.all_of mention_class id = true ->
  mention_matcher badge prev (String "<" (String "@" (id +:+ String ">" rest)))
  = Some (S (String.length (String "@" (id +:+ ">"))), badge id).
Proof.
  intros Hne Hid. unfold mention_matcher.
  change (match_lit "<@" (String "<" (String "@" (id +:+ String ">" rest))))
    with (Some (id +:+ String ">" rest)).
  cbv iota beta. rewrite span_class by assumption.
  destruct id as [|c id]; [congruence|].
  change (head (String ">" rest)) with (Some ">"%char).
  change (Ascii.eqb ">" (ascii_of_nat 62)) with true. cbv iota beta.
  f_equal. f_equal. simpl. rewrite sapp_length. simpl. lia.
Qed.

End FormatterFacts.

(** X1.  [emphasize] changes nothing in a text in which no two asterisks
    stand side by side: a single asterisk is not a delimiter. *)
Theorem emphasize_keeps_text_without_delimiter (text : string) :
  Shape.no_double_asterisk text = true -> Formatter.emphasize text = text.
Proof. intros H. now apply FormatterFacts.emphasize_go_none. Qed.

Lemma emphasize_keeps_text_without_delimiter_witness :
  Shape.no_double_asterisk "2 * 3 * 4 teams" = true
  /\ Formatter.emphasize "2 * 3 * 4 teams" = "2 * 3 * 4 teams".
Proof.
  split; [reflexivity|].
  now apply (emphasize_keeps_text_without_delimiter "2 * 3 * 4 teams").
Defined.

(** X2.  A mention of an identifier of capital letters and digits at the
    head of a text is replaced by the badge of the last four code units of
    the identifier, whatever follows, and the rest of the text is masked as
    it would be on its own. *)
Theorem maskMentions_replaces_leading_mention (userId rest : string) :
  userId <> "" ->
  Shape.all_of Regex.mention_class userId = true ->
  Formatter.maskMentions ("<@" +:+ userId +:+ ">" +:+ rest)
  = Formatter.span_tag "badge bg-primary"
      ("@User " +:+ Str.slice_last4 userId)
    +:+ Formatter.maskMentions rest.
Proof.
  intros Hne Hid. unfold Formatter.maskMentions, Regex.replace_all.
  change ("<@" +:+ userId +:+ ">" +:+ rest)
    with (String "<" (String "@" (userId +:+ String ">" rest))).
  rewrite PassFacts.replace_go_cons, FormatterFacts.mention_at by assumption.
  f_equal.
  replace (String "@" (userId +:+ String ">" rest))
    with (String "@" (userId +:+ ">") +:+ rest)
    by (simpl; now rewrite StrFacts.sapp_assoc).
  rewrite PassFacts.replace_go_skip.
  apply FormatterFacts.mention_go_prev.
Qed.

Lemma maskMentions_replaces_leading_mention_witness :
  Shape.all_of Regex.mention_class "U123ABCD" = true
  /\ Formatter.maskMentions "<@U123ABCD> and <@U7>"
     = Formatter.span_tag "badge bg-primary" "@User ABCD"
       +:+ " and " +:+ Formatter.span_tag "badge bg-primary" "@User U7".
Proof.
  split; [reflexivity|].
  apply (maskMentions_replaces_leading_mention "U123ABCD" " and <@U7>");
    [discriminate | reflexivity].
Defined.

(** X3.  [maskMentions] changes nothing in a text that holds no opening
    angle bracket. *)
Theorem maskMentions_keeps_plain_text (text : string) :
  Shape.lacks "<" text = true -> Formatter.maskMentions text = text.
Proof. intros H. now apply FormatterFacts.mention_go_plain. Qed.

Lemma maskMentions_keeps_plain_text_witness :
  Shape.lacks "<" "ping @U123ABCD please" = true
  /\ Formatter.maskMentions "ping @U123ABCD please" = "ping @U123ABCD please".
Proof.
  split; [reflexivity|].
  now apply (maskMentions_keeps_plain_text "ping @U123ABCD please").
Defined.


Module HighlightFacts.

Import Str Regex Formatter Tokens TokenPass StrFacts PassFacts.

Lemma highlight_as_tokens (text : string) :
  highlight text = highlight_tokens text.
Proof.
  unfold highlight, highlight_tokens.
  rewrite <- (tokenize_flat text) at 1.
  destruct (highlightKeywords_tokens problemKeywords danger_open span_close
              eq_refl eq_refl (tokenize text) (tokenize_normal text))
    as [E1 N1].
  change (highlightKeywords problemKeywords danger (flat (tokenize text)))
    with (highlightKeywords problemKeywords
            (fun w => danger_open +:+ w +:+ span_close) (flat (tokenize text))).
  rewrite E1.
  destruct (highlightKeywords_tokens questionKeywords info_open span_close
              eq_refl eq_refl _ N1) as [E2 _].
  change (highlightKeywords questionKeywords info)
    with (highlightKeywords questionKeywords
            (fun w => info_open +:+ w +:+ span_close)).
  rewrite E2.
  unfold highlightQuestionMarks, replace_all. rewrite literal_pass_qmark.
  apply (passes_render (tokenize text) (tokenize_normal text)).
Qed.

Lemma lacks_app x a b :
  Shape.lacks x (a +:+ b) = Shape.lacks x a && Shape.lacks x b.
Proof.
  induction a as [|c a IH]; simpl; [reflexivity|].
  now rewrite IH, andb_assoc.
Qed.

Lemma is_keyword_app ks1 ks2 w :
  is_keyword (ks1 ++ ks2) w = is_keyword ks1 w || is_keyword ks2 w.
Proof. apply existsb_app. Qed.

Lemma render_plain ts :
  hits (problemKeywords ++ questionKeywords) ts = false ->
  Shape.lacks "?" (flat ts) = true ->
  concat (map render_token ts) = flat ts.
Proof.
  set (ks := problemKeywords ++ questionKeywords).
  induction ts as [|[w|c] ts IH]; intros Hh Hq; [reflexivity| |].
  - change (hits ks (Word w :: ts))
      with (is_keyword ks w || hits ks ts) in Hh.
    apply orb_false_iff in Hh as [Hw Hh]. unfold ks in Hw.
    rewrite is_keyword_app in Hw. apply orb_false_iff in Hw as [Hp Hk].
    change (flat (Word w :: ts)) with (w +:+ flat ts) in *.
    rewrite lacks_app in Hq. apply andb_true_iff in Hq as [_ Hq].
    change (concat (map render_token (Word w :: ts)))
      with (render_token (Word w) +:+ concat (map render_token ts)).
    unfold render_token at 1. rewrite Hp, Hk. f_equal. now apply IH.
  - change (hits ks (Sep c :: ts)) with (false || hits ks ts) in Hh.
    change (flat (Sep c :: ts)) with (String c (flat ts)) in *.
    simpl in Hq. apply andb_true_iff in Hq as [Hc Hq].
    apply negb_true_iff in Hc.
    change (concat (map render_token (Sep c :: ts)))
      with (render_token (Sep c) +:+ concat (map render_token ts)).
    unfold render_token at 1. rewrite Hc. simpl. f_equal.
    now apply IH.
Qed.

Lemma word_lacks_bracket w : all_word w = true -> Shape.lacks "<" w = true.
Proof.
  induction w as [|c w IH]; simpl; intros H; [reflexivity|].
  apply andb_true_iff in H as [Hc H]. rewrite (IH H), andb_true_r.
  destruct c as [[] [] [] [] [] [] [] []]; try reflexivity;
    vm_compute in Hc; discriminate.
Qed.

Lemma mention_go_app a : forall prev s,
  Shape.lacks "<" a = true ->
  replace_go (mention_matcher badge) 0 prev (a +:+ s)
  = a +:+ replace_go (mention_matcher badge) 0 prev s.
Proof.
  induction a as [|c a IH]; intros prev s H; [reflexivity|].
  simpl in H. apply andb_true_iff in H as [Hc H].
  apply negb_true_iff in Hc.
  change (String c a +:+ s) with (String c (a +:+ s)).
  rewrite replace_go_cons. unfold mention_matcher at 1.
  change (match_lit "<@" (String c (a +:+ s)))
    with (if Ascii.eqb "<" c then match_lit "@" (a +:+ s) else None).
  rewrite Ascii.eqb_sym, Hc. simpl. f_equal.
  rewrite (FormatterFacts.mention_go_prev _ 0 (Some c) prev). now apply IH.
Qed.

Lemma mask_head rest :
  is_word_opt (head rest) = false ->
  is_word_opt (head (maskMentions rest)) = false.
Proof.
  destruct rest as [|c r]; [reflexivity|]. intros Hc.
  unfold maskMentions, replace_all. rewrite replace_go_cons.
  destruct (mention_matcher badge None (String c r)) as [[[|n] x]|] eqn:E;
    try exact Hc.
  unfold mention_matcher in E.
  destruct (match_lit "<@" (String c r)); [|discriminate].
  destruct (span mention_class s) as [u v].
  destruct u; [discriminate|]. destruct (head v); [|discriminate].
  destruct (Ascii.eqb a0 (ascii_of_nat 62)); [|discriminate].
  injection E as _ <-. reflexivity.
Qed.

Lemma tokenize_word w : forall r,
  nonempty w = true -> all_word w = true -> is_word_opt (head r) = false ->
  tokenize (w +:+ r) = Word w :: tokenize r.
Proof.
  induction w as [|c w IH]; intros r Hne Hw Hr; [discriminate|].
  simpl in Hw. apply andb_true_iff in Hw as [Hc Hw].
  change (tokenize (String c w +:+ r))
    with (if is_word c then
            match tokenize (w +:+ r) with
            | Word v :: ts => Word (String c v) :: ts
            | ts => Word (String c "") :: ts
            end
          else Sep c :: tokenize (w +:+ r)).
  rewrite Hc. destruct w as [|d w].
  - simpl. destruct r as [|x r]; [reflexivity|].
    simpl in Hr |- *. rewrite Hr. reflexivity.
  - now rewrite (IH r eq_refl Hw Hr).
Qed.

(** A text that starts with a word: the word is rendered as a token and
    the rest of the text is masked and highlighted on its own. *)
Lemma highlight_mask_word w rest :
  nonempty w = true -> all_word w = true ->
  is_word_opt (head rest) = false ->
  highlight (maskMentions (w +:+ rest))
  = render_token (Word w) +:+ highlight (maskMentions rest).
Proof.
  intros Hne Hw Hr.
  assert (Em : maskMentions (w +:+ rest) = w +:+ maskMentions rest).
  { unfold maskMentions, replace_all.
    now rewrite mention_go_app by now apply word_lacks_bracket. }
  rewrite Em, !highlight_as_tokens. unfold highlight_tokens.
  now rewrite (tokenize_word w _ Hne Hw (mask_head rest Hr)).
Qed.

End HighlightFacts.

(** X4.  The three highlighting passes change nothing in a text none of
    whose words is one of the eighteen keywords and that holds no question
    mark. *)
Theorem highlight_keeps_text_without_keyword (text : string) :
  TokenPass.hits (Formatter.problemKeywords ++ Formatter.questionKeywords)
    (Tokens.tokenize text) = false ->
  Shape.lacks "?" text = true ->
  Formatter.highlight text = text.
Proof.
  intros Hh Hq. rewrite HighlightFacts.highlight_as_tokens.
  unfold Tokens.highlight_tokens.
  rewrite HighlightFacts.render_plain;
    [apply PassFacts.tokenize_flat | exact Hh |].
  now rewrite PassFacts.tokenize_flat.
Qed.

Lemma highlight_keeps_text_without_keyword_witness :
  Formatter.highlight "helpless team, cannot build" = "helpless team, cannot build".
Proof.
  apply (highlight_keeps_text_without_keyword "helpless team, cannot build");
    reflexivity.
Defined.

(** X5.  A message text that starts with a keyword, as a whole word, is
    formatted to a text that starts with the opening bracket of the span
    around the keyword: the capitalization step has no effect on it and the
    first letter keeps its case. *)
Theorem formatText_leaves_leading_keyword_uncapitalized (w rest : string) :
  TokenPass.nonempty w = true -> TokenPass.all_word w = true ->
  Regex.is_word_opt (Str.head rest) = false ->
  Tokens.is_keyword (Formatter.problemKeywords ++ Formatter.questionKeywords) w
  = true ->
  Str.head (Formatter.formatText (w +:+ rest)) = Some "<"%char
  /\ Formatter.formatText (w +:+ rest)
     = Formatter.highlight (Formatter.maskMentions (w +:+ rest))
  /\ exists cls,
       Formatter.formatText (w +:+ rest)
       = Formatter.span_tag cls w
         +:+ Formatter.highlight (Formatter.maskMentions rest).
Proof.
  intros Hne Hw Hr Hk. unfold Formatter.formatText.
  rewrite (HighlightFacts.highlight_mask_word w rest Hne Hw Hr).
  rewrite HighlightFacts.is_keyword_app in Hk.
  assert (G : exists cls,
            Tokens.render_token (Tokens.Word w) = Formatter.span_tag cls w).
  { unfold Tokens.render_token.
    destruct (Tokens.is_keyword Formatter.problemKeywords w) eqn:Ep.
    - now exists "text-danger fw-bold".
    - rewrite orb_false_l in Hk. rewrite Hk.
      now exists "text-info fw-bold". }
  destruct G as [cls ->].
  repeat split; try reflexivity. now exists cls.
Qed.

Lemma formatText_leaves_leading_keyword_uncapitalized_witness :
  Str.head (Formatter.formatText "why <@U42> is it broken?") = Some "<"%char.
Proof.
  now apply (formatText_leaves_leading_keyword_uncapitalized
               "why" " <@U42> is it broken?").
Defined.

(** X6.  A message text that starts with a word that is no keyword is
    formatted to that word with its first code unit in upper case, followed
    by the rest of the text formatted on its own. *)
Theorem formatText_capitalizes_leading_plain_word (w rest : string) :
  TokenPass.nonempty w = true -> TokenPass.all_word w = true ->
  Regex.is_word_opt (Str.head rest) = false ->
  Tokens.is_keyword (Formatter.problemKeywords ++ Formatter.questionKeywords) w
  = false ->
  Formatter.formatText (w +:+ rest)
  = Str.capitalize w +:+ Formatter.highlight (Formatter.maskMentions rest).
Proof.
  intros Hne Hw Hr Hk. unfold Formatter.formatText.
  rewrite (HighlightFacts.highlight_mask_word w rest Hne Hw Hr).
  rewrite HighlightFacts.is_keyword_app in Hk.
  apply orb_false_iff in Hk as [Hp Hq].
  unfold Tokens.render_token. rewrite Hp, Hq.
  now destruct w.
Qed.

Lemma formatText_capitalizes_leading_plain_word_witness :
  Formatter.formatText "our build is broken"
  = "Our build is " +:+ Formatter.danger "broken".
Proof.
  now apply (formatText_capitalizes_leading_plain_word
               "our" " build is broken").
Defined.

Module CountFacts.

Import Str Regex Formatter StrFacts.

Lemma span_app p s : forall a b, span p s = (a, b) -> s = a +:+ b.
Proof.
  induction s as [|c s IH]; intros a b E; simpl in E.
  - now injection E as <- <-.
  - destruct (p c).
    + destruct (span p s) as [a' b'] eqn:Es. injection E as <- <-.
      simpl. now rewrite <- (IH a' b' eq_refl).
    + now injection E as <- <-.
Qed.

Lemma span_all p s : forall a b,
  span p s = (a, b) -> Shape.all_of p a = true.
Proof.
  induction s as [|c s IH]; intros a b E; simpl in E.
  - now injection E as <- <-.
  - destruct (p c) eqn:Ec.
    + destruct (span p s) as [a' b'] eqn:Es. injection E as <- <-.
      simpl. rewrite Ec. now apply (IH a' b').
    + now injection E as <- <-.
Qed.

Lemma digit_no_dot c : is_digit c = true -> Ascii.eqb c "." = false.
Proof.
  intros H. destruct (Ascii.eqb_spec c ".") as [->|]; [|reflexivity].
  vm_compute in H. discriminate.
Qed.

(** The scan passes the code units of a match without counting. *)
Lemma count_go_skip (m : matcher) a : forall x b prev,
  count_go m (S (String.length a)) prev (a +:+ String x b)
  = count_go m 0 (Some x) b.
Proof.
  induction a as [|y a IH]; intros x b prev; [reflexivity|].
  simpl. apply IH.
Qed.

Lemma dots_behind_digits a : forall behind r,
  Shape.all_of is_digit a = true ->
  Shape.dots_behind behind (a +:+ String "." r)
  = (if behind || negb (String.eqb a "") then 1 else 0)
    + Shape.dots_behind false r.
Proof.
  induction a as [|c a IH]; intros behind r Ha; simpl.
  - now rewrite andb_true_r, orb_false_r.
  - simpl in Ha. apply andb_true_iff in Ha as [Hc Ha].
    rewrite (digit_no_dot c Hc), andb_false_r, Hc, (IH true r Ha).
    rewrite orb_true_r. reflexivity.
Qed.

Lemma dots_behind_head behind s :
  match s with String x _ => Ascii.eqb x "." = false | "" => True end ->
  Shape.dots_behind behind s = Shape.dots_behind false s.
Proof.
  destruct s as [|x s]; [reflexivity|]. simpl. intros ->.
  now rewrite andb_false_r.
Qed.

(** A scan that is not inside a match counts the dots behind a digit. *)
Lemma count_go_dots n : forall s,
  String.length s <= n -> forall prev,
  count_go enumeration_matcher 0 prev s = Shape.dots_behind false s.
Proof.
  induction n as [|n IH]; intros s Hn prev.
  - destruct s; [reflexivity | simpl in Hn; lia].
  - destruct s as [|c s]; [reflexivity|]. simpl in Hn.
    cbn [count_go Shape.dots_behind]. rewrite andb_false_l, Nat.add_0_l.
    unfold enumeration_matcher at 1. cbn [span].
    destruct (is_digit c) eqn:Ec.
    + destruct (span is_digit s) as [a b] eqn:Es.
      pose proof (span_app _ _ _ _ Es) as Hs.
      pose proof (span_all _ _ _ _ Es) as Ha.
      assert (Hplain :
                match b with
                | String x _ => Ascii.eqb x "." = false
                | "" => True
                end ->
                count_go enumeration_matcher 0 (Some c) s
                = Shape.dots_behind true s).
      { intros Hb. rewrite (IH s ltac:(lia)). symmetry.
        apply dots_behind_head. subst s.
        destruct a as [|y a]; [exact Hb|].
        simpl in Ha. apply andb_true_iff in Ha as [Hy _].
        exact (digit_no_dot y Hy). }
      destruct b as [|x b]; cbn [head].
      * now apply Hplain.
      * change (ascii_of_nat 46) with "."%char.
        destruct (Ascii.eqb x ".") eqn:Ex; [|now apply Hplain].
        apply Ascii.eqb_eq in Ex. subst x s.
        cbn [String.length]. rewrite count_go_skip.
        rewrite (dots_behind_digits a true b Ha). cbn [orb].
        rewrite (IH b); [reflexivity|].
        rewrite sapp_length in Hn. simpl in Hn. lia.
    + cbn [head]. rewrite (IH s ltac:(lia)). reflexivity.
Qed.

End CountFacts.

(** X7.  The problems badge counts the dots that stand directly behind a
    digit: every such dot ends one match of the pattern, whatever the
    digits before it, and nothing else is counted. *)
Theorem countEnumerations_counts_dots_behind_digits (text : string) :
  Formatter.countEnumerations text = Shape.dots_after_digit text.
Proof.
  unfold Formatter.countEnumerations, Regex.count_all, Shape.dots_after_digit.
  exact (CountFacts.count_go_dots (String.length text) text (le_n _) None).
Qed.

(** ** The insight panels *)

Module InsightFacts.

Import Js JsFacts Dashboard DashboardFacts.

Lemma text_field_value m key fallback s :
  Shape.text_field m key fallback = Some s ->
  or_else (default VUndefined (m !! key)) (VStr fallback) = VStr s.
Proof.
  unfold Shape.text_field.
  destruct (m !! key) as [[| |b|z|x|l|g]|]; simpl; intros E;
    try discriminate; injection E as <-; try reflexivity.
  unfold or_else. simpl. now destruct (String.eqb x "").
Qed.

Lemma not_text_value (m : gmap string value) (key fallback : string) :
  Shape.not_text (m !! key) = true ->
  emphasize_value (or_else (default VUndefined (m !! key)) (VStr fallback))
  = throw.
Proof.
  unfold Shape.not_text, or_else.
  destruct (m !! key) as [v|]; [|discriminate]. simpl.
  destruct v; try discriminate; intros H; rewrite H; reflexivity.
Qed.

Lemma emphasize_value_pure v :
  emphasize_value v = throw \/ exists s, emphasize_value v = ret s.
Proof. destruct v; simpl; eauto. Qed.

Ltac targets :=
  unfold has_elements, Shape.insight_targets, insight_ids in *;
  simpl app in *;
  repeat match goal with
         | H : Forall _ (_ :: _) |- _ => apply Forall_cons in H as [? H]
         end.

Lemma fetchInsights_success d m p q t :
  has_elements Shape.insight_targets d ->
  Shape.text_field m "problems" "No problems detected recently." = Some p ->
  Shape.text_field m "questions" "No questions found recently." = Some q ->
  Shape.text_field m "trending" "No trending topics identified." = Some t ->
  fetchInsights (Response true (Some (VObj m))) d
  = (<["trendsCount" :=
        TextContent (pretty (Formatter.countHeaders (Formatter.emphasize t)))]>
       (<["questionsCount" :=
           TextContent
             (pretty (Formatter.countBullets (Formatter.emphasize q)))]>
          (<["problemsCount" :=
              TextContent
                (pretty (Formatter.countEnumerations (Formatter.emphasize p)))]>
             (<["trendingInsight" := InnerHTML (Formatter.emphasize t)]>
                (<["questionsInsight" := InnerHTML (Formatter.emphasize q)]>
                   (<["problemsInsight" := InnerHTML (Formatter.emphasize p)]>
                      d))))),
     Some tt).
Proof.
  intros H Hp Hq Ht. targets.
  unfold fetchInsights, try_catch, show_insights. simpl fetch_json.
  unfold bind at 1. unfold ret at 1.
  simpl prop. unfold lift.
  unfold bind at 1. unfold ret at 1.
  unfold bind at 1. unfold ret at 1.
  unfold bind at 1. unfold ret at 1.
  rewrite (text_field_value _ _ _ _ Hp), (text_field_value _ _ _ _ Hq),
    (text_field_value _ _ _ _ Ht).
  unfold emphasize_value.
  unfold bind at 1. unfold ret at 1.
  unfold bind at 1. unfold ret at 1.
  unfold bind at 1. unfold ret at 1.
  cbv zeta.
  rewrite !then_set_html by present.
  rewrite !then_set_text by present.
  now rewrite set_text_present by present.
Qed.

Lemma bind_throw {A B} (m : js A) (k : A -> js B) d :
  m = throw -> bind m k d = (d, None).
Proof. now intros ->. Qed.

Lemma bind_ret {A B} (m : js A) (k : A -> js B) a d :
  m = ret a -> bind m k d = k a d.
Proof. now intros ->. Qed.

Lemma show_insights_not_text m d :
  Shape.not_text (m !! "problems") = true
  \/ Shape.not_text (m !! "questions") = true
  \/ Shape.not_text (m !! "trending") = true ->
  show_insights (VObj m) d = (d, None).
Proof.
  intros H. unfold show_insights. simpl prop. unfold lift.
  rewrite !(bind_ret (ret _) _ _ _ eq_refl).
  destruct (emphasize_value_pure
              (or_else (default VUndefined (m !! "problems"))
                 (VStr "No problems detected recently."))) as [E1|[s1 E1]];
    [now apply bind_throw|].
  rewrite (bind_ret _ _ _ _ E1).
  destruct H as [H|H].
  { rewrite (not_text_value _ _ _ H) in E1.
    discriminate (f_equal (fun f => snd (f d)) E1). }
  destruct (emphasize_value_pure
              (or_else (default VUndefined (m !! "questions"))
                 (VStr "No questions found recently."))) as [E2|[s2 E2]];
    [now apply bind_throw|].
  rewrite (bind_ret _ _ _ _ E2).
  destruct H as [H|H].
  { rewrite (not_text_value _ _ _ H) in E2.
    discriminate (f_equal (fun f => snd (f d)) E2). }
  apply bind_throw. now apply not_text_value.
Qed.

End InsightFacts.

(** X8.  On a page that has the insight panels and the three count
    badges: for a response whose three fields are texts, or absent, [null]
    or empty, each panel shows its text with the bold markers turned into
    markup, or the fallback sentence of the panel; each badge shows the
    count of markers in what its panel shows; no other element changes. *)
Theorem insights_show_texts_and_counts
    (d : gmap string Js.content) (m : gmap string Js.value)
    (p q t : string) :
  Dashboard.has_elements Shape.insight_targets d ->
  Shape.text_field m "problems" "No problems detected recently." = Some p ->
  Shape.text_field m "questions" "No questions found recently." = Some q ->
  Shape.text_field m "trending" "No trending topics identified." = Some t ->
  let d' := (Dashboard.fetchInsights
               (Js.Response true (Some (Js.VObj m))) d).1 in
  d' !! "problemsInsight" = Some (Js.InnerHTML (Formatter.emphasize p))
  /\ d' !! "questionsInsight" = Some (Js.InnerHTML (Formatter.emphasize q))
  /\ d' !! "trendingInsight" = Some (Js.InnerHTML (Formatter.emphasize t))
  /\ d' !! "problemsCount"
     = Some (Js.TextContent
               (pretty (Formatter.countEnumerations (Formatter.emphasize p))))
  /\ d' !! "questionsCount"
     = Some (Js.TextContent
               (pretty (Formatter.countBullets (Formatter.emphasize q))))
  /\ d' !! "trendsCount"
     = Some (Js.TextContent
               (pretty (Formatter.countHeaders (Formatter.emphasize t))))
  /\ forall id, id ∉ Shape.insight_targets -> d' !! id = d !! id.
Proof.
  intros Hd Hp Hq Ht d'. subst d'.
  rewrite (InsightFacts.fetchInsights_success d m p q t Hd Hp Hq Ht).
  simpl. repeat split; try (now simplify_map_eq).
  intros id Hid. rewrite !lookup_insert_ne; try reflexivity;
    intros E; subst id; apply Hid;
    unfold Shape.insight_targets, Dashboard.insight_ids; set_solver.
Qed.

Lemma insights_show_texts_and_counts_witness :
  Dashboard.has_elements Shape.insight_targets Sample.elements
  /\ (let d' := (Dashboard.fetchInsights
                   (Js.Response true (Some (Js.VObj Sample.insights)))
                   Sample.elements).1 in
      d' !! "problemsInsight"
      = Some (Js.InnerHTML "1. <strong>build</strong> fails 2. no wifi")
      /\ d' !! "problemsCount" = Some (Js.TextContent "2")
      /\ d' !! "questionsInsight"
         = Some (Js.InnerHTML "No questions found recently.")
      /\ d' !! "questionsCount" = Some (Js.TextContent "0")).
Proof.
  assert (Hd : Dashboard.has_elements Shape.insight_targets Sample.elements).
  { repeat constructor; vm_compute; eexists; reflexivity. }
  split; [exact Hd|].
  destruct (insights_show_texts_and_counts Sample.elements Sample.insights
              "1. **build** fails 2. no wifi" "No questions found recently."
              "No trending topics identified." Hd eq_refl eq_refl eq_refl)
    as (H1 & H2 & _ & H4 & H5 & _).
  repeat split; assumption.
Defined.

(** X9.  When a field of the insights response holds something that is not
    a text (a number other than zero, [true], a list, an object), the
    sub-fetch writes nothing of the response: on a page that has the three
    panels it shows the error sentence in each and changes nothing else,
    the texts of the other fields included. *)
Theorem insights_reject_field_that_is_no_text
    (d : gmap string Js.content) (m : gmap string Js.value) :
  Dashboard.has_elements Dashboard.insight_ids d ->
  Shape.not_text (m !! "problems") = true
  \/ Shape.not_text (m !! "questions") = true
  \/ Shape.not_text (m !! "trending") = true ->
  Dashboard.fetchInsights (Js.Response true (Some (Js.VObj m))) d
  = (Dashboard.error_state Dashboard.Insights d, Some tt).
Proof.
  intros Hd Hm. unfold Dashboard.fetchInsights, Js.try_catch.
  simpl Js.fetch_json.
  rewrite (InsightFacts.bind_ret (Js.ret (Js.VObj m)) _ _ _ eq_refl).
  rewrite (InsightFacts.show_insights_not_text m d Hm).
  now apply DashboardFacts.insights_error_present.
Qed.

Lemma insights_reject_field_that_is_no_text_witness :
  Dashboard.has_elements Dashboard.insight_ids Sample.elements
  /\ (Dashboard.fetchInsights
        (Js.Response true
           (Some (Js.VObj (<["questions" := Js.VArr [Js.VStr "how?"]]>
                             Sample.insights))))
        Sample.elements).1 !! "problemsInsight"
     = Some (Js.TextContent "Error loading insights.").
Proof.
  assert (Hd : Dashboard.has_elements Dashboard.insight_ids Sample.elements).
  { repeat constructor; vm_compute; eexists; reflexivity. }
  split; [exact Hd|].
  assert (Hm : Shape.not_text
                 (<["questions" := Js.VArr [Js.VStr "how?"]]> Sample.insights
                  !! "questions") = true) by reflexivity.
  rewrite (insights_reject_field_that_is_no_text Sample.elements _ Hd
             (or_intror (or_introl Hm))).
  reflexivity.
Defined.

Module BadgeFacts.

Import Js JsFacts Dashboard DashboardFacts.

Lemma shown_stat_field (m : gmap string value) (key : string) (n : Z) :
  stat_field m key = Some n ->
  to_string (or_else (default VUndefined (m !! key)) (VNum 0)) = pretty n.
Proof.
  unfold stat_field.
  destruct (m !! key) as [[| |b|z|s|l|g]|]; simpl; intros E;
    try discriminate; try (injection E as <-; reflexivity).
  destruct (safe_integer z); [|discriminate]. injection E as <-.
  unfold or_else. simpl. destruct (Z.eqb_spec z 0); simpl; congruence.
Qed.

Lemma has_elements_after {A} (f : js A) ids d :
  keeps f -> has_elements ids d -> has_elements ids (f d).1.
Proof. intros Hk. apply has_elements_dom. apply Hk. Qed.

Lemma badges_after_insights d mi p q t :
  has_elements Shape.insight_targets d ->
  Shape.text_field mi "problems" "No problems detected recently." = Some p ->
  Shape.text_field mi "questions" "No questions found recently." = Some q ->
  Shape.text_field mi "trending" "No trending topics identified." = Some t ->
  (fetchInsights (Response true (Some (VObj mi))) d).1 !! "problemsCount"
  = Some (TextContent
            (pretty (Formatter.countEnumerations (Formatter.emphasize p))))
  /\ (fetchInsights (Response true (Some (VObj mi))) d).1 !! "questionsCount"
     = Some (TextContent
               (pretty (Formatter.countBullets (Formatter.emphasize q)))).
Proof.
  intros Hd Hp Hq Ht.
  rewrite (InsightFacts.fetchInsights_success d mi p q t Hd Hp Hq Ht).
  simpl. split; now simplify_map_eq.
Qed.

End BadgeFacts.

(** X10.  The problems and questions badges are written by both the stats
    fetch and the insights fetch, and the one that settles last decides
    what they show: after stats then insights, the counts of markers in the
    insight texts; after insights then stats, the fields of the stats
    response, which are counts (integers that a number holds exactly),
    [null] or absent. *)
Theorem shared_badges_show_the_last_writer
    (d : gmap string Js.content) (ms mi : gmap string Js.value)
    (problems questions : Z) (p q t : string) :
  Dashboard.has_elements (Dashboard.stat_ids ++ Shape.insight_targets) d ->
  Dashboard.stat_field ms "problems_count" = Some problems ->
  Dashboard.stat_field ms "questions_count" = Some questions ->
  Shape.text_field mi "problems" "No problems detected recently." = Some p ->
  Shape.text_field mi "questions" "No questions found recently." = Some q ->
  Shape.text_field mi "trending" "No trending topics identified." = Some t ->
  let stats := Dashboard.fetchStats (Js.Response true (Some (Js.VObj ms))) in
  let insights :=
    Dashboard.fetchInsights (Js.Response true (Some (Js.VObj mi))) in
  ((insights (stats d).1).1 !! "problemsCount"
   = Some (Js.TextContent
             (pretty (Formatter.countEnumerations (Formatter.emphasize p))))
   /\ (insights (stats d).1).1 !! "questionsCount"
      = Some (Js.TextContent
                (pretty (Formatter.countBullets (Formatter.emphasize q)))))
  /\ ((stats (insights d).1).1 !! "problemsCount"
      = Some (Js.TextContent (pretty problems))
      /\ (stats (insights d).1).1 !! "questionsCount"
         = Some (Js.TextContent (pretty questions))).
Proof.
  intros Hd Hp Hq Htp Htq Htt stats insights.
  apply DashboardFacts.has_elements_app in Hd as [Hs Hi].
  split.
  - assert (Hi' : Dashboard.has_elements Shape.insight_targets (stats d).1)
      by (apply BadgeFacts.has_elements_after;
          [apply DashboardFacts.keeps_fetchStats | exact Hi]).
    exact (BadgeFacts.badges_after_insights (stats d).1 mi p q t
             Hi' Htp Htq Htt).
  - assert (Hs' : Dashboard.has_elements Dashboard.stat_ids (insights d).1)
      by (apply BadgeFacts.has_elements_after;
          [apply DashboardFacts.keeps_fetchInsights | exact Hs]).
    subst stats.
    rewrite (DashboardFacts.fetchStats_success (insights d).1 ms Hs').
    cbv zeta. rewrite (BadgeFacts.shown_stat_field _ _ _ Hp),
      (BadgeFacts.shown_stat_field _ _ _ Hq).
    simpl. now simplify_map_eq.
Qed.

Lemma shared_badges_show_the_last_writer_witness :
  Dashboard.has_elements (Dashboard.stat_ids ++ Shape.insight_targets)
    Sample.elements
  /\ (let stats := Dashboard.fetchStats
                     (Js.Response true (Some (Js.VObj Sample.stats))) in
      let insights := Dashboard.fetchInsights
                        (Js.Response true (Some (Js.VObj Sample.insights))) in
      (insights (stats Sample.elements).1).1 !! "problemsCount"
      = Some (Js.TextContent "2")
      /\ (stats (insights Sample.elements).1).1 !! "problemsCount"
         = Some (Js.TextContent "0")).
Proof.
  assert (Hd : Dashboard.has_elements
                 (Dashboard.stat_ids ++ Shape.insight_targets)
                 Sample.elements).
  { repeat constructor; vm_compute; eexists; reflexivity. }
  split; [exact Hd|].
  destruct (shared_badges_show_the_last_writer Sample.elements Sample.stats
              Sample.insights 0 0 "1. **build** fails 2. no wifi"
              "No questions found recently." "No trending topics identified."
              Hd eq_refl eq_refl eq_refl eq_refl eq_refl)
    as [[H1 _] [H2 _]].
  split; [exact H1 | exact H2].
Defined.

(** ** The message list *)

Module MessageFacts.

Import Js JsFacts Dashboard DashboardFacts.

Lemma writes_nothing_ret {A} (a : A) : Shape.writes_nothing (ret a).
Proof. intros d. reflexivity. Qed.

Lemma writes_nothing_throw {A} : Shape.writes_nothing (@throw A).
Proof. intros d. reflexivity. Qed.

Lemma writes_nothing_lift {A} (o : option A) : Shape.writes_nothing (lift o).
Proof. destruct o; intros d; reflexivity. Qed.

Lemma writes_nothing_bind {A B} (m : js A) (k : A -> js B) :
  Shape.writes_nothing m -> (forall a, Shape.writes_nothing (k a)) ->
  Shape.writes_nothing (bind m k).
Proof.
  intros Hm Hk d. unfold bind. specialize (Hm d).
  destruct (m d) as [d' [a|]]; simpl in *; subst; [apply Hk | reflexivity].
Qed.

Section Clock.

Variable clock : value -> string.

Lemma render_message_pure v : Shape.writes_nothing (render_message clock v).
Proof.
  unfold render_message.
  repeat (apply writes_nothing_bind; [|intros ?]);
    try apply writes_nothing_lift; try apply writes_nothing_ret.
  - unfold format_value. destruct (or_else _ _);
      auto using writes_nothing_ret, writes_nothing_throw.
  - unfold user_suffix. destruct (or_else _ _);
      auto using writes_nothing_ret, writes_nothing_throw.
Qed.

Lemma render_messages_pure l : Shape.writes_nothing (render_messages clock l).
Proof.
  induction l as [|v l IH]; simpl; [apply writes_nothing_ret|].
  apply writes_nothing_bind; [apply render_message_pure|intros h].
  apply writes_nothing_bind; [exact IH|intros hs]. apply writes_nothing_ret.
Qed.

Lemma render_message_bad v d :
  Shape.bad_entry v = true -> (render_message clock v d).2 = None.
Proof.
  destruct v as [| |b|z|s|l|m]; try discriminate; try reflexivity.
  simpl. intros H. unfold render_message. simpl prop. unfold lift.
  rewrite !(InsightFacts.bind_ret (ret _) _ _ _ eq_refl).
  unfold Shape.not_text in H.
  destruct (m !! "text") as [t|]; [|discriminate].
  destruct t; try discriminate; unfold or_else;
    cbn [truthy from_option id] in *; try rewrite H; reflexivity.
Qed.

Lemma render_messages_bad l d :
  existsb Shape.bad_entry l = true -> (render_messages clock l d).2 = None.
Proof.
  induction l as [|v l IH]; simpl; [discriminate|]. intros H.
  unfold bind at 1.
  pose proof (render_message_pure v d) as Hp.
  destruct (render_message clock v d) as [d' [h|]] eqn:E;
    [|reflexivity].
  simpl in Hp. subst d'.
  destruct (Shape.bad_entry v) eqn:Hv.
  - pose proof (render_message_bad v d Hv) as Hb. rewrite E in Hb.
    discriminate.
  - simpl in H. specialize (IH H). unfold bind at 1.
    destruct (render_messages clock l d) as [d' [hs|]]; [discriminate|].
    reflexivity.
Qed.

Lemma render_message_entry m h d :
  Shape.entry_html clock m = Some h ->
  render_message clock (VObj m) d = (d, Some h).
Proof.
  unfold Shape.entry_html.
  destruct (Shape.text_field m "text" "") as [text|] eqn:Et; [|discriminate].
  destruct (Shape.text_field m "user" "Unknown") as [user|] eqn:Eu;
    [|discriminate].
  destruct (printable _ && Shape.ascii_head text); [|discriminate].
  intros H. injection H as <-.
  unfold render_message. simpl prop. unfold lift.
  rewrite !(InsightFacts.bind_ret (ret _) _ _ _ eq_refl).
  rewrite (InsightFacts.text_field_value _ _ _ _ Et),
    (InsightFacts.text_field_value _ _ _ _ Eu).
  reflexivity.
Qed.

Lemma render_messages_entries l : forall htmls d,
  Forall2 (fun m h => Shape.entry_html clock m = Some h) l htmls ->
  render_messages clock (VObj <$> l) d = (d, Some htmls).
Proof.
  induction l as [|m l IH]; intros htmls d H.
  - apply Forall2_nil_inv_l in H as ->. reflexivity.
  - apply Forall2_cons_inv_l in H as (h & hs & Hm & Hl & ->).
    change (render_messages clock (VObj <$> m :: l))
      with (let! x := render_message clock (VObj m) in
            let! xs := render_messages clock (VObj <$> l) in
            ret (x :: xs)).
    unfold bind at 1. rewrite (render_message_entry m h d Hm).
    unfold bind at 1. now rewrite (IH hs d Hl).
Qed.

End Clock.

End MessageFacts.

(** X11.  On a page that has the message list: for a response whose
    messages are objects with a text and a user that are texts or missing,
    a text that starts with a code unit below 128 and a time stamp that
    converts to a text, the list shows one block for each message, in the
    order of the
    response; the block holds the time of the message, the last four code
    units of the user ("nown" when the user is missing) and the formatted
    text. *)
Theorem messages_render_in_order
    (clock : Js.value -> string) (d : gmap string Js.content)
    (body : gmap string Js.value) (l : list (gmap string Js.value))
    (htmls : list string) :
  is_Some (d !! "recentMessages") ->
  body !! "messages" = Some (Js.VArr (Js.VObj <$> l)) ->
  l <> [] ->
  Forall2 (fun m h => Shape.entry_html clock m = Some h) l htmls ->
  Dashboard.fetchRecentMessages clock
    (Js.Response true (Some (Js.VObj body))) d
  = (<["recentMessages" := Js.InnerHTML (String.concat "" htmls)]> d,
     Some tt).
Proof.
  intros Hd Hb Hl Hh.
  unfold Dashboard.fetchRecentMessages, Js.try_catch, Dashboard.show_messages.
  simpl Js.fetch_json.
  rewrite (InsightFacts.bind_ret (Js.ret (Js.VObj body)) _ _ _ eq_refl).
  simpl Js.prop. unfold Js.lift.
  rewrite (InsightFacts.bind_ret (Js.ret _) _ _ _ eq_refl).
  rewrite Hb. cbn [from_option id]. unfold Js.or_else. cbn [Js.truthy].
  destruct l as [|m l]; [congruence|].
  change (Dashboard.length_is_zero (Js.VArr (Js.VObj <$> m :: l))) with false.
  cbv iota. unfold Dashboard.map_messages, Js.bind.
  rewrite (MessageFacts.render_messages_entries clock (m :: l) htmls d Hh).
  now rewrite JsFacts.set_html_present by assumption.
Qed.

Lemma messages_render_in_order_witness :
  is_Some (Sample.elements !! "recentMessages")
  /\ (Dashboard.fetchRecentMessages Sample.clock
        (Js.Response true (Some (Js.VObj Sample.messages_body)))
        Sample.elements).1 !! "recentMessages"
     = Some (Js.InnerHTML
               (Dashboard.message_html "12:00:00" "ABCD"
                  ("Is the build " +:+ Formatter.danger "broken")
                +:+ Dashboard.message_html "12:00:00" "nown" "")).
Proof.
  assert (Hd : is_Some (Sample.elements !! "recentMessages")).
  { vm_compute. eexists. reflexivity. }
  split; [exact Hd|].
  rewrite (messages_render_in_order Sample.clock Sample.elements
             Sample.messages_body Sample.messages
             [Dashboard.message_html "12:00:00" "ABCD"
                ("Is the build " +:+ Formatter.danger "broken");
              Dashboard.message_html "12:00:00" "nown" ""]
             Hd eq_refl).
  - simpl. rewrite lookup_insert_eq. reflexivity.
  - discriminate.
  - constructor; [reflexivity|]. constructor; [reflexivity|]. constructor.
Defined.

(** X12.  One entry that cannot be rendered spoils the whole list: when
    some message of the response is [null], or has a text that is no text,
    no block is shown, not even for the messages before it, and the list
    shows the error paragraph. *)
Theorem messages_fail_as_a_whole
    (clock : Js.value -> string) (d : gmap string Js.content)
    (body : gmap string Js.value) (l : list Js.value) :
  is_Some (d !! "recentMessages") ->
  body !! "messages" = Some (Js.VArr l) ->
  existsb Shape.bad_entry l = true ->
  Dashboard.fetchRecentMessages clock
    (Js.Response true (Some (Js.VObj body))) d
  = (<["recentMessages" := Js.InnerHTML Dashboard.messages_error]> d,
     Some tt).
Proof.
  intros Hd Hb Hl.
  unfold Dashboard.fetchRecentMessages, Js.try_catch, Dashboard.show_messages.
  simpl Js.fetch_json.
  rewrite (InsightFacts.bind_ret (Js.ret (Js.VObj body)) _ _ _ eq_refl).
  simpl Js.prop. unfold Js.lift.
  rewrite (InsightFacts.bind_ret (Js.ret _) _ _ _ eq_refl).
  rewrite Hb. cbn [from_option id]. unfold Js.or_else. cbn [Js.truthy].
  destruct l as [|v l]; [discriminate|].
  change (Dashboard.length_is_zero (Js.VArr (v :: l))) with false.
  cbv iota. unfold Dashboard.map_messages. unfold Js.bind at 1.
  pose proof (MessageFacts.render_messages_pure clock (v :: l) d) as Hp.
  pose proof (MessageFacts.render_messages_bad clock (v :: l) d Hl) as Hn.
  destruct (Dashboard.render_messages clock (v :: l) d) as [d' r].
  simpl in Hp, Hn. subst d' r.
  now rewrite JsFacts.set_html_present by assumption.
Qed.

Lemma messages_fail_as_a_whole_witness :
  is_Some (Sample.elements !! "recentMessages")
  /\ (Dashboard.fetchRecentMessages Sample.clock
        (Js.Response true (Some (Js.VObj Sample.spoiled_body)))
        Sample.elements).1 !! "recentMessages"
     = Some (Js.InnerHTML Dashboard.messages_error).
Proof.
  assert (Hd : is_Some (Sample.elements !! "recentMessages")).
  { vm_compute. eexists. reflexivity. }
  split; [exact Hd|].
  rewrite (messages_fail_as_a_whole Sample.clock Sample.elements
             Sample.spoiled_body Sample.spoiled_messages Hd eq_refl eq_refl).
  simpl. apply lookup_insert_eq.
Defined.

(** ** The earlier script *)

Module LegacyFacts.

Import Js JsFacts Dashboard DashboardFacts.

Lemma legacy_render_message_entry clock v d :
  Shape.is_nullish v = false ->
  Legacy.render_message clock v d = (d, Some (Shape.legacy_entry_html clock v)).
Proof. destruct v; try discriminate; reflexivity. Qed.

Lemma legacy_render_messages_entries clock l : forall d,
  forallb (fun v => negb (Shape.is_nullish v)) l = true ->
  Legacy.render_messages clock l d
  = (d, Some (map (Shape.legacy_entry_html clock) l)).
Proof.
  induction l as [|v l IH]; intros d H; [reflexivity|].
  simpl in H. apply andb_true_iff in H as [Hv H].
  apply negb_true_iff in Hv.
  change (Legacy.render_messages clock (v :: l))
    with (let! x := Legacy.render_message clock v in
          let! xs := Legacy.render_messages clock l in
          ret (x :: xs)).
  unfold bind at 1. rewrite (legacy_render_message_entry clock v d Hv).
  unfold bind at 1. now rewrite (IH d H).
Qed.

Lemma show_panel_text id key fallback m s (k : js unit) d :
  is_Some (d !! id) ->
  Shape.text_field m key fallback = Some s ->
  (Legacy.show_panel id key fallback (VObj m);; k) d
  = k (<[id := TextContent s]> d).
Proof.
  intros Hd Hs. unfold Legacy.show_panel. simpl prop. unfold lift.
  unfold bind at 1. unfold bind at 1. unfold ret at 1.
  rewrite (InsightFacts.text_field_value _ _ _ _ Hs). simpl to_string.
  now rewrite set_text_present by assumption.
Qed.

End LegacyFacts.

(** X13.  The earlier script renders every message list whose entries are
    not [null] and hold fields that convert to a text (a text, a truth
    value, a safe integer, an object without a [toString] key of its own,
    a list of such): it prints a number, a list or an object where the
    current script reports an error. *)
Theorem legacy_messages_render_printable_fields
    (clock : Js.value -> string) (d : gmap string Js.content)
    (body : gmap string Js.value) (l : list Js.value) :
  is_Some (d !! "recentMessages") ->
  body !! "messages" = Some (Js.VArr l) ->
  l <> [] ->
  forallb Shape.legacy_entry l = true ->
  Legacy.fetchRecentMessages clock (Js.Response true (Some (Js.VObj body))) d
  = (<["recentMessages" :=
        Js.InnerHTML
          (String.concat "" (map (Shape.legacy_entry_html clock) l))]> d,
     Some tt).
Proof.
  intros Hd Hb Hl He.
  assert (Hn : forallb (fun v => negb (Shape.is_nullish v)) l = true).
  { apply forallb_forall. intros v Hv.
    apply (proj1 (forallb_forall _ _) He) in Hv. unfold Shape.legacy_entry in Hv.
    now repeat (apply andb_true_iff in Hv as [Hv _]). }
  unfold Legacy.fetchRecentMessages, Js.try_catch, Legacy.show_messages.
  simpl Js.fetch_json.
  rewrite (InsightFacts.bind_ret (Js.ret (Js.VObj body)) _ _ _ eq_refl).
  simpl Js.prop. unfold Js.lift.
  rewrite (InsightFacts.bind_ret (Js.ret _) _ _ _ eq_refl).
  rewrite Hb. cbn [from_option id]. unfold Js.or_else. cbn [Js.truthy].
  destruct l as [|v l]; [congruence|].
  change (Dashboard.length_is_zero (Js.VArr (v :: l))) with false.
  cbv iota. unfold Legacy.map_messages, Js.bind.
  rewrite (LegacyFacts.legacy_render_messages_entries clock (v :: l) d Hn).
  now rewrite JsFacts.set_html_present by assumption.
Qed.

Lemma legacy_messages_render_printable_fields_witness :
  is_Some (Sample.elements !! "recentMessages")
  /\ (Legacy.fetchRecentMessages Sample.clock
        (Js.Response true (Some (Js.VObj Sample.odd_body)))
        Sample.elements).1 !! "recentMessages"
     = Some (Js.InnerHTML (Legacy.message_html "12:00:00" "Unknown" "42"))
  /\ (Dashboard.fetchRecentMessages Sample.clock
        (Js.Response true (Some (Js.VObj Sample.odd_body)))
        Sample.elements).1 !! "recentMessages"
     = Some (Js.InnerHTML Dashboard.messages_error).
Proof.
  assert (Hd : is_Some (Sample.elements !! "recentMessages")).
  { vm_compute. eexists. reflexivity. }
  split; [exact Hd|]. split.
  - rewrite (legacy_messages_render_printable_fields Sample.clock Sample.elements
               Sample.odd_body Sample.odd_messages Hd eq_refl);
      [|discriminate|reflexivity].
    simpl. apply lookup_insert_eq.
  - reflexivity.
Defined.

(** X14.  For a response whose three fields are texts without a pair of
    asterisks, or are missing, the current script assigns to each panel
    the very string that the earlier script assigns there, as markup
    ([innerHTML]) where the earlier script assigns it as text
    ([textContent]); the earlier script leaves every other element as it
    is, the count badges included. *)
Theorem insights_agree_with_legacy_on_plain_texts
    (d : gmap string Js.content) (m : gmap string Js.value)
    (p q t : string) :
  Dashboard.has_elements Shape.insight_targets d ->
  Shape.text_field m "problems" "No problems detected recently." = Some p ->
  Shape.text_field m "questions" "No questions found recently." = Some q ->
  Shape.text_field m "trending" "No trending topics identified." = Some t ->
  Shape.no_double_asterisk p = true ->
  Shape.no_double_asterisk q = true ->
  Shape.no_double_asterisk t = true ->
  let old := (Legacy.fetchInsights
                (Js.Response true (Some (Js.VObj m))) d).1 in
  let new := (Dashboard.fetchInsights
                (Js.Response true (Some (Js.VObj m))) d).1 in
  (old !! "problemsInsight" = Some (Js.TextContent p)
   /\ new !! "problemsInsight" = Some (Js.InnerHTML p))
  /\ (old !! "questionsInsight" = Some (Js.TextContent q)
      /\ new !! "questionsInsight" = Some (Js.InnerHTML q))
  /\ (old !! "trendingInsight" = Some (Js.TextContent t)
      /\ new !! "trendingInsight" = Some (Js.InnerHTML t))
  /\ forall id, id ∉ Dashboard.insight_ids -> old !! id = d !! id.
Proof.
  intros Hd Hp Hq Ht Np Nq Nt old new.
  assert (Eold : old
            = <["trendingInsight" := Js.TextContent t]>
                (<["questionsInsight" := Js.TextContent q]>
                   (<["problemsInsight" := Js.TextContent p]> d))).
  { subst old.
    assert (Hin : forall id, id ∈ Shape.insight_targets -> is_Some (d !! id))
      by (now apply Forall_forall).
    assert (H1 : is_Some (d !! "problemsInsight"))
      by (apply Hin; unfold Shape.insight_targets, Dashboard.insight_ids;
          set_solver).
    assert (H2 : is_Some (d !! "questionsInsight"))
      by (apply Hin; unfold Shape.insight_targets, Dashboard.insight_ids;
          set_solver).
    assert (H3 : is_Some (d !! "trendingInsight"))
      by (apply Hin; unfold Shape.insight_targets, Dashboard.insight_ids;
          set_solver).
    unfold Legacy.fetchInsights, Js.try_catch, Legacy.show_insights.
    simpl Js.fetch_json.
    rewrite (InsightFacts.bind_ret (Js.ret (Js.VObj m)) _ _ _ eq_refl).
    rewrite (LegacyFacts.show_panel_text _ _ _ _ _ _ _ H1 Hp).
    rewrite (LegacyFacts.show_panel_text _ _ _ _ _ _ _
               ltac:(apply lookup_insert_is_Some'; right; exact H2) Hq).
    unfold Legacy.show_panel. simpl Js.prop. unfold Js.lift, Js.bind, Js.ret.
    rewrite (InsightFacts.text_field_value _ _ _ _ Ht). simpl Js.to_string.
    now rewrite JsFacts.set_text_present by DashboardFacts.present. }
  assert (Enew : new
            = (Dashboard.fetchInsights
                 (Js.Response true (Some (Js.VObj m))) d).1) by reflexivity.
  rewrite (InsightFacts.fetchInsights_success d m p q t Hd Hp Hq Ht) in Enew.
  unfold Formatter.emphasize, Regex.replace_all in Enew.
  rewrite (FormatterFacts.emphasize_go_none p None Np),
    (FormatterFacts.emphasize_go_none q None Nq),
    (FormatterFacts.emphasize_go_none t None Nt) in Enew.
  rewrite Eold, Enew. simpl.
  repeat split; try (now simplify_map_eq).
  intros id Hid. rewrite !lookup_insert_ne; try reflexivity;
    intros E; subst id; apply Hid; unfold Dashboard.insight_ids; set_solver.
Qed.

Lemma insights_agree_with_legacy_on_plain_texts_witness :
  Dashboard.has_elements Shape.insight_targets Sample.elements
  /\ (Legacy.fetchInsights
        (Js.Response true (Some (Js.VObj Sample.plain_insights)))
        Sample.elements).1 !! "trendingInsight"
     = Some (Js.TextContent "Docker: 3 * 2 teams")
  /\ (Dashboard.fetchInsights
        (Js.Response true (Some (Js.VObj Sample.plain_insights)))
        Sample.elements).1 !! "trendingInsight"
     = Some (Js.InnerHTML "Docker: 3 * 2 teams").
Proof.
  assert (Hd : Dashboard.has_elements Shape.insight_targets Sample.elements).
  { repeat constructor; vm_compute; eexists; reflexivity. }
  split; [exact Hd|].
  destruct (insights_agree_with_legacy_on_plain_texts Sample.elements
              Sample.plain_insights "No problems detected recently."
              "No questions found recently." "Docker: 3 * 2 teams"
              Hd eq_refl eq_refl eq_refl eq_refl eq_refl eq_refl)
    as (_ & _ & Ht & _).
  exact Ht.
Defined.

(** ** The chat *)

Module TranscriptFacts.

Import Js Chat.

Lemma indicators_app a b :
  Shape.indicators (a ++ b) = Shape.indicators a + Shape.indicators b.
Proof. unfold Shape.indicators. now rewrite List.filter_app, length_app. Qed.

Lemma turns_app a b : Shape.turns (a ++ b) = Shape.turns a ++ Shape.turns b.
Proof. apply List.filter_app. Qed.

Lemma indicators_hideLoading w :
  Shape.indicators (hideLoading w) = pred (Shape.indicators w).
Proof.
  induction w as [|[s h|] w IH]; simpl; [reflexivity| |reflexivity].
  exact IH.
Qed.

Lemma turns_hideLoading w : Shape.turns (hideLoading w) = Shape.turns w.
Proof.
  induction w as [|[s h|] w IH]; simpl; [reflexivity| |reflexivity].
  now rewrite IH.
Qed.

Lemma handleSend_cases c :
  handleSend c = c
  \/ (exists text,
        text <> ""
        /\ chatWindow (handleSend c)
           = chatWindow c ++ [bubble text "user"; LoadingIndicator]
        /\ pending (handleSend c) = pending c ++ [text]
        /\ userInput_disabled (handleSend c) = true
        /\ sendBtn_disabled (handleSend c) = true).
Proof.
  unfold handleSend. cbv zeta.
  destruct (String.eqb (Str.trim (userInput_value c)) "") eqn:E;
    [now left|].
  right. exists (Str.trim (userInput_value c)).
  apply String.eqb_neq in E. repeat split; try assumption.
  simpl. unfold showLoading, addMessage. now rewrite <- List.app_assoc.
Qed.

Lemma handleSend_value s c :
  chatWindow (set_value s c) = chatWindow c
  /\ pending (set_value s c) = pending c.
Proof. now split. Qed.

(** What one event does to the transcript and to the queries in flight. *)
Lemma step_transcript c ev c' :
  step c ev = Some c' ->
  (chatWindow c' = chatWindow c /\ pending c' = pending c)
  \/ (exists text,
        chatWindow c' = chatWindow c ++ [bubble text "user"; LoadingIndicator]
        /\ pending c' = pending c ++ [text])
  \/ (exists i o,
        ev = Resolve i o /\ i < length (pending c)
        /\ chatWindow c'
           = hideLoading (chatWindow c)
             ++ [bubble (to_string (getAIResponse o)) "bot"]
        /\ pending c' = delete i (pending c)).
Proof.
  assert (Hs : forall c0, (chatWindow (handleSend c0) = chatWindow c0
                           /\ pending (handleSend c0) = pending c0)
                          \/ (exists text,
                                chatWindow (handleSend c0)
                                = chatWindow c0
                                  ++ [bubble text "user"; LoadingIndicator]
                                /\ pending (handleSend c0)
                                   = pending c0 ++ [text])).
  { intros c0. destruct (handleSend_cases c0) as [->|(t & _ & Hw & Hp & _)];
      [now left | right; now exists t]. }
  intros H. destruct ev as [s| | |i|i o]; simpl in H.
  - destruct (userInput_disabled c); [discriminate|]. injection H as <-.
    now left.
  - destruct (sendBtn_disabled c); [discriminate|]. injection H as <-.
    destruct (Hs c) as [?|?]; auto.
  - destruct (userInput_disabled c); [discriminate|]. injection H as <-.
    destruct (Hs c) as [?|?]; auto.
  - destruct (predefinedQueries !! i) as [q|]; [|discriminate].
    injection H as <-. destruct (Hs (set_value q c)) as [?|?]; auto.
  - unfold resume in H. destruct (pending c !! i) as [t|] eqn:E;
      [|discriminate].
    injection H as <-. right. right. exists i, o.
    repeat split. eapply lookup_lt_Some; eassumption.
Qed.

Lemma step_indicators c ev c' :
  Shape.indicators (chatWindow c) = length (pending c) ->
  step c ev = Some c' ->
  Shape.indicators (chatWindow c') = length (pending c').
Proof.
  intros Hc H.
  destruct (step_transcript c ev c' H)
    as [[-> ->]|[(t & -> & ->)|(i & o & _ & Hi & -> & ->)]].
  - exact Hc.
  - rewrite indicators_app, length_app, Hc. reflexivity.
  - rewrite indicators_app, indicators_hideLoading, Hc.
    rewrite length_delete by (apply lookup_lt_is_Some; exact Hi).
    simpl. change (Shape.indicators [bubble _ "bot"]) with 0. lia.
Qed.

Lemma step_turns c ev c' :
  step c ev = Some c' ->
  Shape.turns (chatWindow c) `prefix_of` Shape.turns (chatWindow c').
Proof.
  intros H.
  destruct (step_transcript c ev c' H)
    as [[-> _]|[(t & -> & _)|(i & o & _ & _ & -> & _)]].
  - reflexivity.
  - rewrite turns_app. now apply prefix_app_r.
  - rewrite turns_app, turns_hideLoading. now apply prefix_app_r.
Qed.

Lemma step_serial c ev c' :
  Shape.typed ev = true -> Shape.serial c -> step c ev = Some c' ->
  Shape.serial c'.
Proof.
  intros Ht Hc H.
  assert (Hs : forall c0, Shape.serial c0 ->
                          userInput_disabled c0 = false
                          \/ sendBtn_disabled c0 = false ->
                          Shape.serial (handleSend c0)).
  { intros c0 [(Hp & Hu & Hb)|(Hp & Hu & Hb)] Hen;
      [|destruct Hen; congruence].
    destruct (handleSend_cases c0) as [->|(t & _ & _ & Hp' & Hu' & Hb')];
      [now left|].
    right. rewrite Hp', Hp. now repeat split. }
  destruct ev as [s| | |i|i o]; try discriminate; simpl in H.
  - destruct (userInput_disabled c); [discriminate|]. now injection H as <-.
  - destruct (sendBtn_disabled c) eqn:E; [discriminate|]. injection H as <-.
    apply Hs; auto.
  - destruct (userInput_disabled c) eqn:E; [discriminate|].
    injection H as <-. apply Hs; auto.
  - unfold resume in H. destruct (pending c !! i) as [t|] eqn:E;
      [|discriminate].
    injection H as <-. left. simpl. repeat split.
    destruct Hc as [(Hp & _)|(Hp & _)]; [now rewrite Hp in E|].
    destruct (pending c) as [|x [|y l]]; try discriminate.
    destruct i; [reflexivity | discriminate].
Qed.

Lemma run_turns evs : forall c c',
  run c evs = Some c' ->
  Shape.turns (chatWindow c) `prefix_of` Shape.turns (chatWindow c').
Proof.
  induction evs as [|ev evs IH]; intros c c' H; simpl in H.
  - now injection H as <-.
  - destruct (step c ev) as [c1|] eqn:E; [|discriminate].
    etrans; [exact (step_turns c ev c1 E) | now apply IH].
Qed.

End TranscriptFacts.

(** X15.  As long as no quick-reply button is clicked, the chat has at most
    one query in flight, and the input field and the send button are
    disabled exactly while that query is pending. *)
Theorem typed_submissions_are_serialized
    (evs : list Chat.event) (c : Chat.chat) :
  forallb Shape.typed evs = true ->
  Chat.run Chat.initial evs = Some c ->
  length (Chat.pending c) <= 1
  /\ (Chat.pending c = [] ->
      Chat.userInput_disabled c = false /\ Chat.sendBtn_disabled c = false)
  /\ (Chat.pending c <> [] ->
      Chat.userInput_disabled c = true /\ Chat.sendBtn_disabled c = true).
Proof.
  intros Ht Hrun.
  assert (Hs : Shape.serial c).
  { assert (H0 : Shape.serial Chat.initial) by (left; now repeat split).
    revert Ht Hrun H0. generalize Chat.initial.
    induction evs as [|ev evs IH]; intros c0 Ht Hrun H0; simpl in *.
    - now injection Hrun as <-.
    - apply andb_true_iff in Ht as [Hev Ht].
      destruct (Chat.step c0 ev) as [c1|] eqn:E; [|discriminate].
      apply (IH c1 Ht Hrun).
      exact (TranscriptFacts.step_serial c0 ev c1 Hev H0 E). }
  destruct Hs as [(Hp & Hu & Hb)|(Hp & Hu & Hb)].
  - rewrite Hp. simpl. split; [lia|]. split; [auto | congruence].
  - split; [lia|]. split; [|auto].
    intros E. rewrite E in Hp. discriminate.
Qed.

Lemma typed_submissions_are_serialized_witness :
  let c := Chat.handleSend (Chat.set_value "any news?" Chat.initial) in
  Chat.run Chat.initial [Chat.Type_ "any news?"; Chat.PressEnter] = Some c
  /\ length (Chat.pending c) <= 1
  /\ Chat.step c Chat.ClickSend = None
  /\ Chat.step c Chat.PressEnter = None.
Proof.
  intros c.
  assert (Hrun : Chat.run Chat.initial
                   [Chat.Type_ "any news?"; Chat.PressEnter] = Some c)
    by reflexivity.
  split; [exact Hrun|].
  destruct (typed_submissions_are_serialized
              [Chat.Type_ "any news?"; Chat.PressEnter] c eq_refl Hrun)
    as (Hle & _ & Hdis).
  split; [exact Hle|].
  destruct (Hdis ltac:(discriminate)) as [Hu Hb].
  unfold Chat.step. now rewrite Hu, Hb.
Defined.

(** X16.  As long as the typed texts and the answers hold no opening angle
    bracket and the answers convert to a text, so that no markup enters a
    bubble: in every state the chat reaches, quick replies included, the
    chat window holds as many pending indicators as queries are in flight:
    every answer removes one, and none is left when nothing is pending. *)
Theorem one_indicator_for_each_pending_query
    (evs : list Chat.event) (c : Chat.chat) :
  forallb Shape.inert evs = true ->
  Chat.run Chat.initial evs = Some c ->
  Shape.indicators (Chat.chatWindow c) = length (Chat.pending c).
Proof.
  intros _ Hrun.
  eapply (ChatFacts.chat_run_invariant
            (fun c => Shape.indicators (Chat.chatWindow c)
                      = length (Chat.pending c)));
    [apply TranscriptFacts.step_indicators | | exact Hrun].
  reflexivity.
Qed.

Lemma one_indicator_for_each_pending_query_witness :
  exists c,
    Chat.run Chat.initial
      [Chat.ClickQuery 0; Chat.ClickQuery 1; Chat.Resolve 1 Js.NetworkError]
    = Some c
    /\ Shape.indicators (Chat.chatWindow c) = 1
    /\ length (Chat.pending c) = 1.
Proof.
  eexists. split; [reflexivity|].
  split; [|reflexivity].
  now rewrite (one_indicator_for_each_pending_query
                 [Chat.ClickQuery 0; Chat.ClickQuery 1;
                  Chat.Resolve 1 Js.NetworkError] _ eq_refl eq_refl).
Defined.

(** X17.  As long as no markup enters a bubble (the typed texts and the
    answers hold no opening angle bracket, and the answers convert to a
    text), the transcript only grows: the turns of the chat window, the
    pending indicators left aside, are kept in their order and new turns
    are put behind them. *)
Theorem transcript_is_append_only
    (evs evs' : list Chat.event) (c c' : Chat.chat) :
  forallb Shape.inert (evs ++ evs') = true ->
  Chat.run Chat.initial evs = Some c ->
  Chat.run c evs' = Some c' ->
  Shape.turns (Chat.chatWindow c) `prefix_of` Shape.turns (Chat.chatWindow c').
Proof. intros _ _. apply TranscriptFacts.run_turns. Qed.

Lemma transcript_is_append_only_witness :
  exists c c',
    Chat.run Chat.initial [Chat.ClickQuery 3] = Some c
    /\ Chat.run c [Chat.Resolve 0 (Js.Response false None); Chat.ClickQuery 0]
       = Some c'
    /\ Shape.turns (Chat.chatWindow c)
       `prefix_of` Shape.turns (Chat.chatWindow c').
Proof.
  do 2 eexists. split; [reflexivity|]. split; [reflexivity|].
  now apply (transcript_is_append_only [Chat.ClickQuery 3]
               [Chat.Resolve 0 (Js.Response false None); Chat.ClickQuery 0]).
Defined.

(** X18.  In a chat that no markup has entered, every answer that converts
    to a text ends one wait: it puts one AI turn behind the transcript and
    enables the input field and the send button again.  The turn is the
    apology whenever the call failed, and the text [undefined] when the
    body is an object without a reply. *)
Theorem answer_appends_one_turn
    (evs : list Chat.event) (c c' : Chat.chat) (i : nat) (o : Js.outcome) :
  forallb Shape.inert evs = true ->
  Chat.run Chat.initial evs = Some c ->
  Js.printable (Chat.getAIResponse o) = true ->
  Chat.step c (Chat.Resolve i o) = Some c' ->
  let answer := Js.to_string (Chat.getAIResponse o) in
  Shape.turns (Chat.chatWindow c')
  = Shape.turns (Chat.chatWindow c) ++ [Chat.bubble answer "bot"]
  /\ last (Chat.chatWindow c') = Some (Chat.bubble answer "bot")
  /\ Chat.userInput_disabled c' = false
  /\ Chat.sendBtn_disabled c' = false
  /\ (Js.failed o = true -> answer = Chat.apology)
  /\ (forall m : gmap string Js.value,
        o = Js.Response true (Some (Js.VObj m)) -> m !! "reply" = None ->
        answer = "undefined").
Proof.
  intros _ _ _ H answer.
  destruct (TranscriptFacts.step_transcript c _ c' H)
    as [[Hw Hp]|[(t & Hw & Hp)|(i' & o' & E & _ & Hw & _)]].
  - exfalso. simpl in H. unfold Chat.resume in H.
    destruct (Chat.pending c !! i) eqn:Ei; [|discriminate].
    injection H as <-. simpl in Hp.
    apply (f_equal length) in Hp.
    rewrite length_delete in Hp by (now rewrite Ei).
    apply lookup_lt_Some in Ei. lia.
  - exfalso. simpl in H. unfold Chat.resume in H.
    destruct (Chat.pending c !! i) eqn:Ei; [|discriminate].
    injection H as <-. simpl in Hp.
    apply (f_equal length) in Hp. rewrite length_app in Hp.
    pose proof (length_delete (Chat.pending c) i ltac:(now rewrite Ei)).
    simpl in Hp. lia.
  - injection E as <- <-. split; [|split].
    + rewrite Hw, TranscriptFacts.turns_app, TranscriptFacts.turns_hideLoading.
      reflexivity.
    + rewrite Hw. apply last_snoc.
    + simpl in H. unfold Chat.resume in H.
      destruct (Chat.pending c !! i); [|discriminate]. injection H as <-.
      repeat split.
      * intros Hf. subst answer. now destruct o as [|[] [v|]].
      * intros m -> Hm. subst answer. simpl. now rewrite Hm.
Qed.

Lemma answer_appends_one_turn_witness :
  let c := Chat.handleSend (Chat.set_value "any news?" Chat.initial) in
  exists c',
    Chat.run Chat.initial [Chat.Type_ "any news?"; Chat.ClickSend] = Some c
    /\ Chat.step c (Chat.Resolve 0 (Js.Response false None)) = Some c'
    /\ Shape.turns (Chat.chatWindow c')
       = [Chat.bubble "any news?" "user"; Chat.bubble Chat.apology "bot"]
    /\ Chat.sendBtn_disabled c' = false.
Proof.
  intros c. eexists. split; [reflexivity|]. split; [reflexivity|].
  destruct (answer_appends_one_turn
              [Chat.Type_ "any news?"; Chat.ClickSend] c _ 0
              (Js.Response false None) eq_refl eq_refl eq_refl eq_refl)
    as (Ht & _ & _ & Hb & Ha & _).
  split; [|exact Hb].
  rewrite Ht, (Ha eq_refl). reflexivity.
Defined.

(** ** The scheduler *)

Module SchedulerFacts.

Import Js JsFacts Dashboard DashboardFacts.

Section Clock.

Variable clock : value -> string.

Lemma settle_lastUpdate i w o p p' :
  settle clock i w o p = Some p' -> lastUpdate p' = lastUpdate p.
Proof.
  unfold settle. destruct (cycles p !! i) as [c|]; [|discriminate].
  destruct (is_waiting w c); [|discriminate].
  destruct (sub_fetch clock w o (elements p)) as [d r].
  intros H. injection H as <-.
  destruct (settled c); [reflexivity|].
  destruct r as [[]|]; destruct (still_waiting w c); reflexivity.
Qed.

Lemma armed_app h p l :
  existsb (fun t : nat * Z => Nat.eqb t.1 h) (intervals p ++ l)
  = armed h p || existsb (fun t : nat * Z => Nat.eqb t.1 h) l.
Proof. apply existsb_app. Qed.

Lemma armed_clear h k l :
  h <> k ->
  existsb (fun t : nat * Z => Nat.eqb t.1 h) (clearInterval k l)
  = existsb (fun t : nat * Z => Nat.eqb t.1 h) l.
Proof.
  intros Hk. unfold clearInterval.
  induction l as [|[a z] l IH]; [reflexivity|].
  rewrite filter_cons. simpl.
  destruct (decide (a ≠ k)) as [Ha|Ha]; simpl; [now rewrite IH|].
  rewrite IH. destruct (Nat.eqb_spec a h) as [->|]; [|reflexivity].
  exfalso. apply Ha. exact Hk.
Qed.

Lemma stray_stop p : Shape.stray_timer p -> Shape.stray_timer (stopAutoRefresh p).
Proof.
  intros (Ha & Hn & h & Hh & Hv). unfold stopAutoRefresh. rewrite Hv.
  destruct h as [|k]; [lia|].
  split; [|split; [exact Hn|exists (S k); auto]].
  unfold armed. simpl. rewrite armed_clear by lia. exact Ha.
Qed.

Lemma stray_start p : Shape.stray_timer p -> Shape.stray_timer (startAutoRefresh p).
Proof.
  intros (Ha & Hn & _).
  split; [|split; [simpl; lia|exists (next_handle p); auto]].
  unfold armed. simpl. rewrite armed_app, Ha. reflexivity.
Qed.

Lemma step_stray p ev p' :
  Shape.stray_timer p -> step clock p ev = Some p' -> Shape.stray_timer p'.
Proof.
  intros Hp H. destruct ev as [now|h now|now| |i w o|]; simpl in H.
  - destruct (btn_disabled p); [discriminate|]. now injection H as <-.
  - destruct (armed h p); [|discriminate]. now injection H as <-.
  - injection H as <-. unfold on_visibilitychange. simpl.
    destruct (hidden p); simpl.
    + apply (stray_start (set_hidden false p)). exact Hp.
    + apply (stray_stop (set_hidden true p)). exact Hp.
  - injection H as <-. now apply stray_stop.
  - apply settle_cases in H
      as (c & c' & _ & _ & _ & _ & _ & _ & _ & Hi & Ha & Hn & _).
    unfold Shape.stray_timer, armed. rewrite Hi, Ha, Hn. exact Hp.
  - destruct (timeouts p); [discriminate|]. now injection H as <-.
Qed.

Lemma step_lastUpdate p ev p' :
  internal ev = true -> step clock p ev = Some p' ->
  lastUpdate p' = lastUpdate p.
Proof.
  intros Hi H. destruct ev as [now|h now|now| |i w o|]; try discriminate;
    simpl in H.
  - now apply settle_lastUpdate in H.
  - destruct (timeouts p); [discriminate|]. now injection H as <-.
Qed.

(** The [catch] block of a sub-fetch throws when one of its elements is
    missing. *)
Lemma error_report_rejects w o d :
  failed o = true -> ~ has_elements (region w) d ->
  (sub_fetch clock w o d).2 = None.
Proof.
  intros Hf Hd. destruct w; simpl in *.
  - unfold fetchStats. rewrite try_catch_failed by assumption.
    unfold stats_error, bind, set_text.
    destruct (d !! "totalMessages") eqn:E1; [|reflexivity].
    destruct (d !! "uniqueUsers") eqn:E2; simplify_map_eq; [|reflexivity].
    destruct (d !! "questionsCount") eqn:E3; simplify_map_eq; [|reflexivity].
    destruct (d !! "problemsCount") eqn:E4; simplify_map_eq; [|reflexivity].
    exfalso. apply Hd. unfold has_elements, stat_ids.
    repeat (apply Forall_cons; split); eauto.
  - unfold fetchInsights. rewrite try_catch_failed by assumption.
    unfold insights_error, bind, set_text.
    destruct (d !! "problemsInsight") eqn:E1; [|reflexivity].
    destruct (d !! "questionsInsight") eqn:E2; simplify_map_eq; [|reflexivity].
    destruct (d !! "trendingInsight") eqn:E3; simplify_map_eq; [|reflexivity].
    exfalso. apply Hd. unfold has_elements, insight_ids.
    repeat (apply Forall_cons; split); eauto.
  - unfold fetchRecentMessages. rewrite try_catch_failed by assumption.
    unfold set_html.
    destruct (d !! "recentMessages") eqn:E1; [|reflexivity].
    exfalso. apply Hd. unfold has_elements, message_ids.
    repeat (apply Forall_cons; split); eauto.
Qed.

End Clock.

End SchedulerFacts.

(** X19.  When the page is hidden while the script loads and then becomes
    visible, the timer armed at load is never cleared: [autoRefreshInterval]
    names the second timer from then on, so in every later state, hidden or
    not, the first timer is armed, its tick starts a fetch cycle, and
    [stopAutoRefresh] leaves it armed. *)
Theorem first_timer_outlives_hidden_load
    (clock : Js.value -> string) (d : gmap string Js.content)
    (stamp html now t : string) (evs : list Dashboard.event)
    (p : Dashboard.page) :
  Dashboard.run clock
    (Dashboard.load now (Dashboard.fresh d true stamp html))
    (Dashboard.VisibilityChange t :: evs) = Some p ->
  Dashboard.armed 1 p = true
  /\ Dashboard.autoRefreshInterval p <> Some 1
  /\ (forall t', Dashboard.step clock p (Dashboard.Tick 1 t')
                 = Some (Dashboard.refreshAllData t' p))
  /\ Dashboard.armed 1 (Dashboard.stopAutoRefresh p) = true.
Proof.
  intros Hrun. simpl in Hrun.
  assert (Hs : Shape.stray_timer p).
  { eapply (DashboardFacts.run_invariant clock Shape.stray_timer);
      [apply SchedulerFacts.step_stray | | exact Hrun].
    split; [reflexivity|]. split; [simpl; lia|]. exists 2. now split. }
  pose proof (SchedulerFacts.stray_stop p Hs) as (Hstop & _).
  destruct Hs as (Ha & _ & h & Hh & Hv).
  split; [exact Ha|]. split; [|split; [|exact Hstop]].
  - rewrite Hv. intros E. injection E as ->. lia.
  - intros t'. simpl. now rewrite Ha.
Qed.

Lemma first_timer_outlives_hidden_load_witness :
  exists p,
    Dashboard.run Sample.clock
      (Dashboard.load "9:00" (Dashboard.fresh Sample.elements true "" "Refresh"))
      [Dashboard.VisibilityChange "9:01"; Dashboard.VisibilityChange "9:02";
       Dashboard.BeforeUnload] = Some p
    /\ Dashboard.hidden p = true
    /\ Dashboard.armed 1 p = true.
Proof.
  eexists. split; [reflexivity|]. split; [reflexivity|].
  apply (first_timer_outlives_hidden_load Sample.clock Sample.elements
           "" "Refresh" "9:00" "9:01"
           [Dashboard.VisibilityChange "9:02"; Dashboard.BeforeUnload]).
  reflexivity.
Defined.

(** X20.  When the page is visible while the script loads, at most one
    timer is armed in every state the page reaches, visible or hidden: the
    one [autoRefreshInterval] names, of period 30000, and leaving the page
    clears it. *)
Theorem at_most_one_timer_after_visible_load
    (clock : Js.value -> string) (d : gmap string Js.content)
    (stamp html now : string) (evs : list Dashboard.event)
    (p : Dashboard.page) :
  Dashboard.run clock
    (Dashboard.load now (Dashboard.fresh d false stamp html)) evs = Some p ->
  length (Dashboard.intervals p) <= 1
  /\ (forall h z, (h, z) ∈ Dashboard.intervals p ->
        Dashboard.autoRefreshInterval p = Some h /\ z = 30000%Z
        /\ Dashboard.hidden p = false)
  /\ Dashboard.intervals (Dashboard.stopAutoRefresh p) = [].
Proof.
  intros Hrun.
  assert (Hinv : Dashboard.timer_inv p).
  { eapply (DashboardFacts.run_invariant clock Dashboard.timer_inv);
      [apply DashboardFacts.step_timer_inv | | exact Hrun].
    apply DashboardFacts.timer_inv_load. }
  pose proof (DashboardFacts.stop_clears p (DashboardFacts.timer_shape p Hinv))
    as [Hstop _].
  destruct Hinv as [_ [He|(Hv & h & _ & Ha & Hi)]].
  - rewrite He. split; [simpl; lia|]. split; [|exact Hstop].
    intros h z Hin. now apply elem_of_nil in Hin.
  - rewrite Hi. split; [simpl; lia|]. split; [|exact Hstop].
    intros h' z Hin. apply list_elem_of_singleton in Hin.
    injection Hin as -> ->. auto.
Qed.

Lemma at_most_one_timer_after_visible_load_witness :
  exists p,
    Dashboard.run Sample.clock (Dashboard.load "9:00" Sample.page)
      [Dashboard.VisibilityChange "9:01"; Dashboard.VisibilityChange "9:02"]
    = Some p
    /\ Dashboard.autoRefreshInterval p = Some 2
    /\ length (Dashboard.intervals p) <= 1.
Proof.
  eexists. split; [reflexivity|]. split; [reflexivity|].
  apply (at_most_one_timer_after_visible_load Sample.clock Sample.elements
           "" "Refresh" "9:00"
           [Dashboard.VisibilityChange "9:01";
            Dashboard.VisibilityChange "9:02"]).
  reflexivity.
Defined.

(** X22.  When a network call fails and one of the elements that its
    sub-fetch reports the failure in is missing, the sub-fetch rejects: the
    invocation of [refreshAllData] it belongs to shows the error label on
    the button at once, without waiting for the other sub-fetches, and
    schedules the reset of the button. *)
Theorem missing_element_shows_error_label
    (clock : Js.value -> string) (p : Dashboard.page) (i : nat)
    (c : Dashboard.cycle) (w : Dashboard.which) (o : Js.outcome) :
  Dashboard.cycles p !! i = Some c ->
  Dashboard.settled c = false ->
  Dashboard.is_waiting w c = true ->
  Js.failed o = true ->
  ~ Dashboard.has_elements (Dashboard.region w) (Dashboard.elements p) ->
  exists p',
    Dashboard.step clock p (Dashboard.Settle i w o) = Some p'
    /\ Dashboard.btn_html p' = Dashboard.label_error
    /\ Dashboard.timeouts p' = S (Dashboard.timeouts p)
    /\ Dashboard.cycles p'
       = Dashboard.store i
           {| Dashboard.waiting := Dashboard.still_waiting w c;
              Dashboard.settled := true |}
           (Dashboard.cycles p).
Proof.
  intros Hi Hs Hw Hf Hd.
  pose proof (SchedulerFacts.error_report_rejects clock w o _ Hf Hd) as Hr.
  simpl. unfold Dashboard.settle. rewrite Hi, Hw, Hs.
  destruct (Dashboard.sub_fetch clock w o (Dashboard.elements p)) as [d' r].
  simpl in Hr. subst r. eexists. split; [reflexivity|].
  now destruct (Dashboard.still_waiting w c).
Qed.

Lemma missing_element_shows_error_label_witness :
  let p := Dashboard.load "9:00" (Dashboard.fresh ∅ false "" "Refresh") in
  exists p',
    Dashboard.step Sample.clock p
      (Dashboard.Settle 0 Dashboard.Insights (Js.Response false None))
    = Some p'
    /\ Dashboard.btn_html p' = Dashboard.label_error
    /\ Dashboard.in_flight p' = 2.
Proof.
  intros p.
  destruct (missing_element_shows_error_label Sample.clock p 0
              Dashboard.new_cycle Dashboard.Insights (Js.Response false None)
              eq_refl eq_refl eq_refl eq_refl) as (p' & Hstep & Hb & _ & Hc).
  { intros H. apply Forall_cons in H as [[x Hx] _]. discriminate. }
  exists p'. split; [exact Hstep|]. split; [exact Hb|].
  unfold Dashboard.in_flight. rewrite Hc. reflexivity.
Defined.

(** X23.  The time stamp of the page tells when the last fetch cycle was
    started, not when data last arrived: it is written before the calls
    are made, and no settlement, failed or not, and no reset of the button
    changes it. *)
Theorem time_stamp_tells_the_start_of_the_cycle
    (clock : Js.value -> string) (now : string)
    (evs : list Dashboard.event) (p p' : Dashboard.page) :
  forallb Dashboard.internal evs = true ->
  Dashboard.run clock (Dashboard.refreshAllData now p) evs = Some p' ->
  Dashboard.lastUpdate p' = "Last updated: " +:+ now.
Proof.
  intros Hi Hrun.
  change ("Last updated: " +:+ now)
    with (Dashboard.lastUpdate (Dashboard.refreshAllData now p)).
  revert Hi Hrun. generalize (Dashboard.refreshAllData now p).
  induction evs as [|ev evs IH]; intros p0 Hi Hrun; simpl in *.
  - now injection Hrun as <-.
  - apply andb_true_iff in Hi as [Hev Hi].
    destruct (Dashboard.step clock p0 ev) as [p1|] eqn:E; [|discriminate].
    rewrite (IH p1 Hi Hrun).
    exact (SchedulerFacts.step_lastUpdate clock p0 ev p1 Hev E).
Qed.

Lemma time_stamp_tells_the_start_of_the_cycle_witness :
  match
    Dashboard.run Sample.clock (Dashboard.refreshAllData "9:00" Sample.page)
      [Dashboard.Settle 0 Dashboard.Stats Js.NetworkError;
       Dashboard.Settle 0 Dashboard.Insights Js.NetworkError;
       Dashboard.Settle 0 Dashboard.Messages Js.NetworkError;
       Dashboard.Timeout]
  with
  | Some p' => Dashboard.lastUpdate p' = "Last updated: 9:00"
  | None => False
  end.
Proof.
  destruct (Dashboard.run _ _ _) as [p'|] eqn:E;
    [|vm_compute in E; discriminate E].
  apply (fun H => time_stamp_tells_the_start_of_the_cycle _ _ _ _ _ H E).
  reflexivity.
Defined.
